(** * sdm: a chunked HTTP download manager (main.go)

    A shallow embedding of the chunked-transfer engine of [main.go]:
    the worker heuristic, the chunk plan, the capability probe, the
    per-chunk fetch with its retry loop, the single-stream fallback and
    the command wrapper, followed by the properties of each.

    Conventions.
    - Go's [int] is the 64-bit signed integer of the usual targets; it is
      a [Z] with the wrap-around written out ([GoInt.wrap]).
    - A Go [error] result is an [option error]; [None] is [nil].
    - Every call that leaves the program (net/http, os, time, fmt, the
      progress bar) is appended to the [log] of the [World], in program
      order; what the outside answers is read from an oracle ([Env]).
    - The goroutines of [downloadFile] are run one after the other in
      launch order.  Each task reads only its own oracle, and
      [downloadFile] joins all of them before it returns.  The goroutines
      are also given call by call ([goroutine], [Interleaving]), to show
      when the order in which they run does not matter. *)

From Stdlib Require Import ZArith List String Ascii Bool Lia DecimalString.
From Stdlib.Strings Require Import Byte.
From Equations Require Import Equations.
Import ListNotations.

Local Open Scope string_scope.
Local Open Scope list_scope.
Local Open Scope Z_scope.

(* ===================================================================== *)
(** ** Go's [int] *)
(* ===================================================================== *)

Module GoInt.

Definition min_int : Z := - 2 ^ 63.
Definition max_int : Z := 2 ^ 63 - 1.

Definition in_range (z : Z) : Prop := min_int <= z <= max_int.

Definition in_rangeb (z : Z) : bool := (min_int <=? z) && (z <=? max_int).

(** Two's complement wrap-around of a mathematical result. *)
Definition wrap (z : Z) : Z := (z + 2 ^ 63) mod 2 ^ 64 - 2 ^ 63.

Definition add (a b : Z) : Z := wrap (a + b).
Definition sub (a b : Z) : Z := wrap (a - b).
Definition mul (a b : Z) : Z := wrap (a * b).

(** [a / b]: truncated towards zero.  The caller guarantees [b <> 0]
    (Go panics otherwise). *)
Definition quo (a b : Z) : Z := wrap (Z.quot a b).

End GoInt.

(* ===================================================================== *)
(** ** Constants (main.go:18-21) *)
(* ===================================================================== *)

Definition maxRetries : Z := 3.

(** [time.Second], in nanoseconds as [time.Duration] counts them. *)
Definition Second : Z := 1000000000.

Definition retryBackoff : Z := 2 * Second.

(* ===================================================================== *)
(** ** calculateWorkers (main.go:285-301) *)
(* ===================================================================== *)

Definition MB : Z := 1024 * 1024.
Definition GB : Z := 1024 * MB.

Definition calculateWorkers (size : Z) : Z :=
  if size <? 5 * MB then 1
  else if size <? 100 * MB then 4
  else if size <? 1 * GB then 8
  else 16.

(** The override of main.go:124-127:
    [workers := calculateWorkers(size); if workersOverride > 0 { workers = workersOverride }]. *)
Definition resolveWorkers (size workersOverride : Z) : Z :=
  let workers := calculateWorkers size in
  if workersOverride >? 0 then workersOverride else workers.

(* ===================================================================== *)
(** ** The chunk plan (main.go:153-162) *)
(* ===================================================================== *)

(** The body of the loop for index [i]: the pair [(start, end)] handed to
    the goroutine. *)
Definition partRange (size workers partSize i : Z) : Z * Z :=
  let start := GoInt.mul i partSize in
  let end_ := GoInt.sub (GoInt.add start partSize) 1 in
  let end_ := if i =? GoInt.sub workers 1 then GoInt.sub size 1 else end_ in
  (start, end_).

(** [partSize := size / workers] and the ranges of
    [for i := 0; i < workers; i++], in launch order. *)
Definition chunkPlan (size workers : Z) : list (Z * Z) :=
  let partSize := GoInt.quo size workers in
  map (fun i => partRange size workers partSize (Z.of_nat i))
      (seq 0 (Z.to_nat workers)).

(** A byte offset lies in an inclusive range. *)
Definition covers (r : Z * Z) (b : Z) : Prop := fst r <= b <= snd r.

(* ===================================================================== *)
(** ** Errors, responses, events *)
(* ===================================================================== *)

(** [*strconv.NumError] of [strconv.Atoi]. *)
Inductive NumError : Type :=
| ErrSyntax
| ErrRange.

(** The [error] values that flow through main.go.  Those built with
    [fmt.Errorf] carry the formatted operand; those of the libraries are
    opaque apart from [io.EOF], which the read loop tests for. *)
Inductive error : Type :=
| EOF                                   (* io.EOF *)
| TransportError (msg : string)         (* from net/http *)
| IOError (msg : string)                (* from os and *os.File *)
| StatusError (code : Z)                (* "server returned status code %d" *)
| MissingContentLength                  (* "missing Content-Length header" *)
| InvalidContentLength (e : NumError)   (* "invalid content length: %v" *)
| VerifyError (e : error)               (* "error verifying partial download support: %v" *)
| NoPartialContent (code : Z).          (* "server does not support partial content: %d" *)

Definition is_EOF (e : error) : bool :=
  match e with EOF => true | _ => false end.

Definition StatusOK : Z := 200.
Definition StatusPartialContent : Z := 206.

(** One [resp.Body.Read(buf)]: the bytes put in [buf] and the error
    returned with them.  A body is the list of its reads; once the list is
    used up, [Read] returns [(0, io.EOF)]. *)
Definition ReadResult : Type := list byte * option error.

Record Response : Type := mkResponse {
  StatusCode : Z;
  Header : list (string * string);
  ContentLength : Z;
  Body : list ReadResult
}.

(** [Header.Get]: the first value stored under the key, [""] when there is
    none.  Keys are held in canonical form, as net/http stores them. *)
Fixpoint Header_Get (h : list (string * string)) (key : string) : string :=
  match h with
  | [] => ""
  | (k, v) :: t => if String.eqb k key then v else Header_Get t key
  end.

(** The lines the program prints. *)
Inductive Msg : Type :=
| MsgNoRanges                    (* "Server does not support partial downloads, falling back ..." *)
| MsgMisbehaves                  (* "Server claims partial download support but does not behave ..." *)
| MsgFileSize (size : Z)         (* "File size: %d bytes" *)
| MsgUsingWorkers (workers : Z)  (* "Using %d workers..." *)
| MsgPartFailed (start end_ retries : Z) (err : error)
                                 (* "Failed to download part %d-%d after %d retries: %v" *)
| MsgRetrying (start end_ attempt : Z)
                                 (* "Retrying part %d-%d (attempt %d)..." *)
| MsgDownloadFailed (err : error)  (* "Download failed:" err *)
| MsgStatFailed                  (* "Error getting downloaded file size:" err *)
| MsgCompleted.                  (* "Download completed successfully!" and the two timing lines *)

(** Calls that leave the program. *)
Inductive Event : Type :=
| EvNewRequest (method url : string)            (* http.NewRequest *)
| EvHead (url : string)                         (* http.Head *)
| EvGet (url : string)                          (* http.Get: no Range header *)
| EvDo (url range : string)                     (* client.Do of a GET carrying Range *)
| EvCreate (path : string)                      (* os.Create *)
| EvTruncate (path : string) (size : Z)         (* file.Truncate *)
| EvOpenFile (path : string)                    (* os.OpenFile(path, O_WRONLY, 0666) *)
| EvSeek (path : string) (off : Z)              (* file.Seek(off, io.SeekStart) *)
| EvWrite (path : string) (off : Z) (data : list byte)  (* file.Write at the cursor *)
| EvBarNew (max : Z)                            (* progressbar.NewOptions *)
| EvBarAdd (n : Z)                              (* bar.Add / bar.Write *)
| EvSleep (d : Z)                               (* time.Sleep *)
| EvStat (path : string)                        (* os.Stat *)
| EvPrint (m : Msg).                            (* fmt.Println / fmt.Printf *)

(* ===================================================================== *)
(** ** strconv.Atoi and the formatting of [%d] *)
(* ===================================================================== *)

Definition digit_of (c : ascii) : option Z :=
  let n := Z.of_nat (nat_of_ascii c) in
  if (48 <=? n) && (n <=? 57) then Some (n - 48) else None.

(** The digit scan of [strconv.ParseUint(s, 10, 64)]: the first offending
    byte decides between a syntax and a range error. *)
Fixpoint parse_digits (s : string) (acc : Z) : NumError + Z :=
  match s with
  | EmptyString => inr acc
  | String c rest =>
      match digit_of c with
      | None => inl ErrSyntax
      | Some d =>
          let acc' := acc * 10 + d in
          if 2 ^ 64 <=? acc' then inl ErrRange else parse_digits rest acc'
      end
  end.

(** [strconv.Atoi]: an optional sign, then at least one decimal digit and
    nothing else; the value must fit Go's [int]. *)
Definition Atoi (s : string) : NumError + Z :=
  match s with
  | EmptyString => inl ErrSyntax
  | String c rest =>
      let neg := Ascii.eqb c "-" in
      let digits := if neg || Ascii.eqb c "+" then rest else s in
      match digits with
      | EmptyString => inl ErrSyntax
      | _ =>
          match parse_digits digits 0 with
          | inl e => inl e
          | inr un =>
              let v := if neg then - un else un in
              if GoInt.in_rangeb v then inr v else inl ErrRange
          end
      end
  end.

(** [%d] of [fmt.Sprintf]. *)
Definition itoa (z : Z) : string := NilZero.string_of_int (Z.to_int z).

(** [fmt.Sprintf("bytes=%d-%d", start, end)] (main.go:193). *)
Definition rangeHeader (start end_ : Z) : string :=
  ("bytes=" ++ itoa start ++ "-" ++ itoa end_)%string.

(* ===================================================================== *)
(** ** The world: files, progress bar, log; and the oracle *)
(* ===================================================================== *)

Definition FS : Type := string -> option (list byte).

Record World : Type := mkWorld {
  fs : FS;              (* contents of the files that exist *)
  bar : Z;              (* state of the global progress bar *)
  log : list Event      (* calls made so far, oldest first *)
}.

Definition zero : byte := x00.

Definition len (l : list byte) : Z := Z.of_nat (List.length l).

(** The contents of a file after [data] is written at offset [off]: bytes
    past the old end are zero-filled up to [off]. *)
Definition write_at (c : list byte) (off : Z) (data : list byte) : list byte :=
  let n := Z.to_nat off in
  firstn n c ++ repeat zero (n - List.length c) ++ data ++ skipn (n + List.length data) c.

(** The contents after [Truncate(size)]: cut or zero-extended. *)
Definition resize (c : list byte) (size : Z) : list byte :=
  let n := Z.to_nat size in
  firstn n c ++ repeat zero (n - List.length c).

Definition fs_set (f : FS) (path : string) (c : list byte) : FS :=
  fun p => if String.eqb p path then Some c else f p.

(** What the outside answers during one call of [downloadPart]. *)
Record PartEnv : Type := mkPartEnv {
  pe_Do : string -> string -> error + Response;  (* client.Do, by URL and Range *)
  pe_OpenFile : option error;                    (* os.OpenFile on an existing file *)
  pe_Seek : option error;                        (* file.Seek to an offset >= 0 *)
  pe_Write : nat -> option error                 (* the k-th file.Write of the call *)
}.

(** What the outside answers during one run of the program. *)
Record Env : Type := mkEnv {
  http_NewRequest : string -> option error;      (* depends on the URL only *)
  http_Head : string -> error + Response;
  http_Get : string -> error + Response;
  verify_Do : string -> string -> error + Response;  (* the test request, by URL and Range *)
  os_Create : string -> option error;
  file_Truncate : Z -> option error;             (* for a size >= 0 *)
  single_Write : nat -> option error;            (* the k-th write of the fallback copy *)
  part_env : nat -> nat -> PartEnv               (* by chunk index and attempt number *)
}.

(* ===================================================================== *)
(** ** A state-and-error monad for the Go functions *)
(* ===================================================================== *)

(** A computation either returns early with an [error] or yields a value;
    the world is threaded through either way. *)
Definition M (A : Type) : Type := World -> (error + A) * World.

Definition ret {A} (a : A) : M A := fun w => (inr a, w).

Definition throw {A} (e : error) : M A := fun w => (inl e, w).

Definition bind {A B} (m : M A) (k : A -> M B) : M B :=
  fun w =>
    match m w with
    | (inl e, w') => (inl e, w')
    | (inr a, w') => k a w'
    end.

Declare Scope go_scope.
Delimit Scope go_scope with go.

Notation "x <- c1 ;; c2" := (bind c1 (fun x => c2))
  (at level 100, c1 at next level, right associativity) : go_scope.
Notation "c1 ;; c2" := (bind c1 (fun _ => c2))
  (at level 100, right associativity) : go_scope.

Local Open Scope go_scope.

(** [if err != nil { return err }] on a bare [error]. *)
Definition propagate (r : option error) : M unit :=
  match r with
  | Some e => throw e
  | None => ret tt
  end.

(** [v, err := f(); if err != nil { return err }]. *)
Definition lift {A} (r : error + A) : M A :=
  match r with
  | inl e => throw e
  | inr a => ret a
  end.

(** Run a callee and hand its [error] result to the caller instead of
    returning it. *)
Definition capture {A} (m : M A) : M (error + A) :=
  fun w => let (r, w') := m w in (inr r, w').

Definition emit (e : Event) : M unit :=
  fun w => (inr tt, mkWorld (fs w) (bar w) (log w ++ [e])).

Definition print (m : Msg) : M unit := emit (EvPrint m).

Definition sleep (d : Z) : M unit := emit (EvSleep d).

Definition set_file (path : string) (c : list byte) : M unit :=
  fun w => (inr tt, mkWorld (fs_set (fs w) path c) (bar w) (log w)).

Definition set_bar (n : Z) : M unit :=
  fun w => (inr tt, mkWorld (fs w) n (log w)).

Definition get_world : M World := fun w => (inr w, w).

(* ===================================================================== *)
(** ** Library calls *)
(* ===================================================================== *)

Definition NewRequest (env : Env) (method url : string) : M unit :=
  emit (EvNewRequest method url) ;;
  propagate (http_NewRequest env url).

(** [os.Create]: the file exists and is empty afterwards. *)
Definition Create (env : Env) (path : string) : M unit :=
  emit (EvCreate path) ;;
  propagate (os_Create env path) ;;
  set_file path [].

(** [file.Truncate(size)]: refused for a negative size (EINVAL). *)
Definition Truncate (env : Env) (path : string) (size : Z) : M unit :=
  emit (EvTruncate path size) ;;
  (if size <? 0 then throw (IOError "invalid argument")
   else propagate (file_Truncate env size)) ;;
  w <- get_world ;;
  match fs w path with
  | Some c => set_file path (resize c size)
  | None => ret tt
  end.

(** [os.OpenFile(path, os.O_WRONLY, 0666)]: no O_CREATE, so the file has
    to exist. *)
Definition OpenFile (pe : PartEnv) (path : string) : M unit :=
  emit (EvOpenFile path) ;;
  w <- get_world ;;
  match fs w path with
  | None => throw (IOError "no such file or directory")
  | Some _ => propagate (pe_OpenFile pe)
  end.

(** [file.Seek(off, io.SeekStart)]: refused for a negative offset. *)
Definition Seek (pe : PartEnv) (path : string) (off : Z) : M unit :=
  emit (EvSeek path off) ;;
  if off <? 0 then throw (IOError "invalid argument")
  else propagate (pe_Seek pe).

(** [file.Write(data)] with the cursor at [off]; a failed write leaves the
    contents as they were. *)
Definition Write (werr : option error) (path : string) (off : Z)
    (data : list byte) : M unit :=
  emit (EvWrite path off data) ;;
  propagate werr ;;
  w <- get_world ;;
  match fs w path with
  | Some c => set_file path (write_at c off data)
  | None => ret tt
  end.

(** [bar.Add(n)]; its own error result is dropped by the callers. *)
Definition barAdd (n : Z) : M unit :=
  emit (EvBarAdd n) ;;
  w <- get_world ;;
  set_bar (bar w + n).

Definition barNew (max : Z) : M unit :=
  emit (EvBarNew max) ;;
  set_bar 0.

(* ===================================================================== *)
(** ** downloadPart (main.go:187-235) *)
(* ===================================================================== *)

(** The read loop of main.go:218-233, with the file cursor at [off] and
    [k] writes done so far:
    [n, err := Read(buf); if n > 0 { Write; bar.Add(n) };
     if err != nil { if err == io.EOF { break }; return err }].
    [io.Copy(io.MultiWriter(file, bar), body)] of [singleDownload] makes
    the same calls in the same order. *)
Fixpoint copyLoop (werr : nat -> option error) (path : string)
    (k : nat) (off : Z) (reads : list ReadResult) : M unit :=
  match reads with
  | [] => ret tt
  | (buf, err) :: rest =>
      let n := len buf in
      k' <- (if 0 <? n
             then (Write (werr k) path off buf ;; barAdd n ;; ret (S k))
             else ret k) ;;
      match err with
      | Some e => if is_EOF e then ret tt else throw e
      | None => copyLoop werr path k' (off + n) rest
      end
  end.

Definition downloadPart (env : Env) (pe : PartEnv) (url output : string)
    (start end_ : Z) : M unit :=
  NewRequest env "GET" url ;;
  let rangeHeader := rangeHeader start end_ in
  emit (EvDo url rangeHeader) ;;
  resp <- lift (pe_Do pe url rangeHeader) ;;
  if negb (StatusCode resp =? StatusPartialContent)
  then throw (NoPartialContent (StatusCode resp))
  else
    OpenFile pe output ;;
    Seek pe output start ;;
    copyLoop (pe_Write pe) output 0 start (Body resp).

(* ===================================================================== *)
(** ** The goroutine of downloadFile (main.go:164-180) *)
(* ===================================================================== *)

(** The [for] loop of the goroutine, entered with the local [retries] at
    the given value; [pe n] is what the outside answers during the call of
    [downloadPart] made with [retries = n].  The goroutine returns
    nothing: the last [err] dies with it.  The loop ends because of its
    own test [retries > maxRetries]: [budget] counts the iterations that
    test still allows. *)
Definition budget (retries : Z) : nat := Z.to_nat (maxRetries + 1 - retries).
Arguments budget : simpl never.

Equations? retryLoop (env : Env) (pe : nat -> PartEnv) (url output : string)
    (start end_ : Z) (retries : Z) (w : World) : World
  by wf (budget retries) lt :=
  retryLoop env pe url output start end_ retries w
    with downloadPart env (pe (Z.to_nat retries)) url output start end_ w := {
    | (inr _, w1) => w1
    | (inl err, w1) with Z_gt_le_dec (retries + 1) maxRetries := {
        | left _ =>
            snd (print (MsgPartFailed start end_ maxRetries err) w1)
        | right _ =>
            retryLoop env pe url output start end_ (retries + 1)
              (snd ((print (MsgRetrying start end_ (retries + 1)) ;;
                     sleep retryBackoff) w1)) } }.
Proof. unfold budget, maxRetries in *. lia. Qed.

(** [go func(start, end int) { retries := 0; for { ... } }(start, end)]. *)
Definition chunkTask (env : Env) (pe : nat -> PartEnv) (url output : string)
    (start end_ : Z) : M unit :=
  fun w => (inr tt, retryLoop env pe url output start end_ 0 w).

(** The tasks of the plan, chunk [i] first; [wg.Wait()] returns when the
    last one is done. *)
Fixpoint runTasks (env : Env) (url output : string) (i : nat)
    (plan : list (Z * Z)) : M unit :=
  match plan with
  | [] => ret tt
  | (start, end_) :: rest =>
      chunkTask env (part_env env i) url output start end_ ;;
      runTasks env url output (S i) rest
  end.

(* ===================================================================== *)
(** ** singleDownload (main.go:237-266) *)
(* ===================================================================== *)

Definition singleDownload (env : Env) (url output : string) : M unit :=
  emit (EvGet url) ;;
  resp <- lift (http_Get env url) ;;
  if negb (StatusCode resp =? StatusOK)
  then throw (StatusError (StatusCode resp))
  else
    Create env output ;;
    barNew (ContentLength resp) ;;
    copyLoop (single_Write env) output 0 0 (Body resp).

(* ===================================================================== *)
(** ** verifyPartialSupport (main.go:268-283) *)
(* ===================================================================== *)

Definition verifyPartialSupport (env : Env) (url : string) : M bool :=
  NewRequest env "GET" url ;;
  emit (EvDo url "bytes=0-1") ;;
  resp <- lift (verify_Do env url "bytes=0-1") ;;
  ret (StatusCode resp =? StatusPartialContent).

(* ===================================================================== *)
(** ** downloadFile (main.go:87-185) *)
(* ===================================================================== *)

(** main.go:122-184: the ranged transfer, once the probe has passed. *)
Definition rangedTransfer (env : Env) (url output : string)
    (size workersOverride : Z) : M unit :=
  print (MsgFileSize size) ;;
  let workers := resolveWorkers size workersOverride in
  print (MsgUsingWorkers workers) ;;
  Create env output ;;
  Truncate env output size ;;
  barNew size ;;
  runTasks env url output 0 (chunkPlan size workers) ;;
  ret tt.

Definition downloadFile (env : Env) (url output : string)
    (workersOverride : Z) : M unit :=
  emit (EvHead url) ;;
  resp <- lift (http_Head env url) ;;
  if negb (StatusCode resp =? StatusOK)
  then throw (StatusError (StatusCode resp))
  else
    let sizeStr := Header_Get (Header resp) "Content-Length" in
    if String.eqb sizeStr "" then throw MissingContentLength
    else
      match Atoi sizeStr with
      | inl e => throw (InvalidContentLength e)
      | inr size =>
          let acceptRanges := Header_Get (Header resp) "Accept-Ranges" in
          if negb (String.eqb acceptRanges "bytes")
          then print MsgNoRanges ;; singleDownload env url output
          else
            r <- capture (verifyPartialSupport env url) ;;
            match r with
            | inl err => throw (VerifyError err)
            | inr false => print MsgMisbehaves ;; singleDownload env url output
            | inr true => rangedTransfer env url output size workersOverride
            end
      end.

(* ===================================================================== *)
(** ** downloadCmd (main.go:45-85) *)
(* ===================================================================== *)

(** main.go:66-84, after the flags are parsed and the output path is
    resolved: the result is the exit status of the process, [1] from
    [os.Exit(1)] and [0] when [main] returns. *)
Definition downloadCmd (env : Env) (url output : string) (workersFlag : Z)
    (w : World) : Z * World :=
  match downloadFile env url output workersFlag w with
  | (inl err, w1) => (1, snd (print (MsgDownloadFailed err) w1))
  | (inr _, w1) =>
      let w2 := snd (emit (EvStat output) w1) in
      match fs w2 output with
      | None => (0, snd (print MsgStatFailed w2))
      | Some _ => (0, snd (print MsgCompleted w2))
      end
  end.

(* ===================================================================== *)
(** ** Vocabulary for the statements *)
(* ===================================================================== *)

Definition is_NewRequest (e : Event) : bool :=
  match e with EvNewRequest _ _ => true | _ => false end.

Definition is_Sleep (e : Event) : bool :=
  match e with EvSleep _ => true | _ => false end.


(** A ranged GET put on the network by [client.Do]. *)
Definition is_Do (e : Event) : bool :=
  match e with EvDo _ _ => true | _ => false end.


(** A call that creates or modifies a file. *)
Definition touches_file (e : Event) : bool :=
  match e with
  | EvCreate _ | EvTruncate _ _ | EvOpenFile _ | EvSeek _ _ | EvWrite _ _ _ => true
  | _ => false
  end.

Definition count (p : Event -> bool) (evs : list Event) : Z :=
  Z.of_nat (List.length (filter p evs)).

(** Calls of [downloadPart] in a trace: each starts with its
    [http.NewRequest]. *)
Definition attempts (evs : list Event) : Z := count is_NewRequest evs.

Definition sleeps (evs : list Event) : Z := count is_Sleep evs.

(** The events one call of [downloadPart] may log after its
    [http.NewRequest]: the ranged GET for exactly [range], and work on the
    file. *)
Definition attempt_event (url range : string) (e : Event) : bool :=
  match e with
  | EvDo u r => String.eqb u url && String.eqb r range
  | EvOpenFile _ | EvSeek _ _ | EvWrite _ _ _ | EvBarAdd _ => true
  | _ => false
  end.

(** Backoff discipline: a call of [downloadPart] is either the first event
    of the trace or comes right after a sleep of [retryBackoff].  [ok]
    tells whether a call may come next. *)
Fixpoint spaced (ok : bool) (evs : list Event) : bool :=
  match evs with
  | [] => true
  | EvNewRequest _ _ :: rest => ok && spaced false rest
  | EvSleep d :: rest => spaced (d =? retryBackoff) rest
  | _ :: rest => spaced false rest
  end.

(** Write discipline: within each call of [downloadPart] every seek goes
    to [start], no write comes before the seek, and the writes continue
    from where the previous one ended.  [cursor] is the file offset of the
    open handle, if a seek was made in the current call. *)
Fixpoint positioned (start : Z) (cursor : option Z) (evs : list Event) : bool :=
  match evs with
  | [] => true
  | EvNewRequest _ _ :: rest => positioned start None rest
  | EvSeek _ off :: rest => (off =? start) && positioned start (Some off) rest
  | EvWrite _ off data :: rest =>
      match cursor with
      | Some c => (off =? c) && positioned start (Some (off + len data)) rest
      | None => false
      end
  | _ :: rest => positioned start cursor rest
  end.

(** The first error a body's reads return, if any. *)
Fixpoint first_read_error (reads : list ReadResult) : option error :=
  match reads with
  | [] => None
  | (_, Some e) :: _ => Some e
  | (_, None) :: rest => first_read_error rest
  end.

(** The body ends in [io.EOF]: either the reads run out, or the first
    error returned is [io.EOF]. *)
Definition ends_in_EOF (reads : list ReadResult) : bool :=
  match first_read_error reads with
  | Some e => is_EOF e
  | None => true
  end.

(** The bytes a body hands over up to and including the read that returns
    its first error. *)
Fixpoint delivered (reads : list ReadResult) : list byte :=
  match reads with
  | [] => []
  | (buf, Some _) :: _ => buf
  | (buf, None) :: rest => buf ++ delivered rest
  end.

(** The events of the read loop: writes and progress. *)
Definition copy_event (e : Event) : bool :=
  match e with
  | EvWrite _ _ _ | EvBarAdd _ => true
  | _ => false
  end.

(** What the read loop returns when no write fails: the first read error
    unless it is [io.EOF]. *)
Definition copy_outcome (reads : list ReadResult) : error + unit :=
  match first_read_error reads with
  | Some e => if is_EOF e then inr tt else inl e
  | None => inr tt
  end.

(** The metadata request passes: status 200 and a Content-Length that
    [strconv.Atoi] reads as [size]. *)
Definition HeadOK (env : Env) (url : string) (resp : Response) (size : Z) : Prop :=
  http_Head env url = inr resp /\
  StatusCode resp = StatusOK /\
  Atoi (Header_Get (Header resp) "Content-Length") = inr size.

(** The ways the probe stage fails. *)
Inductive ProbeFailure (env : Env) (url : string) : Prop :=
| PF_transport e :
    http_Head env url = inl e -> ProbeFailure env url
| PF_status resp :
    http_Head env url = inr resp -> StatusCode resp <> StatusOK ->
    ProbeFailure env url
| PF_missing_length resp :
    http_Head env url = inr resp ->
    Header_Get (Header resp) "Content-Length" = "" ->
    ProbeFailure env url
| PF_unparseable_length resp e :
    http_Head env url = inr resp ->
    Atoi (Header_Get (Header resp) "Content-Length") = inl e ->
    ProbeFailure env url
| PF_test_request resp size e :
    HeadOK env url resp size ->
    Header_Get (Header resp) "Accept-Ranges" = "bytes" ->
    http_NewRequest env url = Some e \/ verify_Do env url "bytes=0-1" = inl e ->
    ProbeFailure env url.


(** The Content-Range a 206 answer to [bytes=start-end] of a resource of
    [size] bytes has to carry. *)
Definition content_range (start end_ size : Z) : string :=
  ("bytes " ++ itoa start ++ "-" ++ itoa end_ ++ "/" ++ itoa size)%string.

(** The trace of one call of [downloadPart] for the chunk [[start, end_]]. *)
Definition attempt_segment (url : string) (start end_ : Z)
    (seg : list Event) : Prop :=
  exists tail,
    seg = EvNewRequest "GET" url :: tail /\
    forallb (attempt_event url (rangeHeader start end_)) tail = true /\
    positioned start None tail = true.

(** The shape of the trace of the goroutine's loop, entered with
    [retries = r]: calls of [downloadPart], each but the last followed by
    the retry message and the backoff sleep. *)
Inductive RetryTrace (url : string) (start end_ : Z) : Z -> list Event -> Prop :=
| RT_success r seg :
    attempt_segment url start end_ seg -> RetryTrace url start end_ r seg
| RT_exhausted r seg err :
    attempt_segment url start end_ seg -> r + 1 > maxRetries ->
    RetryTrace url start end_ r
      (seg ++ [EvPrint (MsgPartFailed start end_ maxRetries err)])
| RT_retry r seg rest :
    attempt_segment url start end_ seg -> r + 1 <= maxRetries ->
    RetryTrace url start end_ (r + 1) rest ->
    RetryTrace url start end_ r
      (seg ++ EvPrint (MsgRetrying start end_ (r + 1))
           :: EvSleep retryBackoff :: rest).

(** The world with more calls logged. *)
Definition logged (w : World) (evs : list Event) : World :=
  mkWorld (fs w) (bar w) (log w ++ evs).

(* ===================================================================== *)
(** ** Scenarios *)
(* ===================================================================== *)

Definition no_files : FS := fun _ => None.

Definition w0 : World := mkWorld no_files 0 [].

(** HEAD answer of a server that advertises ranges. *)
Definition head_ranges (length : string) : Response :=
  mkResponse 200 [("Content-Length", length); ("Accept-Ranges", "bytes")] 0 [].

(** A server that answers a chunk request with 206 and [body] in one
    read, and one that answers with a bare status. *)
Definition pe_serve (body : list byte) : PartEnv :=
  mkPartEnv (fun _ _ => inr (mkResponse 206 [] (len body) [(body, Some EOF)]))
            None None (fun _ => None).

Definition pe_status (code : Z) : PartEnv :=
  mkPartEnv (fun _ _ => inr (mkResponse code [] 0 [])) None None (fun _ => None).

Definition env_base (head : Response) (test : Response)
    (parts : nat -> nat -> PartEnv) : Env :=
  mkEnv (fun _ => None)
        (fun _ => inr head)
        (fun _ => inl (TransportError "connection refused"))
        (fun _ _ => inr test)
        (fun _ => None) (fun _ => None) (fun _ => None)
        parts.

(** Ten bytes behind a range-capable server; two workers; the second
    chunk is answered 503 every time. *)
Definition env_second_chunk_down : Env :=
  env_base (head_ranges "10") (mkResponse 206 [] 2 [])
    (fun i _ => match i with
                | O => pe_serve [x61; x62; x63; x64; x65]
                | _ => pe_status 503
                end).



(** Ten bytes; the test request is answered 206 with a Content-Range that
    is not the one asked for. *)
Definition env_wrong_content_range : Env :=
  env_base (head_ranges "10")
    (mkResponse 206 [("Content-Range", "bytes 7-9/3")] 3 [])
    (fun _ _ => pe_serve [x61; x62; x63; x64; x65; x66; x67; x68; x69; x6a]).

(** The test request fails in transport. *)
Definition env_test_request_lost : Env :=
  mkEnv (fun _ => None)
        (fun _ => inr (head_ranges "10"))
        (fun _ => inr (mkResponse 200 [] 10 []))
        (fun _ _ => inl (TransportError "connection reset"))
        (fun _ => None) (fun _ => None) (fun _ => None)
        (fun _ _ => pe_status 503).


(** The metadata request is answered 404. *)
Definition env_not_found : Env :=
  mkEnv (fun _ => None)
        (fun _ => inr (mkResponse 404 [] 0 []))
        (fun _ => inl (TransportError "unused"))
        (fun _ _ => inl (TransportError "unused"))
        (fun _ => None) (fun _ => None) (fun _ => None)
        (fun _ _ => pe_status 503).

(** A chunk answer cut short: three bytes, then EOF. *)
Definition pe_truncated : PartEnv := pe_serve [x61; x62; x63].

(** A destination pre-sized to ten zero bytes. *)
Definition w_presized : World :=
  mkWorld (fs_set no_files "out" (repeat zero 10)) 0 [].

(** A chunk that fails twice and then is served. *)
Definition pe_flaky (k : nat) : PartEnv :=
  match k with
  | O | S O => pe_status 503
  | _ => pe_serve [x61; x62; x63]
  end.

(* ===================================================================== *)
(** ** Servers and schedules for the ranged transfer *)
(* ===================================================================== *)

(** The bytes [start .. end_] of a resource. *)
Definition slice (data : list byte) (start end_ : Z) : list byte :=
  firstn (Z.to_nat (end_ - start + 1)) (skipn (Z.to_nat start) data).

(** The request of a chunk is turned down before anything is written:
    [client.Do] fails, or the status is not 206. *)
Definition refused (pe : PartEnv) (url range : string) : Prop :=
  match pe_Do pe url range with
  | inl _ => True
  | inr resp => StatusCode resp <> StatusPartialContent
  end.

(** The request of the chunk [[start, end_]] is answered 206 with exactly
    the bytes of that range, the body ends in [io.EOF], and the file calls
    of the fetch go through. *)
Definition served (pe : PartEnv) (url : string) (data : list byte)
    (start end_ : Z) : Prop :=
  exists resp,
    pe_Do pe url (rangeHeader start end_) = inr resp /\
    StatusCode resp = StatusPartialContent /\
    ends_in_EOF (Body resp) = true /\
    delivered (Body resp) = slice data start end_ /\
    pe_OpenFile pe = None /\
    pe_Seek pe = None /\
    (forall k, pe_Write pe k = None).

(** The chunk is refused [k] times, [k <= maxRetries], and then served. *)
Definition recovers (pe : nat -> PartEnv) (url : string) (data : list byte)
    (start end_ : Z) (k : nat) : Prop :=
  Z.of_nat k <= maxRetries /\
  (forall j, (j < k)%nat -> refused (pe j) url (rangeHeader start end_)) /\
  served (pe k) url data start end_.

(** The chunk is refused at each of its [maxRetries + 1] attempts. *)
Definition exhausted (pe : nat -> PartEnv) (url : string)
    (start end_ : Z) : Prop :=
  forall j, Z.of_nat j <= maxRetries ->
    refused (pe j) url (rangeHeader start end_).

(** The goroutines of the plan run to completion one after the other in
    the order [order] (indices into the plan); [runTasks] is the case of
    the launch order. *)
Fixpoint runTasksIn (env : Env) (url output : string) (plan : list (Z * Z))
    (order : list nat) : M unit :=
  match order with
  | [] => ret tt
  | i :: rest =>
      match nth_error plan i with
      | Some (start, end_) =>
          (chunkTask env (part_env env i) url output start end_ ;;
           runTasksIn env url output plan rest)%go
      | None => runTasksIn env url output plan rest
      end
  end.

(** A resource behind a range-capable server that refuses the request of
    chunk [i] [refusals i] times with a 503 and then serves it. *)
Definition env_serving (data : list byte) (workers : Z)
    (refusals : nat -> nat) : Env :=
  env_base (head_ranges (itoa (len data))) (mkResponse 206 [] 2 [])
    (fun i k =>
       if (k <? refusals i)%nat then pe_status 503
       else match nth_error (chunkPlan (len data) workers) i with
            | Some (s, e) => pe_serve (slice data s e)
            | None => pe_status 416
            end).

Definition ten_bytes : list byte :=
  [x61; x62; x63; x64; x65; x66; x67; x68; x69; x6a].

(** Two bytes behind a range-capable server that serves every chunk at
    once, for the plan of [workers] ranges. *)
Definition two_bytes : list byte := [x61; x62].

Definition env_two_bytes (workers : Z) : Env :=
  env_serving two_bytes workers (fun _ => 0%nat).

(** Chunk 1 is refused twice before it is served; chunk 1 is refused at
    every attempt. *)
Definition flaky_second (i : nat) : nat :=
  match i with 1%nat => 2%nat | _ => 0%nat end.

Definition dead_second (i : nat) : nat :=
  match i with 1%nat => 4%nat | _ => 0%nat end.

Definition all_but_second (i : nat) : bool := negb (Nat.eqb i 1).

(** Five bytes of which [pe_flaky] serves the range 2-4. *)
Definition five_bytes : list byte := [x00; x00; x61; x62; x63].


(* ===================================================================== *)
(** ** The goroutines of downloadFile, call by call (main.go:157-181, 187-235) *)
(* ===================================================================== *)

(** A goroutine between two calls that leave the program: it has ended,
    or it is about to make a call.  The call changes the world ([act]);
    how the goroutine goes on after it ([next]) is decided by what the
    call returns, which is read off the world the call is made in. *)
Inductive Proc : Type :=
| Halt
| Call (act : World -> World) (next : World -> Proc).

(** One library call [m], then [k] on what it returns. *)
Definition perform {A} (m : M A) (k : error + A -> Proc) : Proc :=
  Call (fun w => snd (m w)) (fun w => k (fst (m w))).

(** The read loop of main.go:218-233, one call at a time; [return_]
    receives what [downloadPart] returns. *)
Fixpoint copySteps (werr : nat -> option error) (path : string)
    (k : nat) (off : Z) (reads : list ReadResult)
    (return_ : option error -> Proc) : Proc :=
  match reads with
  | [] => return_ None
  | (buf, err) :: rest =>
      let n := len buf in
      let after k' :=
        match err with
        | Some e => if is_EOF e then return_ None else return_ (Some e)
        | None => copySteps werr path k' (off + n) rest return_
        end in
      if 0 <? n
      then perform (Write (werr k) path off buf) (fun r =>
             match r with
             | inl e => return_ (Some e)
             | inr _ => perform (barAdd n) (fun _ => after (S k))
             end)
      else after k
  end.

(** [downloadPart] (main.go:187-235), one call at a time. *)
Definition partSteps (env : Env) (pe : PartEnv) (url output : string)
    (start end_ : Z) (return_ : option error -> Proc) : Proc :=
  perform (NewRequest env "GET" url) (fun r =>
    match r with
    | inl e => return_ (Some e)
    | inr _ =>
        let rangeHeader := rangeHeader start end_ in
        perform (emit (EvDo url rangeHeader) ;; lift (pe_Do pe url rangeHeader)) (fun r =>
          match r with
          | inl e => return_ (Some e)
          | inr resp =>
              if negb (StatusCode resp =? StatusPartialContent)
              then return_ (Some (NoPartialContent (StatusCode resp)))
              else
                perform (OpenFile pe output) (fun r =>
                  match r with
                  | inl e => return_ (Some e)
                  | inr _ =>
                      perform (Seek pe output start) (fun r =>
                        match r with
                        | inl e => return_ (Some e)
                        | inr _ =>
                            copySteps (pe_Write pe) output 0 start (Body resp) return_
                        end)
                  end)
          end)
    end).

(** The [for] loop of the goroutine, entered with the local [retries] at
    the given value; [fuel] bounds the iterations, and [budget retries]
    of it is never used up. *)
Fixpoint retrySteps (fuel : nat) (env : Env) (pe : nat -> PartEnv)
    (url output : string) (start end_ : Z) (retries : Z) : Proc :=
  match fuel with
  | O => Halt
  | S fuel' =>
      partSteps env (pe (Z.to_nat retries)) url output start end_ (fun err =>
        match err with
        | None => Halt
        | Some e =>
            if retries + 1 >? maxRetries
            then perform (print (MsgPartFailed start end_ maxRetries e)) (fun _ => Halt)
            else
              perform (print (MsgRetrying start end_ (retries + 1))) (fun _ =>
              perform (sleep retryBackoff) (fun _ =>
                retrySteps fuel' env pe url output start end_ (retries + 1)))
        end)
  end.

(** [go func(start, end int) { retries := 0; for { ... } }(start, end)]. *)
Definition goroutine (env : Env) (pe : nat -> PartEnv) (url output : string)
    (start end_ : Z) : Proc :=
  retrySteps (budget 0) env pe url output start end_ 0.

(** The goroutines the loop of main.go:157-181 launches, chunk [i] first. *)
Fixpoint launch (env : Env) (url output : string) (i : nat)
    (plan : list (Z * Z)) : list Proc :=
  match plan with
  | [] => []
  | (start, end_) :: rest =>
      goroutine env (part_env env i) url output start end_
        :: launch env url output (S i) rest
  end.

(** A goroutine run on its own, to its end. *)
Fixpoint runAlone (p : Proc) (w : World) : World :=
  match p with
  | Halt => w
  | Call act next => runAlone (next w) (act w)
  end.

(** The goroutines run together: at each moment any one of them that has
    not ended makes its next call; [wg.Wait()] returns once all of them
    have ended. *)
Inductive Interleaving : list Proc -> World -> World -> Prop :=
| IL_wait ps w :
    Forall (fun p => p = Halt) ps -> Interleaving ps w w
| IL_step ps1 act next ps2 w w2 :
    Interleaving (ps1 ++ next w :: ps2) (act w) w2 ->
    Interleaving (ps1 ++ Call act next :: ps2) w w2.

(** From [p] on a goroutine puts the bytes [target] at offset [start] of
    the destination, piece by piece and in order, and touches nothing
    else in the files; [done] counts the bytes already written. *)
Inductive Fills (output : string) (start : Z) (target : list byte) :
    nat -> Proc -> Prop :=
| Fills_halt : Fills output start target (List.length target) Halt
| Fills_call done act next (done' : World -> nat) :
    (forall w c,
       fs w output = Some c -> 0 <= start -> start + len target <= len c ->
       (done <= done' w <= List.length target)%nat /\
       fs (act w) output =
         Some (write_at c (start + Z.of_nat done)
                 (firstn (done' w - done) (skipn done target))) /\
       (forall p, p <> output -> fs (act w) p = fs w p)) ->
    (forall w c,
       fs w output = Some c -> 0 <= start -> start + len target <= len c ->
       Fills output start target (done' w) (next w)) ->
    Fills output start target done (Call act next).

(* ===================================================================== *)
(** ** The command line (main.go:27-66) *)
(* ===================================================================== *)

(** [strings.Split(s, sep)] for a separator of one byte: the pieces of [s]
    between the separators, [n + 1] of them for [n] separators. *)
Fixpoint Split (s : string) (sep : ascii) : list string :=
  match s with
  | EmptyString => [""]
  | String c rest =>
      if Ascii.eqb c sep then "" :: Split rest sep
      else match Split rest sep with
           | p :: ps => String c p :: ps
           | [] => [String c ""]
           end
  end.

(** [strings.Join(parts, sep)], to state what [Split] keeps. *)
Fixpoint Join (parts : list string) (sep : ascii) : string :=
  match parts with
  | [] => ""
  | [p] => p
  | p :: ps => (p ++ String sep (Join ps sep))%string
  end.

Fixpoint contains (c : ascii) (s : string) : bool :=
  match s with
  | EmptyString => false
  | String c' rest => Ascii.eqb c' c || contains c rest
  end.

(** main.go:52-53: [urlParts := strings.Split(url, "/")] and
    [urlParts[len(urlParts)-1]]. *)
Definition defaultFileName (url : string) : string :=
  let urlParts := Split url "/" in
  last urlParts "".

(** The lines of the command line handling. *)
Inductive CliMsg : Type :=
| MsgUsage                          (* "Usage: sdm download <url>" *)
| MsgUsageDownload                  (* "Usage: sdm download <url> [--output file] [--worker n]" *)
| MsgUnknownCommand (cmd : string). (* "Unknown command: %s", "Available commands: download" *)

(** The two library calls of [downloadCmd] that are taken as given:
    [fs.Parse] of the flag set with [--output] (default: the file name of
    the URL) and [--worker] (default 0), which with [flag.ExitOnError]
    either ends the process with a status or yields the two values; and
    [filepath.Clean]. *)
Record Cli : Type := mkCli {
  flag_Parse : string -> list string -> Z + (string * Z);
  filepath_Clean : string -> string
}.

(** [downloadCmd] from its first line (main.go:45-66); from the call of
    [downloadFile] on it is [downloadCmd] above.  The result is the exit
    status, the lines printed here and the world. *)
Definition downloadCmdArgs (cli : Cli) (env : Env) (args : list string)
    (w : World) : Z * list CliMsg * World :=
  match args with
  | [] => (1, [MsgUsageDownload], w)
  | url :: rest =>
      let defaultFileName := defaultFileName url in
      match flag_Parse cli defaultFileName rest with
      | inl status => (status, [], w)
      | inr (output, workersFlag) =>
          let output :=
            if String.eqb output "" then output
            else filepath_Clean cli (output ++ "\" ++ defaultFileName)%string in
          let (status, w') := downloadCmd env url output workersFlag w in
          (status, [], w')
      end
  end.

(** [main] (main.go:27-43) on the argument vector [os.Args]. *)
Definition main (cli : Cli) (env : Env) (os_Args : list string)
    (w : World) : Z * list CliMsg * World :=
  if (List.length os_Args <? 3)%nat then (1, [MsgUsage], w)
  else
    let cmd := nth 1 os_Args "" in
    if String.eqb cmd "download"
    then downloadCmdArgs cli env (skipn 2 os_Args) w
    else (1, [MsgUnknownCommand cmd], w).

(** A command line with no flags: both defaults, and a [Clean] that
    leaves the path alone. *)
Definition cli_defaults : Cli :=
  mkCli (fun name _ => inr (name, 0)) (fun p => p).

(* ===================================================================== *)
(** ** The combined probe of a later iteration (src/unnamed/part_002) *)
(* ===================================================================== *)

Module CombinedProbe.

(** What this [downloadFile] returns apart from [nil]: an error of the
    code it shares with main.go, or one of its own two. *)
Inductive Failure : Type :=
| Err (e : error)
| MissingContentRange        (* "missing Content-Range header" *)
| InvalidContentRange.       (* "invalid Content-Range format" *)

Definition wrap (r : (error + unit) * World) : (Failure + unit) * World :=
  match r with
  | (inl e, w) => (inl (Err e), w)
  | (inr u, w) => (inr u, w)
  end.

(** The probe request of part_002:94-104: a GET with [Range: bytes=0-0];
    the answer is read from the same oracle as the test request of
    main.go, by URL and Range. *)
Definition probe (env : Env) (url : string) : M Response :=
  (NewRequest env "GET" url ;;
   emit (EvDo url "bytes=0-0") ;;
   lift (verify_Do env url "bytes=0-0"))%go.

(** [downloadFile] of part_002:91-185.  From [fmt.Printf("File size: ...")]
    on its text is that of main.go:122-184, that is [rangedTransfer]. *)
Definition downloadFile (env : Env) (url output : string)
    (workersOverride : Z) (w : World) : (Failure + unit) * World :=
  match probe env url w with
  | (inl err, w1) => (inl (Err err), w1)
  | (inr resp, w1) =>
      if negb (StatusCode resp =? StatusPartialContent)
      then wrap ((print MsgNoRanges ;; singleDownload env url output)%go w1)
      else
        let contentRange := Header_Get (Header resp) "Content-Range" in
        if String.eqb contentRange "" then (inl MissingContentRange, w1)
        else
          let parts := Split contentRange "/" in
          if negb (List.length parts =? 2)%nat then (inl InvalidContentRange, w1)
          else
            match Atoi (nth 1 parts "") with
            | inl e => (inl (Err (InvalidContentLength e)), w1)
            | inr size => wrap (rangedTransfer env url output size workersOverride w1)
            end
  end.

(** The ways the combined probe ends the transfer with an error. *)
Definition Fails (env : Env) (url : string) : Prop :=
  (exists e, http_NewRequest env url = Some e) \/
  (exists e, verify_Do env url "bytes=0-0" = inl e) \/
  (exists resp,
     verify_Do env url "bytes=0-0" = inr resp /\
     StatusCode resp = StatusPartialContent /\
     let contentRange := Header_Get (Header resp) "Content-Range" in
     contentRange = "" \/
     List.length (Split contentRange "/") <> 2%nat \/
     exists e, Atoi (nth 1 (Split contentRange "/") "") = inl e).

End CombinedProbe.

(** The probe [bytes=0-0] is answered 206 with [Content-Range: bytes 0-0/10]. *)
Definition env_combined : Env :=
  env_base (mkResponse 404 [] 0 [])
    (mkResponse 206 [("Content-Range", "bytes 0-0/10")] 1 [])
    (fun _ _ => pe_serve ten_bytes).

(** The probe is answered 206 with a total that is not known. *)
Definition env_unknown_total : Env :=
  env_base (mkResponse 404 [] 0 [])
    (mkResponse 206 [("Content-Range", "bytes 0-0/*")] 1 [])
    (fun _ _ => pe_serve ten_bytes).

(* ===================================================================== *)
(** ** The first iteration (src/unnamed/part_001, lines 1-187) *)
(* ===================================================================== *)

Module FirstIteration.

(** part_001:17: [numWorkers = 8]. *)
Definition numWorkers : Z := 8.

(** [fs.Parse] of the flag set of this iteration, which has [--output]
    only: it ends the process with a status or yields the output path. *)
Definition Parse : Type := string -> list string -> Z + string.

(** [downloadFile] of part_001:60-137: no check for range support and no
    fallback. *)
Definition downloadFile (env : Env) (url output : string) (workers : Z)
    : M unit :=
  (emit (EvHead url) ;;
   resp <- lift (http_Head env url) ;;
   if negb (StatusCode resp =? StatusOK)
   then throw (StatusError (StatusCode resp))
   else
     match Atoi (Header_Get (Header resp) "Content-Length") with
     | inl e => throw (InvalidContentLength e)
     | inr size =>
         print (MsgFileSize size) ;;
         Create env output ;;
         Truncate env output size ;;
         barNew size ;;
         runTasks env url output 0 (chunkPlan size workers) ;;
         ret tt
     end)%go.

(** [main] of part_001:27-58, the same text as [main] of part_003:27-58
    apart from the [downloadFile] it calls.  [os.Exit(1)] is called for
    a short argument vector only. *)
Definition main (parse : Parse) (env : Env) (os_Args : list string)
    (w : World) : Z * list CliMsg * World :=
  if (List.length os_Args <? 3)%nat then (1, [MsgUsage], w)
  else
    let cmd := nth 1 os_Args "" in
    if String.eqb cmd "download"
    then
      let url := nth 2 os_Args "" in
      let splitText := Split url "/" in
      let fileName := last splitText "" in
      match parse fileName (skipn 3 os_Args) with
      | inl status => (status, [], w)
      | inr output =>
          match downloadFile env url output numWorkers w with
          | (inl err, w1) => (0, [], snd (print (MsgDownloadFailed err) w1))
          | (inr _, w1) => (0, [], snd (print MsgCompleted w1))
          end
      end
    else (0, [MsgUnknownCommand cmd], w).

End FirstIteration.

(** Three bytes behind a server that knows no ranges: every ranged
    request is answered 200. *)
Definition env_ignores_range : Env :=
  mkEnv (fun _ => None)
        (fun _ => inr (mkResponse 200 [("Content-Length", "3")] 3 []))
        (fun _ => inr (mkResponse 200 [] 3 [([x61; x62; x63], Some EOF)]))
        (fun _ _ => inr (mkResponse 200 [] 3 [([x61; x62; x63], Some EOF)]))
        (fun _ => None) (fun _ => None) (fun _ => None)
        (fun _ _ => pe_status 200).

(* ===================================================================== *)
(** * Properties *)
(* ===================================================================== *)

(** ** Go's [int]: results that fit are not wrapped *)

Lemma wrap_id (z : Z) : GoInt.in_range z -> GoInt.wrap z = z.
Proof.
  unfold GoInt.in_range, GoInt.wrap, GoInt.min_int, GoInt.max_int. intros H.
  rewrite Z.mod_small; lia.
Qed.

Lemma in_rangeb_spec (z : Z) : GoInt.in_rangeb z = true <-> GoInt.in_range z.
Proof.
  unfold GoInt.in_rangeb, GoInt.in_range.
  rewrite andb_true_iff, !Z.leb_le. tauto.
Qed.

(** Split a conjunction into its parts, leaving the quantifiers alone. *)
Ltac splits := repeat match goal with |- _ /\ _ => split end.

Ltac fits :=
  unfold GoInt.in_range, GoInt.min_int, GoInt.max_int in *; lia.

(** ** The worker heuristic *)

Lemma calculateWorkers_cases (size : Z) :
  (size < 5 * MB /\ calculateWorkers size = 1) \/
  (5 * MB <= size < 100 * MB /\ calculateWorkers size = 4) \/
  (100 * MB <= size < 1 * GB /\ calculateWorkers size = 8) \/
  (1 * GB <= size /\ calculateWorkers size = 16).
Proof.
  unfold calculateWorkers.
  destruct (Z.ltb_spec size (5 * MB)); [tauto |].
  destruct (Z.ltb_spec size (100 * MB)); [tauto |].
  destruct (Z.ltb_spec size (1 * GB)); tauto.
Qed.

Lemma calculateWorkers_pos (size : Z) : 1 <= calculateWorkers size <= 16.
Proof.
  destruct (calculateWorkers_cases size) as [H | [H | [H | H]]]; lia.
Qed.

Lemma resolveWorkers_pos (size n : Z) :
  n <= GoInt.max_int -> 1 <= resolveWorkers size n <= GoInt.max_int.
Proof.
  intros Hn. unfold resolveWorkers.
  pose proof (calculateWorkers_pos size).
  destruct (Z.gtb_spec n 0); fits.
Qed.

(** C5.  With no explicit worker count the heuristic decides, and it is
    the documented step function: 1 worker below 5 MB, 4 from 5 MB to
    below 100 MB, 8 from 100 MB to below 1 GB, 16 from 1 GB on.  It never
    decreases when the size grows, and at the first boundary 5 MB gives 4
    workers while 5 MB - 1 byte gives 1. *)
Theorem calculateWorkers_thresholds :
  (forall size, resolveWorkers size 0 = calculateWorkers size) /\
  (forall size, size < 5 * MB -> calculateWorkers size = 1) /\
  (forall size, 5 * MB <= size < 100 * MB -> calculateWorkers size = 4) /\
  (forall size, 100 * MB <= size < 1 * GB -> calculateWorkers size = 8) /\
  (forall size, 1 * GB <= size -> calculateWorkers size = 16) /\
  (forall s1 s2, s1 <= s2 -> calculateWorkers s1 <= calculateWorkers s2) /\
  calculateWorkers (5 * MB) = 4 /\
  calculateWorkers (5 * MB - 1) = 1.
Proof.
  assert (HMB : MB = 1048576) by reflexivity.
  assert (HGB : GB = 1073741824) by reflexivity.
  repeat split; try reflexivity.
  - intros size H. destruct (calculateWorkers_cases size) as [C | [C | [C | C]]]; lia.
  - intros size H. destruct (calculateWorkers_cases size) as [C | [C | [C | C]]]; lia.
  - intros size H. destruct (calculateWorkers_cases size) as [C | [C | [C | C]]]; lia.
  - intros size H. destruct (calculateWorkers_cases size) as [C | [C | [C | C]]]; lia.
  - intros s1 s2 H.
    destruct (calculateWorkers_cases s1) as [C | [C | [C | C]]];
      destruct (calculateWorkers_cases s2) as [D | [D | [D | D]]]; lia.
Qed.

Lemma calculateWorkers_thresholds_witness :
  5 * MB <= 7 * MB < 100 * MB /\ calculateWorkers (7 * MB) = 4.
Proof.
  assert (H : 5 * MB <= 7 * MB < 100 * MB) by (vm_compute; split; congruence).
  split; [exact H |].
  exact (proj1 (proj2 (proj2 calculateWorkers_thresholds)) (7 * MB) H).
Defined.

(** ** The chunk plan *)

Lemma chunkPlan_length (size workers : Z) :
  List.length (chunkPlan size workers) = Z.to_nat workers.
Proof. unfold chunkPlan. now rewrite length_map, length_seq. Qed.

Lemma chunkPlan_nth_error (size workers : Z) (i : nat) (r : Z * Z) :
  nth_error (chunkPlan size workers) i = Some r <->
  (i < Z.to_nat workers)%nat /\
  r = partRange size workers (GoInt.quo size workers) (Z.of_nat i).
Proof.
  unfold chunkPlan. rewrite nth_error_map.
  destruct (Nat.lt_ge_cases i (Z.to_nat workers)) as [Hlt | Hge].
  - rewrite nth_error_seq.
    destruct (Nat.ltb_spec i (Z.to_nat workers)); [| lia]. simpl.
    split; [intros [= <-]; auto | intros [_ ->]; reflexivity].
  - rewrite (proj2 (nth_error_None _ _)) by (rewrite length_seq; lia).
    simpl. split; [discriminate | lia].
Qed.

(** A size and a worker count as the ranged path has them. *)
Section Plan.

Variables size workers : Z.
Hypothesis Hsize : 0 <= size <= GoInt.max_int.
Hypothesis Hworkers : 1 <= workers <= GoInt.max_int.

Let q := size / workers.
Let plan := chunkPlan size workers.

Lemma q_bounds : 0 <= q /\ workers * q <= size /\ size < workers * (q + 1).
Proof.
  unfold q. pose proof (Z.div_mod size workers ltac:(lia)).
  pose proof (Z.mod_pos_bound size workers ltac:(lia)).
  assert (0 <= size / workers) by (apply Z.div_pos; lia).
  nia.
Qed.

(** On a size and a worker count of the ranged path, Go's truncated
    division is the floor and nothing wraps. *)
Lemma quo_exact : GoInt.quo size workers = q.
Proof.
  unfold GoInt.quo. rewrite Z.quot_div_nonneg by lia.
  apply wrap_id. pose proof q_bounds. fold q. fits.
Qed.

Lemma partRange_exact (i : Z) :
  0 <= i < workers ->
  partRange size workers q i =
    (i * q, if i =? workers - 1 then size - 1 else (i + 1) * q - 1).
Proof.
  intros Hi. pose proof q_bounds as (Hq0 & Hq1 & Hq2).
  assert (Hiq : 0 <= i * q <= size) by nia.
  assert (Hiq' : i * q + q <= size) by nia.
  unfold partRange, GoInt.mul, GoInt.add, GoInt.sub.
  rewrite (wrap_id (i * q)) by fits.
  rewrite (wrap_id (i * q + q)) by fits.
  rewrite (wrap_id (i * q + q - 1)) by fits.
  rewrite (wrap_id (workers - 1)) by fits.
  rewrite (wrap_id (size - 1)) by fits.
  f_equal. destruct (i =? workers - 1); lia.
Qed.

Lemma plan_nth (i : nat) (r : Z * Z) :
  nth_error plan i = Some r <->
  Z.of_nat i < workers /\
  r = (Z.of_nat i * q,
       if Z.of_nat i =? workers - 1 then size - 1
       else (Z.of_nat i + 1) * q - 1).
Proof.
  unfold plan. rewrite chunkPlan_nth_error, quo_exact.
  split; intros [Hi ->]; (split; [lia |]).
  - apply partRange_exact; lia.
  - symmetry. apply partRange_exact; lia.
Qed.

(** The chunk that holds a byte is determined by the byte. *)
Lemma plan_covers_inv (i : nat) (r : Z * Z) (b : Z) :
  nth_error plan i = Some r -> covers r b ->
  0 <= b <= size - 1 /\
  Z.of_nat i =
    (if (q =? 0) || (workers - 1 <=? b / q) then workers - 1 else b / q).
Proof.
  intros Hn Hc. apply plan_nth in Hn as [Hi ->].
  pose proof q_bounds as (Hq0 & Hq1 & Hq2).
  unfold covers in Hc. simpl in Hc.
  destruct (Z.eqb_spec (Z.of_nat i) (workers - 1)) as [He | Hne].
  - split; [nia |]. rewrite He in *.
    destruct (Z.eqb_spec q 0); [reflexivity |]. simpl.
    destruct (Z.leb_spec (workers - 1) (b / q)); [reflexivity |].
    exfalso. assert (workers - 1 <= b / q); [| lia].
    apply Z.div_le_lower_bound; lia.
  - assert (0 < q) by nia.
    split; [nia |].
    assert (Hd : b / q = Z.of_nat i).
    { symmetry. apply Z.div_unique with (r := b - Z.of_nat i * q); lia. }
    rewrite Hd.
    destruct (Z.eqb_spec q 0); [lia |]. simpl.
    destruct (Z.leb_spec (workers - 1) (Z.of_nat i)); lia.
Qed.

Lemma plan_covers (b : Z) :
  0 <= b <= size - 1 -> exists i r, nth_error plan i = Some r /\ covers r b.
Proof.
  intros Hb. pose proof q_bounds as (Hq0 & Hq1 & Hq2).
  set (i := if (q =? 0) || (workers - 1 <=? b / q)
            then workers - 1 else b / q).
  assert (Hi : 0 <= i < workers).
  { unfold i. destruct (Z.eqb_spec q 0); simpl; [lia |].
    destruct (Z.leb_spec (workers - 1) (b / q)); [lia |].
    split; [apply Z.div_pos; lia | lia]. }
  exists (Z.to_nat i),
    (i * q, if i =? workers - 1 then size - 1 else (i + 1) * q - 1).
  split.
  - apply plan_nth. rewrite Z2Nat.id by lia. split; [lia | reflexivity].
  - unfold covers; simpl. unfold i in *.
    destruct (Z.eqb_spec q 0) as [Hq | Hq]; simpl in *.
    + rewrite Z.eqb_refl. nia.
    + destruct (Z.leb_spec (workers - 1) (b / q)) as [Hle | Hlt].
      * rewrite Z.eqb_refl. split; [| lia].
        apply Z.le_trans with (b / q * q); [nia |].
        pose proof (Z.mul_div_le b q ltac:(lia)). lia.
      * destruct (Z.eqb_spec (b / q) (workers - 1)); [lia |].
        pose proof (Z.div_mod b q ltac:(lia)).
        pose proof (Z.mod_pos_bound b q ltac:(lia)). nia.
Qed.

Lemma plan_adjacent (i : nat) (ri rj : Z * Z) :
  nth_error plan i = Some ri -> nth_error plan (S i) = Some rj ->
  fst rj = snd ri + 1.
Proof.
  intros Hi Hj. apply plan_nth in Hi as [Hi ->]. apply plan_nth in Hj as [Hj ->].
  cbn [fst snd]. rewrite Nat2Z.inj_succ in *. unfold Z.succ in *.
  destruct (Z.eqb_spec (Z.of_nat i) (workers - 1)); lia.
Qed.

End Plan.

(** C2, as stated, fails on the count: two bytes and four workers give
    four ranges (three of them empty), not [min 4 2 = 2]. *)
Lemma chunkPlan_count_is_not_min :
  0 <= 2 /\ 1 <= 4 /\ 2 < 4 /\
  chunkPlan 2 4 = [(0, -1); (0, -1); (0, -1); (0, 1)] /\
  Z.of_nat (List.length (chunkPlan 2 4)) <> Z.min 4 2.
Proof. repeat split; try lia; vm_compute; congruence. Qed.

(** C2 (amended).  For every size >= 0 and every worker count >= 1 (both
    in the range of Go's [int]) the plan has exactly [workers] ranges,
    also when the size is smaller; range [i] is
    [[i*q, (i+1)*q - 1]] with [q = size / workers] for [i < workers - 1]
    and the last one ends at [size - 1]; a byte offset lies in some range
    of the plan exactly when it is in [[0, size - 1]] (union, no gap), in
    at most one (no overlap), and each range starts right after the end
    of the one before it. *)
Theorem chunkPlan_partition (size workers : Z) :
  0 <= size <= GoInt.max_int ->
  1 <= workers <= GoInt.max_int ->
  let plan := chunkPlan size workers in
  let q := size / workers in
  Z.of_nat (List.length plan) = workers /\
  (forall i, 0 <= i < workers ->
     nth_error plan (Z.to_nat i) =
       Some (i * q, if i =? workers - 1 then size - 1 else (i + 1) * q - 1)) /\
  (forall b, 0 <= b <= size - 1 <->
     exists i r, nth_error plan i = Some r /\ covers r b) /\
  (forall i j ri rj b,
     nth_error plan i = Some ri -> nth_error plan j = Some rj ->
     covers ri b -> covers rj b -> i = j) /\
  (forall i ri rj,
     nth_error plan i = Some ri -> nth_error plan (S i) = Some rj ->
     fst rj = snd ri + 1).
Proof.
  intros Hsize Hworkers plan q.
  split; [| split; [| split; [| split]]].
  - unfold plan. rewrite chunkPlan_length. lia.
  - intros i Hi. apply (plan_nth size workers Hsize Hworkers).
    rewrite Z2Nat.id by lia. split; [lia | reflexivity].
  - intros b. split.
    + apply (plan_covers size workers Hsize Hworkers).
    + intros (i & r & Hn & Hc).
      apply (plan_covers_inv size workers Hsize Hworkers i r b Hn Hc).
  - intros i j ri rj b Hi Hj Ci Cj.
    destruct (plan_covers_inv size workers Hsize Hworkers i ri b Hi Ci) as [_ Ei].
    destruct (plan_covers_inv size workers Hsize Hworkers j rj b Hj Cj) as [_ Ej].
    lia.
  - apply (plan_adjacent size workers Hsize Hworkers).
Qed.

Lemma chunkPlan_partition_witness :
  0 <= 10 <= GoInt.max_int /\ 1 <= 3 <= GoInt.max_int /\
  Z.of_nat (List.length (chunkPlan 10 3)) = 3.
Proof.
  assert (H1 : 0 <= 10 <= GoInt.max_int) by (unfold GoInt.max_int; lia).
  assert (H2 : 1 <= 3 <= GoInt.max_int) by (unfold GoInt.max_int; lia).
  split; [exact H1 | split; [exact H2 |]].
  exact (proj1 (chunkPlan_partition 10 3 H1 H2)).
Defined.

(** ** Unfolding the library calls *)

Ltac munfold :=
  unfold NewRequest, Create, Truncate, OpenFile, Seek, Write, barAdd, barNew,
    print, sleep, emit, set_file, set_bar, get_world, propagate, lift, capture,
    bind, ret, throw in *.

(** ** File contents *)

Lemma write_at_inside (c : list byte) (off : Z) (data : list byte) :
  0 <= off <= len c ->
  write_at c off data =
    firstn (Z.to_nat off) c ++ data ++ skipn (Z.to_nat off + List.length data) c.
Proof.
  intros H. unfold write_at, len in *.
  replace (Z.to_nat off - List.length c)%nat with 0%nat by lia. reflexivity.
Qed.

Lemma write_at_nil (c : list byte) (off : Z) :
  0 <= off <= len c -> write_at c off [] = c.
Proof.
  intros H. rewrite write_at_inside by exact H. simpl.
  rewrite Nat.add_0_r. apply firstn_skipn.
Qed.

Lemma write_at_length (c : list byte) (off : Z) (data : list byte) :
  0 <= off <= len c -> off + len data <= len (write_at c off data).
Proof.
  intros H. rewrite write_at_inside by exact H. unfold len in *.
  rewrite !length_app, firstn_length_le by lia. lia.
Qed.

Lemma write_at_write_at (c : list byte) (off : Z) (d1 d2 : list byte) :
  0 <= off <= len c ->
  write_at (write_at c off d1) (off + len d1) d2 = write_at c off (d1 ++ d2).
Proof.
  intros H. pose proof (write_at_length c off d1 H) as Hl.
  rewrite (write_at_inside (write_at c off d1)) by (unfold len in *; lia).
  rewrite !(write_at_inside c) by exact H.
  unfold len in *.
  replace (Z.to_nat (off + Z.of_nat (List.length d1)))
    with (Z.to_nat off + List.length d1)%nat by lia.
  set (n := Z.to_nat off).
  assert (Hn : List.length (firstn n c) = n) by (apply firstn_length_le; lia).
  rewrite (app_assoc (firstn n c) d1).
  rewrite firstn_app.
  rewrite firstn_all2 by (rewrite length_app; lia).
  replace (n + List.length d1 - List.length (firstn n c ++ d1))%nat with 0%nat
    by (rewrite length_app; lia).
  rewrite firstn_O, app_nil_r.
  rewrite skipn_app.
  rewrite (skipn_all2 (firstn n c ++ d1)) by (rewrite length_app; lia).
  rewrite length_app, Hn. simpl.
  replace (n + List.length d1 + List.length d2 - (n + List.length d1))%nat
    with (List.length d2) by lia.
  rewrite skipn_skipn, length_app.
  replace (List.length d2 + (n + List.length d1))%nat
    with (n + (List.length d1 + List.length d2))%nat by lia.
  now rewrite <- !app_assoc.
Qed.

Lemma write_at_beyond (c : list byte) (off : Z) (data : list byte) (i : nat) :
  0 <= off <= len c ->
  off + len data <= Z.of_nat i ->
  nth_error (write_at c off data) i = nth_error c i.
Proof.
  intros H Hi. rewrite write_at_inside by exact H. unfold len in *.
  set (n := Z.to_nat off).
  assert (Hn : List.length (firstn n c) = n) by (apply firstn_length_le; lia).
  rewrite app_assoc, nth_error_app2 by (rewrite length_app; lia).
  rewrite length_app, Hn, nth_error_skipn. f_equal. lia.
Qed.


Lemma fs_set_same f path c : fs_set f path c path = Some c.
Proof. unfold fs_set. now rewrite String.eqb_refl. Qed.

Lemma fs_set_other f path c p : p <> path -> fs_set f path c p = f p.
Proof.
  intros H. unfold fs_set. destruct (String.eqb_spec p path); congruence.
Qed.

(** The read loop when no write fails: its result, the file and the bar. *)
Section CopyClean.
Variables (werr : nat -> option error) (path : string).
Hypothesis Hwerr : forall k, werr k = None.

Lemma copyLoop_clean (reads : list ReadResult) :
  forall k off w c,
    fs w path = Some c -> 0 <= off <= len c ->
    let r := copyLoop werr path k off reads w in
    fst r = copy_outcome reads /\
    fs (snd r) path = Some (write_at c off (delivered reads)) /\
    (forall p, p <> path -> fs (snd r) p = fs w p) /\
    bar (snd r) = bar w + len (delivered reads).
Proof.
  unfold copy_outcome.
  induction reads as [| [buf err] rest IH]; intros k off w c Hf Hoff; cbn zeta.
  - simpl. rewrite write_at_nil by exact Hoff. repeat split; auto. unfold len; simpl; lia.
  - cbn [copyLoop first_read_error delivered].
    destruct (Z.ltb_spec 0 (len buf)) as [Hn | Hn].
    + munfold. simpl. rewrite Hwerr. simpl. rewrite Hf. simpl.
      destruct err as [e |].
      * destruct (is_EOF e); simpl; rewrite fs_set_same;
          (split; [reflexivity | split; [reflexivity | split; [| reflexivity]]]);
          intros p Hp; now rewrite fs_set_other.
      * match goal with |- context [copyLoop _ _ _ _ _ ?w1] =>
          destruct (IH (S k) (off + len buf) w1 (write_at c off buf)) as (R1 & R2 & R3 & R4)
        end.
        { simpl. apply fs_set_same. }
        { pose proof (write_at_length c off buf Hoff). unfold len in *. lia. }
        rewrite R1, R2, R4, write_at_write_at by exact Hoff.
        split; [reflexivity | split; [reflexivity | split]].
        -- intros p Hp. rewrite R3 by exact Hp. simpl. now rewrite fs_set_other.
        -- simpl. unfold len. rewrite length_app. lia.
    + assert (buf = []) as ->.
      { destruct buf; [reflexivity |]. unfold len in Hn. simpl in Hn. lia. }
      munfold. simpl. destruct err as [e |].
      * destruct (is_EOF e); simpl; rewrite write_at_nil by exact Hoff;
          repeat split; auto; unfold len; simpl; lia.
      * change (len []) with 0. rewrite Z.add_0_r. apply IH; auto.
Qed.
End CopyClean.

Lemma logged_logged w a b : logged (logged w a) b = logged w (a ++ b).
Proof. unfold logged. simpl. now rewrite app_assoc. Qed.

(** ** Traces of the fetch and of its retry loop *)

(** The read loop logs writes and progress only, and its writes follow
    one another from the offset it is entered with. *)
Section CopyLoop.
Variables (werr : nat -> option error) (path : string) (start : Z).

Lemma copyLoop_log (reads : list ReadResult) :
  forall k off w, exists evs,
    log (snd (copyLoop werr path k off reads w)) = log w ++ evs /\
    forallb copy_event evs = true /\
    positioned start (Some off) evs = true.
Proof.
  induction reads as [| [buf err] rest IH]; intros k off w.
  - exists []. simpl. rewrite app_nil_r. auto.
  - cbn [copyLoop]. destruct (Z.ltb_spec 0 (len buf)) as [Hn | Hn].
    + munfold. simpl. destruct (werr k) as [e |].
      * exists [EvWrite path off buf]. simpl. rewrite Z.eqb_refl. auto.
      * destruct (fs _ path) eqn:Hf; simpl.
        -- destruct err as [e |].
           ++ exists [EvWrite path off buf; EvBarAdd (len buf)].
              destruct (is_EOF e); simpl; rewrite <- app_assoc, Z.eqb_refl; auto.
           ++ match goal with |- context [copyLoop _ _ _ _ _ ?w1] =>
                destruct (IH (S k) (off + len buf) w1) as (evs & Hl & Hq & Hp) end.
              exists (EvWrite path off buf :: EvBarAdd (len buf) :: evs).
              rewrite Hl. simpl. rewrite <- !app_assoc, Z.eqb_refl. auto.
        -- destruct err as [e |].
           ++ exists [EvWrite path off buf; EvBarAdd (len buf)].
              destruct (is_EOF e); simpl; rewrite <- app_assoc, Z.eqb_refl; auto.
           ++ match goal with |- context [copyLoop _ _ _ _ _ ?w1] =>
                destruct (IH (S k) (off + len buf) w1) as (evs & Hl & Hq & Hp) end.
              exists (EvWrite path off buf :: EvBarAdd (len buf) :: evs).
              rewrite Hl. simpl. rewrite <- !app_assoc, Z.eqb_refl. auto.
    + munfold. simpl. destruct err as [e |].
      * exists []. destruct (is_EOF e); simpl; rewrite app_nil_r; auto.
      * assert (len buf = 0) as -> by (unfold len in *; lia).
        rewrite Z.add_0_r. apply IH.
Qed.
End CopyLoop.

Lemma copy_events_attempt (url range : string) (evs : list Event) :
  forallb copy_event evs = true ->
  forallb (attempt_event url range) evs = true.
Proof.
  induction evs as [| e evs IH]; [reflexivity |]. simpl. intros H.
  apply andb_true_iff in H as [He Ht]. rewrite (IH Ht), andb_true_r.
  destruct e; simpl in *; congruence.
Qed.

(** One call of [downloadPart], and the loop around it. *)
Section Retry.
Variables (env : Env) (pe : nat -> PartEnv) (url output : string) (start end_ : Z).

Lemma retryLoop_step (r : Z) (w : World) :
  retryLoop env pe url output start end_ r w =
  match downloadPart env (pe (Z.to_nat r)) url output start end_ w with
  | (inr _, w1) => w1
  | (inl err, w1) =>
      if r + 1 >? maxRetries
      then snd (print (MsgPartFailed start end_ maxRetries err) w1)
      else retryLoop env pe url output start end_ (r + 1)
             (snd ((print (MsgRetrying start end_ (r + 1)) ;; sleep retryBackoff)%go w1))
  end.
Proof.
  simp retryLoop.
  destruct (downloadPart env (pe (Z.to_nat r)) url output start end_ w) as [[err | []] w1];
    simpl; [| reflexivity].
  destruct (Z_gt_le_dec (r + 1) maxRetries) as [Hgt | Hle]; simpl.
  - destruct (Z.gtb_spec (r + 1) maxRetries); [reflexivity | lia].
  - destruct (Z.gtb_spec (r + 1) maxRetries); [lia | reflexivity].
Qed.

Let range := rangeHeader start end_.

Lemma downloadPart_log (pe0 : PartEnv) (w : World) :
  exists tail,
    log (snd (downloadPart env pe0 url output start end_ w)) =
      log w ++ EvNewRequest "GET" url :: tail /\
    forallb (attempt_event url range) tail = true /\
    positioned start None tail = true.
Proof.
  assert (Hdo : attempt_event url range (EvDo url range) = true)
    by (simpl; now rewrite !String.eqb_refl).
  unfold downloadPart. fold range. munfold. simpl.
  destruct (http_NewRequest env url); simpl.
  { exists []. auto. }
  destruct (pe_Do pe0 url range) as [e | resp]; simpl.
  { exists [EvDo url range]. simpl in *. rewrite Hdo, <- app_assoc. auto. }
  destruct (negb (StatusCode resp =? StatusPartialContent)); simpl.
  { exists [EvDo url range]. simpl in *. rewrite Hdo, <- app_assoc. auto. }
  destruct (fs w output); simpl.
  2:{ exists [EvDo url range; EvOpenFile output].
      simpl in *. rewrite Hdo, <- !app_assoc. auto. }
  destruct (pe_OpenFile pe0); simpl.
  { exists [EvDo url range; EvOpenFile output].
    simpl in *. rewrite Hdo, <- !app_assoc. auto. }
  destruct (Z.ltb_spec start 0); simpl.
  { exists [EvDo url range; EvOpenFile output; EvSeek output start].
    simpl in *. rewrite Hdo, Z.eqb_refl, <- !app_assoc. auto. }
  destruct (pe_Seek pe0); simpl.
  { exists [EvDo url range; EvOpenFile output; EvSeek output start].
    simpl in *. rewrite Hdo, Z.eqb_refl, <- !app_assoc. auto. }
  match goal with |- context [copyLoop ?we ?p ?k ?o ?rd ?w1] =>
    destruct (copyLoop_log we p start rd k o w1) as (evs & Hl & Hq0 & Hp) end.
  pose proof (copy_events_attempt url range evs Hq0) as Hq.
  exists (EvDo url range :: EvOpenFile output :: EvSeek output start :: evs).
  rewrite Hl. simpl in *. rewrite Hdo, Z.eqb_refl, Hq, Hp, <- !app_assoc. auto.
Qed.

Lemma retryLoop_trace (n : nat) :
  forall r w, budget r = n ->
  exists evs,
    log (retryLoop env pe url output start end_ r w) = log w ++ evs /\
    RetryTrace url start end_ r evs.
Proof.
  induction n as [n IH] using lt_wf_ind. intros r w Hn.
  rewrite retryLoop_step.
  destruct (downloadPart_log (pe (Z.to_nat r)) w) as (tail & Hl & Hq & Hp).
  assert (Hseg : attempt_segment url start end_ (EvNewRequest "GET" url :: tail))
    by (exists tail; auto).
  destruct (downloadPart env (pe (Z.to_nat r)) url output start end_ w)
    as [[err | []] w1]; simpl in Hl.
  2:{ eexists. split; [exact Hl |]. now apply RT_success. }
  destruct (Z.gtb_spec (r + 1) maxRetries) as [Hgt | Hle].
  - eexists. split; [| apply RT_exhausted with (err := err); [exact Hseg | lia]].
    simpl. rewrite Hl. now rewrite <- app_assoc.
  - match goal with |- context [retryLoop _ _ _ _ _ _ _ ?w2] =>
      destruct (IH (budget (r + 1)) ltac:(unfold budget, maxRetries in *; lia)
                   (r + 1) w2 eq_refl) as (evs & Hl2 & Ht) end.
    eexists. split; [| apply RT_retry; [exact Hseg | exact Hle | exact Ht]].
    rewrite Hl2. simpl. rewrite Hl. rewrite <- !app_assoc. reflexivity.
Qed.
End Retry.

Lemma count_app p l1 l2 : count p (l1 ++ l2) = count p l1 + count p l2.
Proof. unfold count. rewrite filter_app, length_app. lia. Qed.

Lemma count_cons p e l :
  count p (e :: l) = (if p e then 1 else 0) + count p l.
Proof. unfold count. cbn [filter]. destruct (p e); cbn [List.length]; lia. Qed.

(** What the events of a call's tail contribute to the checks. *)
Section RetryFacts.
Variables (url : string) (start end_ : Z).
Let range := rangeHeader start end_.

Lemma attempt_tail_counts tail :
  forallb (attempt_event url range) tail = true ->
  attempts tail = 0 /\ sleeps tail = 0.
Proof.
  unfold attempts, sleeps.
  induction tail as [| e tail IH]; [auto |]. simpl. intros H.
  apply andb_true_iff in H as [He Ht]. destruct (IH Ht) as (A & B).
  rewrite !count_cons, A, B. destruct e; simpl in *; try discriminate; auto.
Qed.

Lemma attempt_tail_In tail e :
  forallb (attempt_event url range) tail = true -> In e tail ->
  attempt_event url range e = true.
Proof. intros H. rewrite forallb_forall in H. apply H. Qed.

Lemma spaced_tail tail rest :
  forallb (attempt_event url range) tail = true ->
  spaced false (tail ++ rest) = spaced false rest.
Proof.
  induction tail as [| e tail IH]; [reflexivity |]. simpl. intros H.
  apply andb_true_iff in H as [He Ht].
  destruct e; simpl in *; try discriminate; auto.
Qed.

Lemma positioned_app l1 l2 :
  (forall c, positioned start c l2 = true) ->
  forall c, positioned start c l1 = true -> positioned start c (l1 ++ l2) = true.
Proof.
  intros H2. induction l1 as [| e l1 IH]; intros c H1; simpl; [apply H2 |].
  destruct e; simpl in *; auto.
  - apply andb_true_iff in H1 as [-> H1]. simpl. auto.
  - destruct c; [| discriminate].
    apply andb_true_iff in H1 as [-> H1]. simpl. auto.
Qed.
End RetryFacts.

(** What a trace of the shape [RetryTrace] guarantees. *)
Section TraceFacts.
Variables (url : string) (start end_ : Z).
Let range := rangeHeader start end_.
Let Trace := RetryTrace url start end_.

Lemma segment_counts seg :
  attempt_segment url start end_ seg -> attempts seg = 1 /\ sleeps seg = 0.
Proof.
  intros (tail & -> & Hq & _).
  destruct (attempt_tail_counts url start end_ tail Hq) as (A & B).
  unfold attempts, sleeps in *. rewrite !count_cons, A, B. simpl. lia.
Qed.

Lemma segment_In seg e :
  attempt_segment url start end_ seg -> In e seg ->
  e = EvNewRequest "GET" url \/ attempt_event url range e = true.
Proof.
  intros (tail & -> & Hq & _) [<- | Hin]; [auto |].
  right. eapply attempt_tail_In; eauto.
Qed.

Lemma trace_counts r evs :
  Trace r evs -> r <= maxRetries ->
  1 <= attempts evs <= maxRetries + 1 - r /\
  sleeps evs = attempts evs - 1 /\
  (forall err, In (EvPrint (MsgPartFailed start end_ maxRetries err)) evs ->
     attempts evs = maxRetries + 1 - r).
Proof.
  unfold Trace. induction 1 as [r seg Hs | r seg err Hs Hr | r seg rest Hs Hr Ht IH];
    intros Hle; destruct (segment_counts seg Hs) as [A S].
  - rewrite A, S. repeat split; try lia.
    intros err Hin. apply (segment_In seg _ Hs) in Hin as [Hin | Hin]; discriminate.
  - unfold attempts, sleeps in *. rewrite !count_app, A, S.
    change (count is_NewRequest [EvPrint _]) with 0.
    change (count is_Sleep [EvPrint _]) with 0.
    repeat split; lia.
  - destruct (IH ltac:(lia)) as (B1 & B2 & B3).
    unfold attempts, sleeps in *. rewrite !count_app, !count_cons, A, S.
    cbn [is_NewRequest is_Sleep]. repeat split; try lia.
    intros err Hin. apply in_app_or in Hin as [Hin | [Hin | [Hin | Hin]]];
      try discriminate.
    + apply (segment_In seg _ Hs) in Hin as [Hin | Hin]; discriminate.
    + specialize (B3 err Hin). lia.
Qed.

Lemma trace_events r evs :
  Trace r evs ->
  (forall d, In (EvSleep d) evs -> d = retryBackoff) /\
  (forall u rg, In (EvDo u rg) evs -> u = url /\ rg = range).
Proof.
  assert (Hseg : forall seg, attempt_segment url start end_ seg ->
            (forall d, In (EvSleep d) seg -> d = retryBackoff) /\
            (forall u rg, In (EvDo u rg) seg -> u = url /\ rg = range)).
  { intros seg Hs. split.
    - intros d Hin. apply (segment_In seg _ Hs) in Hin as [Hin | Hin]; discriminate.
    - intros u rg Hin.
      apply (segment_In seg _ Hs) in Hin as [Hin | Hin]; [discriminate |].
      simpl in Hin. apply andb_true_iff in Hin as [Hu Hr].
      apply String.eqb_eq in Hu, Hr. auto. }
  unfold Trace. induction 1 as [r seg Hs | r seg err Hs Hr | r seg rest Hs Hr Ht IH];
    destruct (Hseg seg Hs) as [S1 S2].
  - auto.
  - split.
    + intros d Hin. apply in_app_or in Hin as [Hin | [Hin | []]]; [auto | discriminate].
    + intros u rg Hin. apply in_app_or in Hin as [Hin | [Hin | []]]; [auto | discriminate].
  - destruct IH as [I1 I2]. split.
    + intros d Hin. apply in_app_or in Hin as [Hin | [Hin | [Hin | Hin]]];
        [auto | discriminate | congruence | auto].
    + intros u rg Hin. apply in_app_or in Hin as [Hin | [Hin | [Hin | Hin]]];
        [auto | discriminate | discriminate | auto].
Qed.

Lemma trace_spaced r evs : Trace r evs -> spaced true evs = true.
Proof.
  unfold Trace. induction 1 as [r seg Hs | r seg err Hs Hr | r seg rest Hs Hr Ht IH];
    destruct Hs as (tail & -> & Hq & _); cbn [app spaced andb].
  - rewrite <- (app_nil_r tail). now rewrite (spaced_tail url start end_ tail [] Hq).
  - now rewrite (spaced_tail url start end_ tail _ Hq).
  - rewrite (spaced_tail url start end_ tail _ Hq). cbn [spaced].
    now rewrite Z.eqb_refl.
Qed.

Lemma trace_positioned r evs :
  Trace r evs -> forall c, positioned start c evs = true.
Proof.
  unfold Trace. induction 1 as [r seg Hs | r seg err Hs Hr | r seg rest Hs Hr Ht IH];
    destruct Hs as (tail & -> & _ & Hp); intros c; cbn [app positioned].
  - exact Hp.
  - apply positioned_app; [reflexivity | exact Hp].
  - apply positioned_app; [| exact Hp]. intros c'. cbn [positioned]. apply IH.
Qed.
End TraceFacts.

(** The calls of the retry loop, one by one. *)

Lemma retry_pause (m : Msg) (d : Z) (w : World) :
  snd ((print m ;; sleep d)%go w) = logged w [EvPrint m; EvSleep d].
Proof. munfold. unfold logged. simpl. now rewrite <- app_assoc. Qed.

Lemma print_logged (m : Msg) (w : World) :
  snd (print m w) = logged w [EvPrint m].
Proof. reflexivity. Qed.

Section Calls.
Variables (env : Env) (pe : nat -> PartEnv) (url output : string) (start end_ : Z).

Let range := rangeHeader start end_.

(** A call whose request can be built sends it, once, for the range. *)
Lemma downloadPart_sends (pe0 : PartEnv) (w : World) :
  http_NewRequest env url = None ->
  exists tail,
    log (snd (downloadPart env pe0 url output start end_ w)) =
      log w ++ EvNewRequest "GET" url :: EvDo url range :: tail /\
    count is_Do tail = 0.
Proof.
  intros Hreq. unfold downloadPart. fold range. munfold. simpl. rewrite Hreq. simpl.
  destruct (pe_Do pe0 url range) as [e | resp]; simpl.
  { exists []. rewrite <- app_assoc. auto. }
  destruct (negb (StatusCode resp =? StatusPartialContent)); simpl.
  { exists []. rewrite <- app_assoc. auto. }
  destruct (fs w output); simpl.
  2:{ exists [EvOpenFile output]. rewrite <- !app_assoc. auto. }
  destruct (pe_OpenFile pe0); simpl.
  { exists [EvOpenFile output]. rewrite <- !app_assoc. auto. }
  destruct (Z.ltb_spec start 0); simpl.
  { exists [EvOpenFile output; EvSeek output start]. rewrite <- !app_assoc. auto. }
  destruct (pe_Seek pe0); simpl.
  { exists [EvOpenFile output; EvSeek output start]. rewrite <- !app_assoc. auto. }
  match goal with |- context [copyLoop ?we ?p ?k ?o ?rd ?w1] =>
    destruct (copyLoop_log we p start rd k o w1) as (evs & Hl & Hq & _) end.
  exists (EvOpenFile output :: EvSeek output start :: evs).
  rewrite Hl. simpl. rewrite <- !app_assoc. split; [reflexivity |].
  rewrite !count_cons. cbn [is_Do].
  assert (Hz : count is_Do evs = 0).
  { clear -Hq. induction evs as [| e evs IH]; [reflexivity |].
    simpl in Hq. apply andb_true_iff in Hq as [He Ht].
    rewrite count_cons, (IH Ht). destruct e; simpl in *; congruence. }
  lia.
Qed.

(** A call that is answered 206 and gets through to the file writes what
    the body delivers from offset [start] on, whatever it returns. *)
Lemma downloadPart_writes (pe0 : PartEnv) (w : World) (resp : Response)
    (c : list byte) :
  http_NewRequest env url = None ->
  pe_Do pe0 url range = inr resp ->
  StatusCode resp = StatusPartialContent ->
  fs w output = Some c ->
  pe_OpenFile pe0 = None ->
  pe_Seek pe0 = None ->
  0 <= start <= len c ->
  (forall k, pe_Write pe0 k = None) ->
  fs (snd (downloadPart env pe0 url output start end_ w)) output =
    Some (write_at c start (delivered (Body resp))).
Proof.
  intros Hreq Hdo Hst Hf Hopen Hseek Hs Hwr.
  unfold downloadPart. fold range. munfold. simpl.
  rewrite Hreq. simpl. rewrite Hdo. simpl. rewrite Hst. simpl.
  rewrite Hf. simpl. rewrite Hopen. simpl.
  destruct (Z.ltb_spec start 0); [lia |]. rewrite Hseek. simpl.
  match goal with |- context [copyLoop ?we ?p ?k ?o ?rd ?w1] =>
    destruct (copyLoop_clean we p Hwr rd k o w1 c Hf Hs) as (_ & R2 & _)
  end.
  exact R2.
Qed.

(** The loop entered with [retries = r]: the calls it makes are numbered
    [r .. n - 1], and call [j] starts in the world [before j]. *)
Lemma retryLoop_calls (d : nat) :
  forall (r : nat) (w : World), Z.of_nat (r + d) = maxRetries ->
  let final := retryLoop env pe url output start end_ (Z.of_nat r) w in
  exists (n : nat) (before : nat -> World) (evs : list Event),
    (r < n)%nat /\ Z.of_nat n <= maxRetries + 1 /\
    before r = w /\
    (forall j, (r <= j)%nat -> (S j < n)%nat ->
       exists err,
         fst (downloadPart env (pe j) url output start end_ (before j)) = inl err /\
         before (S j) =
           logged (snd (downloadPart env (pe j) url output start end_ (before j)))
             [EvPrint (MsgRetrying start end_ (Z.of_nat (S j)));
              EvSleep retryBackoff]) /\
    ((fst (downloadPart env (pe (pred n)) url output start end_ (before (pred n)))
        = inr tt /\
      final = snd (downloadPart env (pe (pred n)) url output start end_
                     (before (pred n)))) \/
     (exists err,
        fst (downloadPart env (pe (pred n)) url output start end_ (before (pred n)))
          = inl err /\
        Z.of_nat n = maxRetries + 1 /\
        final =
          logged (snd (downloadPart env (pe (pred n)) url output start end_
                         (before (pred n))))
            [EvPrint (MsgPartFailed start end_ maxRetries err)])) /\
    log final = log w ++ evs /\
    attempts evs = Z.of_nat (n - r) /\
    (http_NewRequest env url = None -> count is_Do evs = Z.of_nat (n - r)).
Proof.
  induction d as [| d IH]; intros r w Hrd final.
  - unfold final. rewrite retryLoop_step, Nat2Z.id.
    destruct (downloadPart_log env url output start end_ (pe r) w)
      as (tail & Hl & Hq & _).
    pose proof (downloadPart_sends (pe r) w) as Hsend.
    destruct (attempt_tail_counts url start end_ tail Hq) as (A & _).
    exists (S r), (fun _ => w).
    destruct (downloadPart env (pe r) url output start end_ w) as [[err | []] w1] eqn:Hc;
      cbn [fst snd] in *.
    + destruct (Z.gtb_spec (Z.of_nat r + 1) maxRetries) as [Hgt | Hle]; [| lia].
      exists (EvNewRequest "GET" url :: tail
                ++ [EvPrint (MsgPartFailed start end_ maxRetries err)]).
      cbn [pred]. rewrite Hc. cbn [fst snd]. splits.
      * lia.
      * lia.
      * reflexivity.
      * intros j Hj1 Hj2. lia.
      * right. exists err. splits; [reflexivity | lia | reflexivity].
      * rewrite print_logged. unfold logged. cbn [log]. rewrite Hl.
        now rewrite <- app_assoc.
      * unfold attempts in *. rewrite count_cons, count_app, A.
        cbn [is_NewRequest]. change (count is_NewRequest [EvPrint _]) with 0. lia.
      * intros Hreq. destruct (Hsend Hreq) as (tail' & Hl' & D).
        rewrite Hl in Hl'. apply app_inv_head in Hl'. injection Hl' as ->.
        rewrite count_cons, count_app, count_cons, D. cbn [is_Do].
        change (count is_Do [EvPrint _]) with 0. lia.
    + exists (EvNewRequest "GET" url :: tail).
      cbn [pred]. rewrite Hc. cbn [fst snd]. splits.
      * lia.
      * lia.
      * reflexivity.
      * intros j Hj1 Hj2. lia.
      * left. split; reflexivity.
      * exact Hl.
      * unfold attempts in *. rewrite count_cons, A. cbn [is_NewRequest]. lia.
      * intros Hreq. destruct (Hsend Hreq) as (tail' & Hl' & D).
        rewrite Hl in Hl'. apply app_inv_head in Hl'. injection Hl' as ->.
        rewrite !count_cons, D. cbn [is_Do]. lia.
  - unfold final. rewrite retryLoop_step, Nat2Z.id.
    destruct (downloadPart_log env url output start end_ (pe r) w)
      as (tail & Hl & Hq & _).
    pose proof (downloadPart_sends (pe r) w) as Hsend.
    destruct (attempt_tail_counts url start end_ tail Hq) as (A & _).
    destruct (downloadPart env (pe r) url output start end_ w) as [[err | []] w1] eqn:Hc;
      cbn [fst snd] in *.
    + destruct (Z.gtb_spec (Z.of_nat r + 1) maxRetries) as [Hgt | Hle]; [lia |].
      rewrite retry_pause.
      replace (Z.of_nat r + 1) with (Z.of_nat (S r)) by lia.
      set (w2 := logged w1 [EvPrint (MsgRetrying start end_ (Z.of_nat (S r)));
                            EvSleep retryBackoff]).
      destruct (IH (S r) w2 ltac:(lia))
        as (n & before & evs & Hn1 & Hn2 & Hb0 & Hchain & Hlast & Hlog & Hatt & Hdo).
      exists n, (fun j => if (j <=? r)%nat then w else before j),
        (EvNewRequest "GET" url :: tail
           ++ EvPrint (MsgRetrying start end_ (Z.of_nat (S r)))
           :: EvSleep retryBackoff :: evs).
      assert (Hb : forall j, (r < j)%nat ->
                (if (j <=? r)%nat then w else before j) = before j).
      { intros j Hj. destruct (Nat.leb_spec j r); [lia | reflexivity]. }
      splits.
      * lia.
      * exact Hn2.
      * now rewrite Nat.leb_refl.
      * intros j Hj1 Hj2. destruct (Nat.eq_dec j r) as [-> | Hne].
        -- rewrite Nat.leb_refl, (Hb (S r)) by lia. rewrite Hc. cbn [fst snd].
           exists err. split; [reflexivity |]. exact Hb0.
        -- rewrite (Hb j), (Hb (S j)) by lia. apply Hchain; lia.
      * rewrite (Hb (pred n)) by lia. exact Hlast.
      * rewrite Hlog. unfold w2, logged. cbn [log]. rewrite Hl.
        rewrite <- !app_assoc. reflexivity.
      * unfold attempts in *. rewrite count_cons, count_app, !count_cons, A, Hatt.
        cbn [is_NewRequest]. lia.
      * intros Hreq. destruct (Hsend Hreq) as (tail' & Hl' & D).
        rewrite Hl in Hl'. apply app_inv_head in Hl'. injection Hl' as ->.
        rewrite count_cons, count_app, !count_cons, D, (Hdo Hreq). cbn [is_Do]. lia.
    + exists (S r), (fun _ => w), (EvNewRequest "GET" url :: tail).
      cbn [pred]. rewrite Hc. cbn [fst snd]. splits.
      * lia.
      * lia.
      * reflexivity.
      * intros j Hj1 Hj2. lia.
      * left. split; reflexivity.
      * exact Hl.
      * unfold attempts in *. rewrite count_cons, A. cbn [is_NewRequest]. lia.
      * intros Hreq. destruct (Hsend Hreq) as (tail' & Hl' & D).
        rewrite Hl in Hl'. apply app_inv_head in Hl'. injection Hl' as ->.
        rewrite !count_cons, D. cbn [is_Do]. lia.
Qed.
End Calls.

(** C4.  The goroutine of a chunk makes [n] calls of [downloadPart],
    [1 <= n <= maxRetries + 1 = 4], each of them for the chunk's own
    [start] and [end]: call [j] is [downloadPart(client, url, output,
    start, end)] run in the world [before j], and call 0 starts where the
    goroutine starts.  Every call but the last returns an error and is
    followed by the retry line and one sleep of [retryBackoff = 2]
    seconds, after which the next call is made: a failed attempt is
    retried.  The last call either returns [nil], which ends the loop on
    the spot, or returns an error as call number [maxRetries + 1], after
    which the failure line is printed and the goroutine ends.

    In the trace this reads: exactly [n] calls and [n - 1] sleeps, every
    sleep lasts [retryBackoff] and every call but the first comes right
    after one; the failure line is printed only after the full
    [maxRetries + 1] calls.  When the request can be built every call
    sends its ranged GET, [n] of them, and each asks for the whole range
    [bytes=start-end] of the same URL.  Every seek goes to [start] and
    the writes follow on from there; a call -- the first or a retry --
    that is answered 206 and gets through to the file leaves what the body
    delivered at offset [start]. *)
Theorem retry_wrapper_contract (env : Env) (pe : nat -> PartEnv)
    (url output : string) (start end_ : Z) (w : World) :
  let range := rangeHeader start end_ in
  let final := snd (chunkTask env pe url output start end_ w) in
  exists (n : nat) (before : nat -> World) (evs : list Event),
    let call j := downloadPart env (pe j) url output start end_ (before j) in
    1 <= Z.of_nat n <= maxRetries + 1 /\
    maxRetries = 3 /\
    before 0%nat = w /\
    (forall j, (S j < n)%nat ->
       exists err,
         fst (call j) = inl err /\
         before (S j) =
           logged (snd (call j))
             [EvPrint (MsgRetrying start end_ (Z.of_nat (S j)));
              EvSleep retryBackoff]) /\
    retryBackoff = 2 * Second /\
    ((fst (call (pred n)) = inr tt /\ final = snd (call (pred n))) \/
     (exists err,
        fst (call (pred n)) = inl err /\
        Z.of_nat n = maxRetries + 1 /\
        final = logged (snd (call (pred n)))
                  [EvPrint (MsgPartFailed start end_ maxRetries err)])) /\
    log final = log w ++ evs /\
    attempts evs = Z.of_nat n /\
    sleeps evs = attempts evs - 1 /\
    (forall d, In (EvSleep d) evs -> d = retryBackoff) /\
    spaced true evs = true /\
    (forall err, In (EvPrint (MsgPartFailed start end_ maxRetries err)) evs ->
       attempts evs = maxRetries + 1) /\
    (forall r w1,
       fst (downloadPart env (pe (Z.to_nat r)) url output start end_ w1) = inr tt ->
       retryLoop env pe url output start end_ r w1 =
         snd (downloadPart env (pe (Z.to_nat r)) url output start end_ w1)) /\
    (http_NewRequest env url = None -> count is_Do evs = Z.of_nat n) /\
    (forall u rg, In (EvDo u rg) evs -> u = url /\ rg = range) /\
    positioned start None evs = true /\
    (forall j resp c,
       (j < n)%nat ->
       http_NewRequest env url = None ->
       pe_Do (pe j) url range = inr resp ->
       StatusCode resp = StatusPartialContent ->
       fs (before j) output = Some c ->
       pe_OpenFile (pe j) = None ->
       pe_Seek (pe j) = None ->
       0 <= start <= len c ->
       (forall k, pe_Write (pe j) k = None) ->
       fs (snd (call j)) output = Some (write_at c start (delivered (Body resp)))).
Proof.
  intros range final.
  destruct (retryLoop_calls env pe url output start end_ (Z.to_nat maxRetries) 0%nat w
              eq_refl)
    as (n & before & evs & Hn1 & Hn2 & Hb0 & Hchain & Hlast & Hlog & Hatt & Hdo).
  change (Z.of_nat 0) with 0 in *.
  destruct (retryLoop_trace env pe url output start end_ (budget 0) 0 w eq_refl)
    as (evs0 & Hl0 & Ht).
  assert (evs0 = evs) as ->.
  { rewrite Hlog in Hl0. now apply app_inv_head in Hl0. }
  destruct (trace_counts url start end_ 0 evs Ht ltac:(unfold maxRetries; lia))
    as (C1 & C2 & C3).
  destruct (trace_events url start end_ 0 evs Ht) as (E1 & E2).
  rewrite Nat.sub_0_r in *.
  exists n, before, evs. cbn zeta.
  splits.
  - lia.
  - exact Hn2.
  - reflexivity.
  - exact Hb0.
  - intros j Hj. apply Hchain; lia.
  - reflexivity.
  - exact Hlast.
  - exact Hlog.
  - exact Hatt.
  - exact C2.
  - exact E1.
  - exact (trace_spaced url start end_ 0 evs Ht).
  - intros err Hin. rewrite (C3 err Hin). lia.
  - intros r w1 Hok. rewrite retryLoop_step.
    destruct (downloadPart env (pe (Z.to_nat r)) url output start end_ w1)
      as [[err | []] w2]; [discriminate | reflexivity].
  - exact Hdo.
  - exact E2.
  - exact (trace_positioned url start end_ 0 evs Ht None).
  - intros j resp c Hj Hreq Hd Hst Hf Hopen Hseek Hs Hwr.
    exact (downloadPart_writes env url output start end_ (pe j) (before j) resp c
             Hreq Hd Hst Hf Hopen Hseek Hs Hwr).
Qed.

Lemma retry_wrapper_contract_witness :
  exists (n : nat) (evs : list Event),
    log (snd (chunkTask env_second_chunk_down pe_flaky "u" "out" 2 4 w_presized))
      = log w_presized ++ evs /\
    n = 3%nat /\
    attempts evs = Z.of_nat n /\
    sleeps evs = attempts evs - 1 /\
    count is_Do evs = Z.of_nat n.
Proof.
  destruct (retry_wrapper_contract env_second_chunk_down pe_flaky "u" "out" 2 4
              w_presized)
    as (n & before & evs & _ & _ & _ & _ & _ & _ & Hlog & Hatt & Hsl & _ & _ & _ & _
        & Hdo & _).
  exists n, evs.
  assert (Ha : attempts evs = 3).
  { change (log w_presized ++ evs) with evs in Hlog. rewrite <- Hlog.
    vm_compute. reflexivity. }
  split; [exact Hlog |]. split; [lia |]. split; [exact Hatt |].
  split; [exact Hsl |]. exact (Hdo eq_refl).
Defined.

(** ** A fetch that is cut short *)

(** C6.  A call of [downloadPart] that gets a 206 answer whose body ends
    in [io.EOF], with no transport, file or write error on the way,
    returns [nil] whatever the number of bytes the body delivered: that
    number is not compared with [end - start + 1].  The bytes delivered
    are in the file from offset [start] on and are added to the progress
    bar; the rest of the range is as it was before the call, which is
    zeros in a file that was just pre-sized. *)
Theorem downloadPart_accepts_short_body (env : Env) (pe : PartEnv)
    (url output : string) (start end_ : Z) (w : World)
    (c : list byte) (resp : Response) :
  http_NewRequest env url = None ->
  pe_Do pe url (rangeHeader start end_) = inr resp ->
  StatusCode resp = StatusPartialContent ->
  fs w output = Some c ->
  pe_OpenFile pe = None ->
  0 <= start <= len c ->
  pe_Seek pe = None ->
  (forall k, pe_Write pe k = None) ->
  ends_in_EOF (Body resp) = true ->
  let got := delivered (Body resp) in
  let r := downloadPart env pe url output start end_ w in
  fst r = inr tt /\
  bar (snd r) = bar w + len got /\
  fs (snd r) output = Some (write_at c start got) /\
  (forall off, start + len got <= off <= end_ ->
     nth_error (write_at c start got) (Z.to_nat off) = nth_error c (Z.to_nat off)) /\
  (forall size off, c = resize [] size ->
     start + len got <= off <= end_ -> off < size ->
     nth_error (write_at c start got) (Z.to_nat off) = Some zero).
Proof.
  intros Hreq Hdo Hst Hf Hopen Hstart Hseek Hwr Heof got r.
  assert (Hr : fst r = inr tt /\ bar (snd r) = bar w + len got /\
               fs (snd r) output = Some (write_at c start got)).
  { unfold r, downloadPart. munfold. simpl.
    rewrite Hreq. simpl. rewrite Hdo. simpl. rewrite Hst. simpl.
    rewrite Hf. simpl. rewrite Hopen. simpl.
    destruct (Z.ltb_spec start 0); [lia |]. rewrite Hseek. simpl.
    match goal with |- context [copyLoop ?we ?p ?k ?o ?rd ?w1] =>
      destruct (copyLoop_clean we p Hwr rd k o w1 c Hf Hstart) as (R1 & R2 & _ & R4)
    end.
    rewrite R1, R2, R4. unfold copy_outcome.
    unfold ends_in_EOF in Heof.
    destruct (first_read_error (Body resp)) as [e |]; [rewrite Heof |]; auto. }
  destruct Hr as (R1 & R2 & R3).
  assert (Hrest : forall off, start + len got <= off <= end_ ->
            nth_error (write_at c start got) (Z.to_nat off) = nth_error c (Z.to_nat off)).
  { intros off Hoff. apply write_at_beyond; [exact Hstart |].
    unfold got, len in *. lia. }
  repeat split; auto.
  intros size off Hc Hoff Hsz. rewrite Hrest by exact Hoff.
  rewrite Hc. unfold resize. rewrite firstn_nil. simpl.
  apply nth_error_repeat. unfold len in *. lia.
Qed.

Lemma downloadPart_accepts_short_body_witness :
  let r := downloadPart (env_base (head_ranges "10") (mkResponse 206 [] 2 [])
                           (fun _ _ => pe_truncated))
             pe_truncated "u" "out" 0 9 w_presized in
  fst r = inr tt /\
  fs (snd r) "out" = Some ([x61; x62; x63] ++ repeat zero 7).
Proof.
  pose proof (downloadPart_accepts_short_body
    (env_base (head_ranges "10") (mkResponse 206 [] 2 []) (fun _ _ => pe_truncated))
    pe_truncated "u" "out" 0 9 w_presized (repeat zero 10)
    (mkResponse 206 [] 3 [([x61; x62; x63], Some EOF)])
    eq_refl eq_refl eq_refl eq_refl eq_refl
    ltac:(vm_compute; split; congruence) eq_refl (fun _ => eq_refl) eq_refl)
    as (H1 & _ & H3 & _).
  split; [exact H1 | exact H3].
Defined.

(** ** The probe, step by step *)

Lemma downloadFile_probe env url output n w :
  downloadFile env url output n w =
  let w1 := logged w [EvHead url] in
  match http_Head env url with
  | inl e => (inl e, w1)
  | inr resp =>
      if negb (StatusCode resp =? StatusOK)
      then (inl (StatusError (StatusCode resp)), w1)
      else
        let sizeStr := Header_Get (Header resp) "Content-Length" in
        if String.eqb sizeStr "" then (inl MissingContentLength, w1)
        else
          match Atoi sizeStr with
          | inl e => (inl (InvalidContentLength e), w1)
          | inr size =>
              if negb (String.eqb (Header_Get (Header resp) "Accept-Ranges") "bytes")
              then singleDownload env url output (logged w1 [EvPrint MsgNoRanges])
              else
                let w2 := logged w1 [EvNewRequest "GET" url] in
                match http_NewRequest env url with
                | Some e => (inl (VerifyError e), w2)
                | None =>
                    let w3 := logged w2 [EvDo url "bytes=0-1"] in
                    match verify_Do env url "bytes=0-1" with
                    | inl e => (inl (VerifyError e), w3)
                    | inr test =>
                        if StatusCode test =? StatusPartialContent
                        then rangedTransfer env url output size n w3
                        else singleDownload env url output
                               (logged w3 [EvPrint MsgMisbehaves])
                    end
                end
          end
  end.
Proof.
  unfold downloadFile, verifyPartialSupport. munfold. cbn zeta.
  change (mkWorld (fs w) (bar w) (log w ++ [EvHead url])) with (logged w [EvHead url]).
  destruct (http_Head env url) as [e | resp]; [reflexivity |]. cbn beta iota.
  destruct (negb (StatusCode resp =? StatusOK)); [reflexivity |].
  destruct (String.eqb _ ""); [reflexivity |].
  destruct (Atoi _) as [e | size]; [reflexivity |].
  destruct (negb (String.eqb _ "bytes")); [reflexivity |].
  cbn. destruct (http_NewRequest env url); [reflexivity |]. cbn.
  destruct (verify_Do env url "bytes=0-1") as [e | test]; [reflexivity |]. cbn.
  destruct (StatusCode test =? StatusPartialContent); reflexivity.
Qed.

Lemma Atoi_nonempty (s : string) (size : Z) :
  Atoi s = inr size -> String.eqb s "" = false.
Proof. destruct s; [discriminate | reflexivity]. Qed.

(** Once the metadata request has passed, what is left of the probe. *)
Lemma downloadFile_after_head env url output n w resp size :
  HeadOK env url resp size ->
  downloadFile env url output n w =
  let w1 := logged w [EvHead url] in
  if negb (String.eqb (Header_Get (Header resp) "Accept-Ranges") "bytes")
  then singleDownload env url output (logged w1 [EvPrint MsgNoRanges])
  else
    let w2 := logged w1 [EvNewRequest "GET" url] in
    match http_NewRequest env url with
    | Some e => (inl (VerifyError e), w2)
    | None =>
        let w3 := logged w2 [EvDo url "bytes=0-1"] in
        match verify_Do env url "bytes=0-1" with
        | inl e => (inl (VerifyError e), w3)
        | inr test =>
            if StatusCode test =? StatusPartialContent
            then rangedTransfer env url output size n w3
            else singleDownload env url output (logged w3 [EvPrint MsgMisbehaves])
        end
    end.
Proof.
  intros (Hh & Hs & Ha). rewrite downloadFile_probe. cbn zeta.
  rewrite Hh, Hs. cbn [negb Z.eqb StatusOK Pos.eqb].
  rewrite (Atoi_nonempty _ _ Ha), Ha. reflexivity.
Qed.

Lemma downloadCmd_status env url output n w :
  fst (downloadCmd env url output n w) =
  match fst (downloadFile env url output n w) with
  | inl _ => 1
  | inr _ => 0
  end.
Proof.
  unfold downloadCmd.
  destruct (downloadFile env url output n w) as [[e | []] w1]; simpl; [reflexivity |].
  destruct (fs w1 output); reflexivity.
Qed.

(** ** The probe stage *)

(** C8.  When the probe stage fails -- the metadata request fails in
    transport, its status is not 200, the Content-Length is missing or
    does not parse, or the test request fails in transport --
    [downloadFile] returns an error (and the process exits with status 1)
    before the destination file is created: the files are as they were
    and no call that creates or modifies a file is in the trace. *)
Theorem probe_failure_precedes_file_creation (env : Env) (url output : string)
    (n : Z) (w : World) :
  ProbeFailure env url ->
  exists err evs,
    fst (downloadFile env url output n w) = inl err /\
    fst (downloadCmd env url output n w) = 1 /\
    fs (snd (downloadFile env url output n w)) = fs w /\
    log (snd (downloadFile env url output n w)) = log w ++ evs /\
    existsb touches_file evs = false.
Proof.
  intros Hpf. rewrite downloadCmd_status.
  destruct Hpf as [e He | resp Hh Hs | resp Hh Hm | resp e Hh Ha | resp size e Hok Har Ht].
  - rewrite downloadFile_probe. cbn zeta. rewrite He.
    exists e, [EvHead url]. auto.
  - rewrite downloadFile_probe. cbn zeta. rewrite Hh.
    destruct (Z.eqb_spec (StatusCode resp) StatusOK); [contradiction |].
    exists (StatusError (StatusCode resp)), [EvHead url]. auto.
  - rewrite downloadFile_probe. cbn zeta. rewrite Hh, Hm.
    destruct (negb (StatusCode resp =? StatusOK)).
    + exists (StatusError (StatusCode resp)), [EvHead url]. auto.
    + exists MissingContentLength, [EvHead url]. auto.
  - rewrite downloadFile_probe. cbn zeta. rewrite Hh, Ha.
    destruct (negb (StatusCode resp =? StatusOK)).
    + exists (StatusError (StatusCode resp)), [EvHead url]. auto.
    + destruct (String.eqb _ "").
      * exists MissingContentLength, [EvHead url]. auto.
      * exists (InvalidContentLength e), [EvHead url]. auto.
  - rewrite (downloadFile_after_head env url output n w resp size Hok). cbn zeta.
    rewrite Har. change (String.eqb "bytes" "bytes") with true. cbn [negb].
    destruct (http_NewRequest env url) as [e' |] eqn:Hn.
    + exists (VerifyError e'), [EvHead url; EvNewRequest "GET" url].
      simpl. rewrite <- app_assoc. auto.
    + destruct Ht as [Ht | Ht]; [discriminate |]. rewrite Ht.
      exists (VerifyError e), [EvHead url; EvNewRequest "GET" url; EvDo url "bytes=0-1"].
      simpl. rewrite <- !app_assoc. auto.
Qed.

Lemma probe_failure_precedes_file_creation_witness :
  ProbeFailure env_not_found "u" /\
  exists err evs,
    fst (downloadFile env_not_found "u" "out" 0 w0) = inl err /\
    fst (downloadCmd env_not_found "u" "out" 0 w0) = 1 /\
    fs (snd (downloadFile env_not_found "u" "out" 0 w0)) = fs w0 /\
    log (snd (downloadFile env_not_found "u" "out" 0 w0)) = log w0 ++ evs /\
    existsb touches_file evs = false.
Proof.
  assert (H : ProbeFailure env_not_found "u").
  { apply PF_status with (resp := mkResponse 404 [] 0 []); [reflexivity |].
    vm_compute. congruence. }
  split; [exact H |].
  exact (probe_failure_precedes_file_creation env_not_found "u" "out" 0 w0 H).
Defined.

(** C3, as stated, fails twice on the code.  A test request answered 206
    with a Content-Range other than the one asked for still leads to the
    ranged transfer (no fallback GET; the file is pre-sized and the chunk
    [bytes=0-9] is requested); and a test request that fails in transport
    ends the transfer with an error instead of the fallback. *)
Lemma probe_ignores_content_range :
  Header_Get [("Content-Range", "bytes 7-9/3")] "Content-Range"
    <> content_range 0 1 10 /\
  verify_Do env_wrong_content_range "u" "bytes=0-1"
    = inr (mkResponse 206 [("Content-Range", "bytes 7-9/3")] 3 []) /\
  log (snd (downloadFile env_wrong_content_range "u" "out" 1 w0)) =
    [EvHead "u"; EvNewRequest "GET" "u"; EvDo "u" "bytes=0-1";
     EvPrint (MsgFileSize 10); EvPrint (MsgUsingWorkers 1);
     EvCreate "out"; EvTruncate "out" 10; EvBarNew 10;
     EvNewRequest "GET" "u"; EvDo "u" "bytes=0-9";
     EvOpenFile "out"; EvSeek "out" 0;
     EvWrite "out" 0 [x61; x62; x63; x64; x65; x66; x67; x68; x69; x6a];
     EvBarAdd 10] /\
  fst (downloadFile env_test_request_lost "u" "out" 0 w0)
    = inl (VerifyError (TransportError "connection reset")) /\
  log (snd (downloadFile env_test_request_lost "u" "out" 0 w0)) =
    [EvHead "u"; EvNewRequest "GET" "u"; EvDo "u" "bytes=0-1"].
Proof.
  split; [vm_compute; congruence |].
  repeat split; vm_compute; reflexivity.
Qed.

(** C3 (amended).  Once the metadata request has passed, the server is
    treated as range-capable exactly when the HEAD response carries
    [Accept-Ranges: bytes] and the test request [bytes=0-1] is answered
    with status 206; the Content-Range of that answer is not looked at.
    Without the advertisement, or with another status on the test request,
    the transfer is the single-stream fallback; a test request that fails
    in transport ends the transfer with an error. *)
Theorem probe_decides_on_advertisement_and_status (env : Env)
    (url output : string) (n : Z) (w : World) (resp : Response) (size : Z) :
  HeadOK env url resp size ->
  let advertised := String.eqb (Header_Get (Header resp) "Accept-Ranges") "bytes" in
  let w1 := logged w [EvHead url] in
  let w3 := logged w [EvHead url; EvNewRequest "GET" url; EvDo url "bytes=0-1"] in
  (advertised = false ->
     downloadFile env url output n w =
       singleDownload env url output (logged w1 [EvPrint MsgNoRanges])) /\
  (advertised = true -> http_NewRequest env url = None ->
     (forall test, verify_Do env url "bytes=0-1" = inr test ->
        (StatusCode test = StatusPartialContent ->
           downloadFile env url output n w =
             rangedTransfer env url output size n w3) /\
        (StatusCode test <> StatusPartialContent ->
           downloadFile env url output n w =
             singleDownload env url output (logged w3 [EvPrint MsgMisbehaves]))) /\
     (forall e, verify_Do env url "bytes=0-1" = inl e ->
        downloadFile env url output n w = (inl (VerifyError e), w3))).
Proof.
  intros Hok advertised w1 w3.
  assert (Hw3 : logged (logged w1 [EvNewRequest "GET" url]) [EvDo url "bytes=0-1"] = w3)
    by (unfold w1, w3; now rewrite !logged_logged).
  rewrite (downloadFile_after_head env url output n w resp size Hok). cbn zeta.
  fold advertised. fold w1. split.
  - intros ->. reflexivity.
  - intros -> ->. cbn [negb]. rewrite Hw3. split.
    + intros test ->. split.
      * intros ->. reflexivity.
      * intros Hs. destruct (Z.eqb_spec (StatusCode test) StatusPartialContent);
          [contradiction | reflexivity].
    + intros e ->. reflexivity.
Qed.

Lemma probe_decides_on_advertisement_and_status_witness :
  HeadOK env_wrong_content_range "u" (head_ranges "10") 10 /\
  downloadFile env_wrong_content_range "u" "out" 1 w0 =
    rangedTransfer env_wrong_content_range "u" "out" 10 1
      (logged w0 [EvHead "u"; EvNewRequest "GET" "u"; EvDo "u" "bytes=0-1"]).
Proof.
  assert (H : HeadOK env_wrong_content_range "u" (head_ranges "10") 10)
    by (repeat split; reflexivity).
  split; [exact H |].
  exact (proj1 (proj1 (proj2
    (probe_decides_on_advertisement_and_status
       env_wrong_content_range "u" "out" 1 w0 (head_ranges "10") 10 H)
    eq_refl eq_refl) _ eq_refl) eq_refl).
Defined.

(** ** The single-stream fallback *)







(** ** The worker override *)

Lemma resolveWorkers_nonpositive (size n : Z) :
  n <= 0 -> resolveWorkers size n = calculateWorkers size.
Proof. intros H. unfold resolveWorkers. destruct (Z.gtb_spec n 0); [lia | reflexivity]. Qed.

Lemma resolveWorkers_positive (size n : Z) :
  0 < n -> resolveWorkers size n = n.
Proof. intros H. unfold resolveWorkers. destruct (Z.gtb_spec n 0); [reflexivity | lia]. Qed.

Lemma rangedTransfer_override (env : Env) (url output : string) (size n m : Z) :
  resolveWorkers size n = resolveWorkers size m ->
  rangedTransfer env url output size n = rangedTransfer env url output size m.
Proof. intros H. unfold rangedTransfer. now rewrite H. Qed.

(** The ranged transfer, step by step. *)
Lemma rangedTransfer_steps env url output size n w :
  os_Create env output = None ->
  0 <= size ->
  file_Truncate env size = None ->
  rangedTransfer env url output size n w =
    runTasks env url output 0 (chunkPlan size (resolveWorkers size n))
      (mkWorld (fs_set (fs_set (fs w) output []) output (resize [] size)) 0
         (log w ++ [EvPrint (MsgFileSize size);
                    EvPrint (MsgUsingWorkers (resolveWorkers size n));
                    EvCreate output; EvTruncate output size; EvBarNew size])).
Proof.
  intros Hc Hs Ht. unfold rangedTransfer. munfold. simpl.
  rewrite Hc. simpl. destruct (Z.ltb_spec size 0); [lia |]. rewrite Ht. simpl.
  rewrite fs_set_same. simpl. rewrite <- !app_assoc. simpl.
  match goal with |- context [runTasks ?e ?u ?o ?i ?p ?w1] =>
    destruct (runTasks e u o i p w1) as [[err | []] w2] end; reflexivity.
Qed.

(** Every goroutine makes at least one call of [downloadPart] and at most
    [maxRetries + 1]. *)
Lemma runTasks_attempts env url output plan :
  forall i w, exists evs,
    log (snd (runTasks env url output i plan w)) = log w ++ evs /\
    Z.of_nat (List.length plan) <= attempts evs
      <= (maxRetries + 1) * Z.of_nat (List.length plan).
Proof.
  induction plan as [| [s e] rest IH]; intros i w.
  - exists []. simpl. rewrite app_nil_r. split; [reflexivity |].
    unfold attempts, count. simpl. lia.
  - cbn [runTasks]. unfold bind, chunkTask.
    destruct (retryLoop_trace env (part_env env i) url output s e (budget 0) 0 w eq_refl)
      as (evs1 & Hl1 & Ht).
    destruct (trace_counts url s e 0 evs1 Ht ltac:(unfold maxRetries; lia))
      as (C1 & _).
    destruct (IH (S i) (retryLoop env (part_env env i) url output s e 0 w))
      as (evs2 & Hl2 & C2).
    exists (evs1 ++ evs2). rewrite Hl2, Hl1, <- app_assoc. split; [reflexivity |].
    unfold attempts in *. rewrite count_app. cbn [List.length].
    rewrite Nat2Z.inj_succ. unfold maxRetries in *. lia.
Qed.

(** C10.  A negative [--worker] value is the same as 0: [downloadFile]
    (and so the command) does exactly what it does for 0, with the worker
    count of the heuristic.  Only a value > 0 replaces the heuristic, and
    it is taken as it is, also when it is larger than the size: the plan
    then has that many ranges.

    Of [downloadFile] itself, once the probe has passed and the
    destination is created and pre-sized: with an override [n > 0] it
    announces [n] workers and runs the goroutines of the plan for [n]
    workers, with [n <= 0] it announces and runs those of the heuristic;
    the plan has exactly that many ranges, one goroutine is run for each
    and each makes at least one call of [downloadPart] (and at most
    [maxRetries + 1]). *)
Theorem worker_override_semantics (env : Env) (url output : string) :
  (forall n w, n < 0 ->
     downloadFile env url output n w = downloadFile env url output 0 w /\
     downloadCmd env url output n w = downloadCmd env url output 0 w) /\
  (forall size n, n <= 0 -> resolveWorkers size n = calculateWorkers size) /\
  (forall size n, 0 < n -> resolveWorkers size n = n) /\
  (forall size n, 0 <= size < n -> n <= GoInt.max_int ->
     Z.of_nat (List.length (chunkPlan size (resolveWorkers size n))) = n) /\
  (forall n w resp test size workers,
     HeadOK env url resp size ->
     Header_Get (Header resp) "Accept-Ranges" = "bytes" ->
     http_NewRequest env url = None ->
     verify_Do env url "bytes=0-1" = inr test ->
     StatusCode test = StatusPartialContent ->
     os_Create env output = None ->
     0 <= size ->
     file_Truncate env size = None ->
     (0 < n /\ workers = n) \/ (n <= 0 /\ workers = calculateWorkers size) ->
     let w1 :=
       mkWorld (fs_set (fs_set (fs w) output []) output (resize [] size)) 0
         (log w ++ [EvHead url; EvNewRequest "GET" url; EvDo url "bytes=0-1";
                    EvPrint (MsgFileSize size); EvPrint (MsgUsingWorkers workers);
                    EvCreate output; EvTruncate output size; EvBarNew size]) in
     downloadFile env url output n w =
       runTasks env url output 0 (chunkPlan size workers) w1 /\
     Z.of_nat (List.length (chunkPlan size workers)) = workers /\
     exists evs,
       log (snd (downloadFile env url output n w)) = log w1 ++ evs /\
       workers <= attempts evs <= (maxRetries + 1) * workers).
Proof.
  assert (Hdf : forall n w, n < 0 ->
            downloadFile env url output n w = downloadFile env url output 0 w).
  { intros n w Hn. rewrite !downloadFile_probe. cbn zeta.
    destruct (http_Head env url) as [e | resp]; [reflexivity |].
    destruct (negb (StatusCode resp =? StatusOK)); [reflexivity |].
    destruct (String.eqb _ ""); [reflexivity |].
    destruct (Atoi _) as [e | size]; [reflexivity |].
    destruct (negb (String.eqb _ "bytes")); [reflexivity |].
    destruct (http_NewRequest env url); [reflexivity |].
    destruct (verify_Do env url "bytes=0-1") as [e | test]; [reflexivity |].
    destruct (StatusCode test =? StatusPartialContent); [| reflexivity].
    rewrite (rangedTransfer_override env url output size n 0); [reflexivity |].
    now rewrite !resolveWorkers_nonpositive by lia. }
  splits.
  - intros n w Hn. split; [now apply Hdf |].
    unfold downloadCmd. now rewrite (Hdf n w Hn).
  - apply resolveWorkers_nonpositive.
  - apply resolveWorkers_positive.
  - intros size n Hs Hn. rewrite resolveWorkers_positive by lia.
    rewrite chunkPlan_length. lia.
  - intros n w resp test size workers Hok Har Hreq Hver Hst Hcr Hsz Htr Hw w1.
    assert (Hres : resolveWorkers size n = workers).
    { destruct Hw as [(Hn & ->) | (Hn & ->)].
      - now apply resolveWorkers_positive.
      - now apply resolveWorkers_nonpositive. }
    assert (Hpos : 1 <= workers).
    { destruct Hw as [(Hn & ->) | (Hn & ->)]; [lia |].
      apply calculateWorkers_pos. }
    assert (Hrun : downloadFile env url output n w =
                   runTasks env url output 0 (chunkPlan size workers) w1).
    { rewrite (downloadFile_after_head env url output n w resp size Hok). cbn zeta.
      rewrite Har. change (String.eqb "bytes" "bytes") with true. cbn [negb].
      rewrite Hreq, Hver, Hst. cbn [Z.eqb StatusPartialContent Pos.eqb].
      rewrite (rangedTransfer_steps env url output size n _ Hcr Hsz Htr), Hres.
      unfold w1, logged. cbn [fs bar log]. rewrite <- !app_assoc. reflexivity. }
    assert (Hlen : Z.of_nat (List.length (chunkPlan size workers)) = workers)
      by (rewrite chunkPlan_length; lia).
    splits; [exact Hrun | exact Hlen |].
    rewrite Hrun.
    destruct (runTasks_attempts env url output (chunkPlan size workers) 0%nat w1)
      as (evs & Hl & Hc).
    exists evs. rewrite Hlen in Hc. auto.
Qed.

Lemma worker_override_semantics_witness :
  let env := env_two_bytes 4 in
  chunkPlan 2 4 = [(0, -1); (0, -1); (0, -1); (0, 1)] /\
  exists w1 evs,
    downloadFile env "u" "out" 4 w0 = runTasks env "u" "out" 0 (chunkPlan 2 4) w1 /\
    In (EvPrint (MsgUsingWorkers 4)) (log w1) /\
    log (snd (downloadFile env "u" "out" 4 w0)) = log w1 ++ evs /\
    4 <= attempts evs.
Proof.
  intros env. split; [reflexivity |].
  destruct (proj2 (proj2 (proj2 (proj2 (worker_override_semantics env "u" "out"))))
              4 w0 (head_ranges "2") (mkResponse 206 [] 2 []) 2 4)
    as (H1 & _ & evs & H3 & H4 & _).
  - repeat split; reflexivity.
  - reflexivity.
  - reflexivity.
  - reflexivity.
  - reflexivity.
  - reflexivity.
  - lia.
  - reflexivity.
  - left. split; [lia | reflexivity].
  - eexists. exists evs. split; [exact H1 |]. split; [| split; [exact H3 | exact H4]].
    cbn [log w0 app]. simpl. tauto.
Defined.

(** ** One chunk: what its goroutine leaves behind *)

Section Chunk.
Variables (env : Env) (pe : nat -> PartEnv) (url output : string)
          (data : list byte) (start end_ : Z).
Hypothesis Hreq : http_NewRequest env url = None.

Let range := rangeHeader start end_.

Lemma downloadPart_refused (pe0 : PartEnv) (w : World) :
  refused pe0 url range ->
  exists err,
    downloadPart env pe0 url output start end_ w =
      (inl err, logged w [EvNewRequest "GET" url; EvDo url range]).
Proof.
  unfold refused, downloadPart. fold range. munfold. simpl. rewrite Hreq. simpl.
  unfold logged. rewrite <- app_assoc. simpl.
  destruct (pe_Do pe0 url range) as [e | resp]; simpl; intros H.
  - exists e. reflexivity.
  - destruct (Z.eqb_spec (StatusCode resp) StatusPartialContent); [contradiction |].
    simpl. eexists. reflexivity.
Qed.

Lemma downloadPart_served (pe0 : PartEnv) (w : World) (c : list byte) :
  served pe0 url data start end_ ->
  fs w output = Some c -> 0 <= start <= len c ->
  let r := downloadPart env pe0 url output start end_ w in
  fst r = inr tt /\
  fs (snd r) output = Some (write_at c start (slice data start end_)) /\
  (forall p, p <> output -> fs (snd r) p = fs w p) /\
  exists tail,
    log (snd r) = log w ++ EvNewRequest "GET" url :: tail /\
    forallb (attempt_event url range) tail = true.
Proof.
  intros (resp & Hdo & Hst & Heof & Hdel & Hopen & Hseek & Hwr) Hf Hs r.
  destruct (downloadPart_log env url output start end_ pe0 w) as (tail & Hl & Hq & _).
  fold r in Hl.
  assert (Hr : fst r = inr tt /\
               fs (snd r) output = Some (write_at c start (slice data start end_)) /\
               (forall p, p <> output -> fs (snd r) p = fs w p)).
  { unfold r, downloadPart. fold range. munfold. simpl.
    rewrite Hreq. simpl. unfold range. rewrite Hdo. simpl. rewrite Hst. simpl.
    rewrite Hf. simpl. rewrite Hopen. simpl.
    destruct (Z.ltb_spec start 0); [lia |]. rewrite Hseek. simpl.
    match goal with |- context [copyLoop ?we ?p ?k ?o ?rd ?w1] =>
      destruct (copyLoop_clean we p Hwr rd k o w1 c Hf Hs) as (R1 & R2 & R3 & _)
    end.
    rewrite R1, R2, Hdel. unfold copy_outcome. unfold ends_in_EOF in Heof.
    split; [destruct (first_read_error (Body resp)); [rewrite Heof |]; reflexivity |].
    split; [reflexivity |]. exact R3. }
  destruct Hr as (R1 & R2 & R3). splits; auto.
  exists tail. auto.
Qed.

(** Refused [k - r] more times, then served. *)
Lemma retryLoop_recovers (k : nat) :
  Z.of_nat k <= maxRetries ->
  served (pe k) url data start end_ ->
  forall (d r : nat), (r + d = k)%nat ->
  (forall j, (r <= j < k)%nat -> refused (pe j) url range) ->
  forall w c, fs w output = Some c -> 0 <= start <= len c ->
  let w' := retryLoop env pe url output start end_ (Z.of_nat r) w in
  fs w' output = Some (write_at c start (slice data start end_)) /\
  (forall p, p <> output -> fs w' p = fs w p) /\
  exists evs,
    log w' = log w ++ evs /\
    attempts evs = Z.of_nat d + 1 /\ sleeps evs = Z.of_nat d /\
    (forall err, ~ In (EvPrint (MsgPartFailed start end_ maxRetries err)) evs).
Proof.
  intros Hk Hserved. induction d as [| d IH]; intros r Hrd Href w c Hf Hs w'.
  - assert (r = k) as -> by lia.
    unfold w'. rewrite retryLoop_step, Nat2Z.id.
    destruct (downloadPart_served (pe k) w c Hserved Hf Hs)
      as (R1 & R2 & R3 & tail & Hl & Hq).
    destruct (attempt_tail_counts url start end_ tail Hq) as (A & B).
    destruct (downloadPart env (pe k) url output start end_ w) as [[e | []] w1];
      [discriminate |]. simpl in *. splits; auto.
    exists (EvNewRequest "GET" url :: tail). unfold attempts, sleeps in *.
    rewrite !count_cons, A, B. splits; auto.
    intros err [He | He]; [discriminate |].
    apply (attempt_tail_In url start end_ tail _ Hq) in He. discriminate.
  - unfold w'. rewrite retryLoop_step, Nat2Z.id.
    destruct (downloadPart_refused (pe r) w (Href r ltac:(lia))) as (err & ->).
    destruct (Z.gtb_spec (Z.of_nat r + 1) maxRetries) as [Hgt | Hle]; [lia |].
    replace (Z.of_nat r + 1) with (Z.of_nat (S r)) by lia.
    match goal with |- context [retryLoop _ _ _ _ _ _ _ ?w2] =>
      destruct (IH (S r) ltac:(lia) ltac:(intros; apply Href; lia) w2 c Hf Hs)
        as (R2 & R3 & evs & Hl & A & B & F) end.
    splits; auto.
    exists ([EvNewRequest "GET" url; EvDo url range;
             EvPrint (MsgRetrying start end_ (Z.of_nat (S r)));
             EvSleep retryBackoff] ++ evs).
    unfold attempts, sleeps in *. rewrite !count_app, A, B.
    splits.
    + rewrite Hl. simpl. rewrite <- !app_assoc. reflexivity.
    + rewrite !count_cons. cbn [is_NewRequest]. unfold count at 1. simpl List.length. lia.
    + rewrite !count_cons. cbn [is_Sleep]. unfold count at 1. simpl List.length. lia.
    + intros e He. apply in_app_or in He as [He | He]; [| exact (F e He)].
      simpl in He. destruct He as [He | [He | [He | [He | []]]]]; discriminate.
Qed.

(** Refused at every attempt that is left. *)
Lemma retryLoop_exhausted :
  forall (d r : nat), Z.of_nat (r + d) = maxRetries ->
  (forall j, (r <= j)%nat -> Z.of_nat j <= maxRetries -> refused (pe j) url range) ->
  forall w,
  let w' := retryLoop env pe url output start end_ (Z.of_nat r) w in
  fs w' = fs w /\
  exists evs err,
    log w' = log w ++ evs ++ [EvPrint (MsgPartFailed start end_ maxRetries err)] /\
    attempts evs = Z.of_nat d + 1 /\ sleeps evs = Z.of_nat d.
Proof.
  induction d as [| d IH]; intros r Hrd Href w w'.
  - unfold w'. rewrite retryLoop_step, Nat2Z.id.
    destruct (downloadPart_refused (pe r) w (Href r ltac:(lia) ltac:(lia))) as (err & ->).
    destruct (Z.gtb_spec (Z.of_nat r + 1) maxRetries) as [Hgt | Hle]; [| lia].
    split; [reflexivity |].
    exists [EvNewRequest "GET" url; EvDo url range], err.
    splits; try reflexivity. simpl. now rewrite <- app_assoc.
  - unfold w'. rewrite retryLoop_step, Nat2Z.id.
    destruct (downloadPart_refused (pe r) w (Href r ltac:(lia) ltac:(lia))) as (err & ->).
    destruct (Z.gtb_spec (Z.of_nat r + 1) maxRetries) as [Hgt | Hle]; [lia |].
    replace (Z.of_nat r + 1) with (Z.of_nat (S r)) by lia.
    match goal with |- context [retryLoop _ _ _ _ _ _ _ ?w2] =>
      destruct (IH (S r) ltac:(lia) ltac:(intros; apply Href; lia) w2)
        as (R & evs & err' & Hl & A & B) end.
    split; [rewrite R; reflexivity |].
    exists ([EvNewRequest "GET" url; EvDo url range;
             EvPrint (MsgRetrying start end_ (Z.of_nat (S r)));
             EvSleep retryBackoff] ++ evs), err'.
    unfold attempts, sleeps in *. rewrite !count_app, A, B.
    splits.
    + rewrite Hl. simpl. rewrite <- !app_assoc. reflexivity.
    + rewrite !count_cons. cbn [is_NewRequest]. unfold count at 1. simpl List.length. lia.
    + rewrite !count_cons. cbn [is_Sleep]. unfold count at 1. simpl List.length. lia.
Qed.
End Chunk.

Ltac solve_refused :=
  unfold refused; vm_compute; congruence.

Ltac solve_served :=
  eexists; splits; try reflexivity.

(** ** The outcome of the ranged transfer *)

(** C1.  The code at a failing input: ten bytes, two workers, the second
    chunk answered 503 at each of its four attempts.  The goroutine prints
    its failure message and ends; [downloadFile] returns [nil], the
    command prints the success message and the exit status is 0, with the
    range 5-9 of the file left as zeros. *)
Theorem exhausted_chunk_is_reported_as_success :
  let run := downloadFile env_second_chunk_down "u" "out" 2 w0 in
  let cmd := downloadCmd env_second_chunk_down "u" "out" 2 w0 in
  log (snd run) =
    [EvHead "u"; EvNewRequest "GET" "u"; EvDo "u" "bytes=0-1";
     EvPrint (MsgFileSize 10); EvPrint (MsgUsingWorkers 2);
     EvCreate "out"; EvTruncate "out" 10; EvBarNew 10;
     EvNewRequest "GET" "u"; EvDo "u" "bytes=0-4";
     EvOpenFile "out"; EvSeek "out" 0;
     EvWrite "out" 0 [x61; x62; x63; x64; x65]; EvBarAdd 5;
     EvNewRequest "GET" "u"; EvDo "u" "bytes=5-9";
     EvPrint (MsgRetrying 5 9 1); EvSleep retryBackoff;
     EvNewRequest "GET" "u"; EvDo "u" "bytes=5-9";
     EvPrint (MsgRetrying 5 9 2); EvSleep retryBackoff;
     EvNewRequest "GET" "u"; EvDo "u" "bytes=5-9";
     EvPrint (MsgRetrying 5 9 3); EvSleep retryBackoff;
     EvNewRequest "GET" "u"; EvDo "u" "bytes=5-9";
     EvPrint (MsgPartFailed 5 9 maxRetries (NoPartialContent 503))] /\
  fst run = inr tt /\
  fs (snd run) "out" = Some ([x61; x62; x63; x64; x65] ++ repeat zero 5) /\
  fst cmd = 0 /\
  log (snd cmd) = log (snd run) ++ [EvStat "out"; EvPrint MsgCompleted].
Proof. cbv zeta. splits; vm_compute; reflexivity. Qed.




(* ===================================================================== *)
(** * Further properties of the code *)
(* ===================================================================== *)

(** ** Writes inside a file *)

Lemma write_at_within (c : list byte) (off : Z) (d : list byte) :
  0 <= off -> off + len d <= len c ->
  len (write_at c off d) = len c /\
  forall i,
    nth_error (write_at c off d) i =
      if (Z.to_nat off <=? i)%nat && (i <? Z.to_nat off + List.length d)%nat
      then nth_error d (i - Z.to_nat off)
      else nth_error c i.
Proof.
  intros H0 H1.
  assert (Hin : 0 <= off <= len c) by (unfold len in *; lia).
  split.
  - rewrite write_at_inside by exact Hin. unfold len in *.
    rewrite !length_app, firstn_length_le, length_skipn by lia. lia.
  - intros i.
    destruct (Nat.leb_spec (Z.to_nat off) i) as [Hle | Hlt]; cbn [andb].
    + destruct (Nat.ltb_spec i (Z.to_nat off + List.length d)) as [Hi | Hi].
      * rewrite write_at_inside by exact Hin.
        assert (Hn : List.length (firstn (Z.to_nat off) c) = Z.to_nat off)
          by (apply firstn_length_le; unfold len in *; lia).
        rewrite nth_error_app2 by lia. rewrite Hn.
        apply nth_error_app1. lia.
      * apply write_at_beyond; [exact Hin |]. unfold len. lia.
    + rewrite write_at_inside by exact Hin.
      assert (Hn : List.length (firstn (Z.to_nat off) c) = Z.to_nat off)
        by (apply firstn_length_le; unfold len in *; lia).
      rewrite nth_error_app1 by lia. rewrite nth_error_firstn.
      destruct (Nat.ltb_spec i (Z.to_nat off)); [reflexivity | lia].
Qed.

Lemma slice_length (data : list byte) (s e : Z) :
  0 <= s -> s <= e + 1 -> e + 1 <= len data ->
  len (slice data s e) = e - s + 1.
Proof.
  intros H0 H1 H2. unfold slice, len in *.
  rewrite firstn_length_le by (rewrite length_skipn; lia). lia.
Qed.

Lemma slice_nth (data : list byte) (s e : Z) (i : nat) :
  0 <= s -> Z.of_nat i < e - s + 1 ->
  nth_error (slice data s e) i = nth_error data (Z.to_nat s + i).
Proof.
  intros H0 Hi. unfold slice. rewrite nth_error_firstn.
  destruct (Nat.ltb_spec i (Z.to_nat (e - s + 1))); [| lia].
  apply nth_error_skipn.
Qed.

(** ** All chunks: what the tasks leave in the file, in any order *)

Lemma runTasks_in_launch_order env url output plan :
  forall rest i w, skipn i plan = rest ->
    runTasks env url output i rest w =
    runTasksIn env url output plan (seq i (List.length rest)) w.
Proof.
  induction rest as [| [s e] rest IH]; intros i w Hsk; [reflexivity |].
  cbn [runTasks List.length seq runTasksIn].
  assert (Hn : nth_error plan i = Some (s, e)).
  { pose proof (nth_error_skipn i plan 0) as H. rewrite Hsk, Nat.add_0_r in H.
    now rewrite <- H. }
  assert (Hs : skipn (S i) plan = rest).
  { change (S i) with (1 + i)%nat. rewrite <- skipn_skipn, Hsk. reflexivity. }
  rewrite Hn. unfold bind.
  destruct (chunkTask env (part_env env i) url output s e w) as [[err | []] w1];
    [reflexivity |].
  apply IH. exact Hs.
Qed.

Section Assemble.
Variables (env : Env) (url output : string) (data : list byte)
          (size workers : Z) (ok : nat -> bool) (w0 : World).
Hypothesis Hsize : 0 <= size <= GoInt.max_int.
Hypothesis Hworkers : 1 <= workers <= GoInt.max_int.
Hypothesis Hdata : len data = size.
Hypothesis Hreq : http_NewRequest env url = None.

Let plan := chunkPlan size workers.

Hypothesis Hok : forall i s e, nth_error plan i = Some (s, e) ->
  if ok i then exists k, recovers (part_env env i) url data s e k
  else exhausted (part_env env i) url s e.

(** The state of the file once the chunks in [done] have run. *)
Let Inv (done : list nat) (w : World) : Prop :=
  (forall p, p <> output -> fs w p = fs w0 p) /\
  exists c,
    fs w output = Some c /\ len c = size /\
    forall i r off, nth_error plan i = Some r -> covers r off ->
      nth_error c (Z.to_nat off) =
        if existsb (Nat.eqb i) done && ok i
        then nth_error data (Z.to_nat off) else Some zero.

Lemma plan_range_bounds (i : nat) (s e : Z) :
  nth_error plan i = Some (s, e) -> 0 <= s /\ s <= e + 1 /\ e + 1 <= size.
Proof.
  intros Hn. apply (plan_nth size workers Hsize Hworkers) in Hn as [Hi [= -> ->]].
  pose proof (q_bounds size workers Hsize Hworkers) as (Hq0 & Hq1 & Hq2).
  destruct (Z.eqb_spec (Z.of_nat i) (workers - 1)); nia.
Qed.

Lemma chunk_step (done : list nat) (w : World) (j : nat) (s e : Z) :
  Inv done w -> nth_error plan j = Some (s, e) ->
  Inv (j :: done) (snd (chunkTask env (part_env env j) url output s e w)).
Proof.
  intros (Hoth & c & Hf & Hlen & Hpt) Hj.
  destruct (plan_range_bounds j s e Hj) as (Hs0 & Hs1 & Hs2).
  pose proof (Hok j s e Hj) as Hokj.
  unfold chunkTask. cbn [snd].
  destruct (ok j) eqn:Hoj.
  - destruct Hokj as (k & Hk & Href & Hsv).
    destruct (retryLoop_recovers env (part_env env j) url output data s e Hreq k
                Hk Hsv k 0%nat eq_refl ltac:(intros; apply Href; lia) w c Hf
                ltac:(lia)) as (R2 & R3 & _).
    change (Z.of_nat 0) with 0 in *.
    assert (Hpl : len (slice data s e) = e - s + 1)
      by (apply slice_length; lia).
    destruct (write_at_within c s (slice data s e) Hs0 ltac:(lia)) as (Wl & Wn).
    split; [intros p Hp; rewrite R3 by exact Hp; now apply Hoth |].
    exists (write_at c s (slice data s e)). splits; [exact R2 | lia |].
    intros i r off Hi Hc. rewrite Wn.
    destruct (plan_covers_inv size workers Hsize Hworkers i r off Hi Hc) as [Hoff Ei].
    unfold len in Hpl.
    destruct (Nat.leb_spec (Z.to_nat s) (Z.to_nat off)) as [Hle | Hlt]; cbn [andb].
    + destruct (Nat.ltb_spec (Z.to_nat off) (Z.to_nat s + List.length (slice data s e)))
        as [Hw | Hw].
      * assert (Hcj : covers (s, e) off) by (unfold covers; simpl; lia).
        destruct (plan_covers_inv size workers Hsize Hworkers j (s, e) off Hj Hcj)
          as [_ Ej].
        assert (i = j) as -> by lia.
        cbn [existsb]. rewrite Nat.eqb_refl, Hoj. cbn [orb andb].
        rewrite slice_nth by lia. f_equal. lia.
      * assert (i <> j).
        { intros ->. rewrite Hj in Hi. injection Hi as <-.
          unfold covers in Hc. simpl in Hc. lia. }
        cbn [existsb]. destruct (Nat.eqb_spec i j); [contradiction |].
        cbn [orb]. exact (Hpt i r off Hi Hc).
    + assert (i <> j).
      { intros ->. rewrite Hj in Hi. injection Hi as <-.
        unfold covers in Hc. simpl in Hc. lia. }
      cbn [existsb]. destruct (Nat.eqb_spec i j); [contradiction |].
      cbn [orb]. exact (Hpt i r off Hi Hc).
  - destruct (retryLoop_exhausted env (part_env env j) url output s e Hreq
                (Z.to_nat maxRetries) 0%nat eq_refl
                ltac:(intros; apply Hokj; assumption) w) as (R & _).
    change (Z.of_nat 0) with 0 in *.
    split; [intros p Hp; rewrite R; now apply Hoth |].
    exists c. rewrite R. splits; auto.
    intros i r off Hi Hc. rewrite (Hpt i r off Hi Hc).
    cbn [existsb]. destruct (Nat.eqb_spec i j) as [-> | Hne]; cbn [orb].
    + rewrite Hoj, !andb_false_r. reflexivity.
    + reflexivity.
Qed.

Lemma runTasksIn_inv (order : list nat) :
  forall done w, Inv done w ->
    fst (runTasksIn env url output plan order w) = inr tt /\
    Inv (rev order ++ done) (snd (runTasksIn env url output plan order w)).
Proof.
  induction order as [| j order IH]; intros done w HI; [auto |].
  cbn [runTasksIn rev]. rewrite <- app_assoc. cbn [app].
  destruct (nth_error plan j) as [[s e] |] eqn:Hj.
  - pose proof (chunk_step done w j s e HI Hj) as Hstep.
    unfold bind.
    destruct (chunkTask env (part_env env j) url output s e w) as [[err | []] w1] eqn:Hc;
      [discriminate |].
    apply IH. exact Hstep.
  - destruct (IH done w HI) as (R1 & Hoth & c & Hf & Hlen & Hpt).
    split; [exact R1 |]. split; [exact Hoth |]. exists c. splits; auto.
    intros i r off Hi Hc. rewrite (Hpt i r off Hi Hc).
    rewrite !existsb_app. cbn [existsb].
    destruct (Nat.eqb_spec i j) as [-> | Hne]; [congruence |]. reflexivity.
Qed.

(** The file once every chunk has run: the bytes of the resource where the
    chunk recovered, zeros where it was exhausted. *)
Let Assembled (c : list byte) : Prop :=
  len c = size /\
  forall i r off, nth_error plan i = Some r -> covers r off ->
    nth_error c (Z.to_nat off) =
      if ok i then nth_error data (Z.to_nat off) else Some zero.

Lemma runTasksIn_assembles (order : list nat) (w : World) :
  (forall i, (i < List.length plan)%nat -> In i order) ->
  (forall p, p <> output -> fs w p = fs w0 p) ->
  fs w output = Some (repeat zero (Z.to_nat size)) ->
  let r := runTasksIn env url output plan order w in
  fst r = inr tt /\
  (forall p, p <> output -> fs (snd r) p = fs w0 p) /\
  exists c, fs (snd r) output = Some c /\ Assembled c.
Proof.
  intros Hall Hoth Hf r.
  assert (HI : Inv [] w).
  { split; [exact Hoth |]. exists (repeat zero (Z.to_nat size)).
    splits; [exact Hf | unfold len; rewrite repeat_length; lia |].
    intros i rg off Hi Hc. cbn [existsb andb].
    destruct (plan_covers_inv size workers Hsize Hworkers i rg off Hi Hc) as [Hoff _].
    apply nth_error_repeat. lia. }
  destruct (runTasksIn_inv order [] w HI) as (R1 & R2 & c & Hc & Hlen & Hpt).
  fold r in R1, R2, Hc. splits; auto.
  exists c. split; [exact Hc |]. split; [exact Hlen |].
  intros i rg off Hi Hcov. rewrite (Hpt i rg off Hi Hcov).
  replace (existsb (Nat.eqb i) (rev order ++ [])) with true; [reflexivity |].
  symmetry. apply existsb_exists. exists i. split; [| apply Nat.eqb_refl].
  rewrite app_nil_r, <- in_rev. apply Hall.
  apply (proj1 (nth_error_Some plan i)). rewrite Hi. discriminate.
Qed.

Lemma Assembled_unique (c1 c2 : list byte) :
  Assembled c1 -> Assembled c2 -> c1 = c2.
Proof.
  intros (L1 & P1) (L2 & P2). apply nth_error_ext. intros n.
  destruct (Z_lt_ge_dec (Z.of_nat n) size) as [Hn | Hn].
  - destruct (plan_covers size workers Hsize Hworkers (Z.of_nat n) ltac:(lia))
      as (i & r & Hi & Hc).
    pose proof (P1 i r _ Hi Hc) as E1. pose proof (P2 i r _ Hi Hc) as E2.
    rewrite Nat2Z.id in E1, E2. congruence.
  - unfold len in *.
    rewrite (proj2 (nth_error_None c1 n)), (proj2 (nth_error_None c2 n)) by lia.
    reflexivity.
Qed.

Lemma Assembled_data (c : list byte) :
  (forall i, (i < List.length plan)%nat -> ok i = true) ->
  Assembled c -> c = data.
Proof.
  intros Hall (L & P). apply nth_error_ext. intros n.
  destruct (Z_lt_ge_dec (Z.of_nat n) size) as [Hn | Hn].
  - destruct (plan_covers size workers Hsize Hworkers (Z.of_nat n) ltac:(lia))
      as (i & r & Hi & Hc).
    pose proof (P i r _ Hi Hc) as E. rewrite Nat2Z.id in E.
    assert (Hoki : ok i = true).
    { apply Hall. apply (proj1 (nth_error_Some plan i)). unfold plan. rewrite Hi. discriminate. }
    now rewrite Hoki in E.
  - unfold len in *.
    rewrite (proj2 (nth_error_None c n)), (proj2 (nth_error_None data n)) by lia.
    reflexivity.
Qed.
End Assemble.

(** ** The ranged transfer, end to end *)

Lemma bind_ret_tt (m : M unit) (w : World) : (m ;; ret tt)%go w = m w.
Proof. unfold bind, ret. now destruct (m w) as [[e | []] w']. Qed.

Lemma rangedTransfer_setup env url output size n w :
  os_Create env output = None ->
  0 <= size ->
  file_Truncate env size = None ->
  exists w1,
    rangedTransfer env url output size n w =
      runTasks env url output 0 (chunkPlan size (resolveWorkers size n)) w1 /\
    fs w1 output = Some (repeat zero (Z.to_nat size)) /\
    (forall p, p <> output -> fs w1 p = fs w p).
Proof.
  intros Hc Hs Ht. unfold rangedTransfer. munfold. simpl.
  rewrite Hc. simpl. destruct (Z.ltb_spec size 0); [lia |]. rewrite Ht. simpl.
  rewrite fs_set_same. simpl.
  eexists. split; [apply bind_ret_tt |]. simpl. split.
  - rewrite fs_set_same. unfold resize. rewrite firstn_nil. simpl.
    now rewrite Nat.sub_0_r.
  - intros p Hp. now rewrite !fs_set_other.
Qed.

Section Transfer.
Variables (env : Env) (url output : string) (n : Z) (w : World)
          (resp test : Response) (data : list byte) (ok : nat -> bool).

Let size := len data.
Let plan := chunkPlan size (resolveWorkers size n).

Hypothesis Hhead : HeadOK env url resp size.
Hypothesis Hadv : Header_Get (Header resp) "Accept-Ranges" = "bytes".
Hypothesis Hreq : http_NewRequest env url = None.
Hypothesis Htest : verify_Do env url "bytes=0-1" = inr test.
Hypothesis Hstatus : StatusCode test = StatusPartialContent.
Hypothesis Hcreate : os_Create env output = None.
Hypothesis Htrunc : file_Truncate env size = None.
Hypothesis Hfit : size <= GoInt.max_int.
Hypothesis Hn : n <= GoInt.max_int.
Hypothesis Hok : forall i s e, nth_error plan i = Some (s, e) ->
  if ok i then exists k, recovers (part_env env i) url data s e k
  else exhausted (part_env env i) url s e.

Lemma downloadFile_assembles :
  let r := downloadFile env url output n w in
  fst r = inr tt /\
  (forall p, p <> output -> fs (snd r) p = fs w p) /\
  exists c,
    fs (snd r) output = Some c /\ len c = size /\
    forall i rg off, nth_error plan i = Some rg -> covers rg off ->
      nth_error c (Z.to_nat off) =
        if ok i then nth_error data (Z.to_nat off) else Some zero.
Proof.
  assert (Hsz : 0 <= size <= GoInt.max_int) by (unfold size, len in *; lia).
  pose proof (resolveWorkers_pos size n Hn) as Hw.
  cbn zeta.
  rewrite (downloadFile_after_head env url output n w resp size Hhead). cbn zeta.
  rewrite Hadv. change (String.eqb "bytes" "bytes") with true. cbn [negb].
  rewrite Hreq, Htest, Hstatus. cbn [Z.eqb StatusPartialContent Pos.eqb].
  match goal with |- context [rangedTransfer _ _ _ _ _ ?w3] =>
    destruct (rangedTransfer_setup env url output size n w3 Hcreate
                ltac:(lia) Htrunc) as (w1 & -> & Hf & Hoth) end.
  fold plan.
  rewrite (runTasks_in_launch_order env url output plan plan 0 w1 eq_refl).
  destruct (runTasksIn_assembles env url output data size (resolveWorkers size n)
              ok w Hsz Hw eq_refl Hreq Hok
              (seq 0 (List.length plan)) w1
              ltac:(intros i Hi; apply in_seq; unfold plan; lia) Hoth Hf)
    as (R1 & R2 & c & Hc & Hlen & Hpt).
  fold plan in R1, R2, Hc.
  destruct (runTasksIn env url output plan (seq 0 (List.length plan)) w1)
    as [[err | []] w2]; [discriminate |].
  cbn [fst snd ret] in *.
  split; [reflexivity |]. split; [exact R2 |]. exists c. splits; auto.
Qed.
End Transfer.


(** X1.  Round trip of the ranged transfer.  When the probe passes, the
    destination can be created and pre-sized, and every chunk of the plan
    is served the bytes of its range, at once or after up to [maxRetries]
    refused attempts, [downloadFile] returns [nil], the destination holds
    exactly the bytes of the resource and no other file is changed.  This
    holds for every worker count, from the heuristic or from the override,
    also one larger than the size. *)
Theorem ranged_transfer_round_trip (env : Env) (url output : string) (n : Z)
    (w : World) (resp test : Response) (data : list byte) :
  HeadOK env url resp (len data) ->
  Header_Get (Header resp) "Accept-Ranges" = "bytes" ->
  http_NewRequest env url = None ->
  verify_Do env url "bytes=0-1" = inr test ->
  StatusCode test = StatusPartialContent ->
  os_Create env output = None ->
  file_Truncate env (len data) = None ->
  len data <= GoInt.max_int ->
  n <= GoInt.max_int ->
  (forall i s e,
     nth_error (chunkPlan (len data) (resolveWorkers (len data) n)) i = Some (s, e) ->
     exists k, recovers (part_env env i) url data s e k) ->
  fst (downloadFile env url output n w) = inr tt /\
  fs (snd (downloadFile env url output n w)) output = Some data /\
  (forall p, p <> output -> fs (snd (downloadFile env url output n w)) p = fs w p).
Proof.
  intros Hhead Hadv Hreq Htest Hst Hcr Htr Hfit Hn Hrec.
  destruct (downloadFile_assembles env url output n w resp test data (fun _ => true)
              Hhead Hadv Hreq Htest Hst Hcr Htr Hfit Hn Hrec)
    as (R1 & R2 & c & Hc & Hlen & Hpt).
  splits; auto. rewrite Hc. f_equal.
  apply (Assembled_data data (len data) (resolveWorkers (len data) n) (fun _ => true));
    try reflexivity.
  - unfold len in *. lia.
  - apply resolveWorkers_pos. exact Hn.
  - split; [exact Hlen | exact Hpt].
Qed.


Lemma ranged_transfer_round_trip_witness :
  chunkPlan 10 3 = [(0, 2); (3, 5); (6, 9)] /\
  fst (downloadFile (env_serving ten_bytes 3 flaky_second) "u" "out" 3 w0) = inr tt /\
  fs (snd (downloadFile (env_serving ten_bytes 3 flaky_second) "u" "out" 3 w0)) "out"
    = Some ten_bytes.
Proof.
  split; [reflexivity |].
  destruct (ranged_transfer_round_trip (env_serving ten_bytes 3 flaky_second)
              "u" "out" 3 w0 (head_ranges "10") (mkResponse 206 [] 2 []) ten_bytes)
    as (H1 & H2 & _); auto.
  - repeat split; reflexivity.
  - vm_compute. congruence.
  - vm_compute. congruence.
  - intros i s e H.
    assert (Hi : (i < 3)%nat).
    { change 3%nat with
        (List.length (chunkPlan (len ten_bytes) (resolveWorkers (len ten_bytes) 3))).
      apply (proj1 (nth_error_Some _ i)). rewrite H. discriminate. }
    destruct i as [| [| [| i]]]; [| | | lia]; vm_compute in H;
      injection H as <- <-.
    + exists 0%nat. split; [vm_compute; congruence |]. split; [lia |]. solve_served.
    + exists 2%nat. split; [vm_compute; congruence |]. split.
      * intros j Hj. destruct j as [| [| j]]; [solve_refused | solve_refused | lia].
      * solve_served.
    + exists 0%nat. split; [vm_compute; congruence |]. split; [lia |]. solve_served.
Defined.

(** X2.  What an exhausted chunk leaves behind.  When each chunk of the
    plan either recovers within its attempts or is refused at all
    [maxRetries + 1] of them, [downloadFile] still returns [nil]; the
    destination has the length of the resource, holds the bytes of the
    resource in the range of every chunk that recovered and zeros in the
    range of every chunk that was exhausted. *)
Theorem exhausted_chunk_leaves_zeros (env : Env) (url output : string) (n : Z)
    (w : World) (resp test : Response) (data : list byte) (ok : nat -> bool) :
  HeadOK env url resp (len data) ->
  Header_Get (Header resp) "Accept-Ranges" = "bytes" ->
  http_NewRequest env url = None ->
  verify_Do env url "bytes=0-1" = inr test ->
  StatusCode test = StatusPartialContent ->
  os_Create env output = None ->
  file_Truncate env (len data) = None ->
  len data <= GoInt.max_int ->
  n <= GoInt.max_int ->
  (forall i s e,
     nth_error (chunkPlan (len data) (resolveWorkers (len data) n)) i = Some (s, e) ->
     if ok i then exists k, recovers (part_env env i) url data s e k
     else exhausted (part_env env i) url s e) ->
  fst (downloadFile env url output n w) = inr tt /\
  exists c,
    fs (snd (downloadFile env url output n w)) output = Some c /\
    len c = len data /\
    forall i rg off,
      nth_error (chunkPlan (len data) (resolveWorkers (len data) n)) i = Some rg ->
      covers rg off ->
      nth_error c (Z.to_nat off) =
        if ok i then nth_error data (Z.to_nat off) else Some zero.
Proof.
  intros Hhead Hadv Hreq Htest Hst Hcr Htr Hfit Hn Hok.
  destruct (downloadFile_assembles env url output n w resp test data ok
              Hhead Hadv Hreq Htest Hst Hcr Htr Hfit Hn Hok)
    as (R1 & _ & c & Hc & Hlen & Hpt).
  split; [exact R1 |]. exists c. auto.
Qed.

Lemma exhausted_chunk_leaves_zeros_witness :
  fst (downloadFile (env_serving ten_bytes 3 dead_second) "u" "out" 3 w0) = inr tt /\
  exists c,
    fs (snd (downloadFile (env_serving ten_bytes 3 dead_second) "u" "out" 3 w0)) "out"
      = Some c /\
    len c = 10 /\
    nth_error c 4 = Some zero /\ nth_error c 7 = Some x68.
Proof.
  destruct (exhausted_chunk_leaves_zeros (env_serving ten_bytes 3 dead_second)
              "u" "out" 3 w0 (head_ranges "10") (mkResponse 206 [] 2 []) ten_bytes
              all_but_second)
    as (H1 & c & Hc & Hlen & Hpt); auto.
  - repeat split; reflexivity.
  - vm_compute. congruence.
  - vm_compute. congruence.
  - intros i s e H.
    assert (Hi : (i < 3)%nat).
    { change 3%nat with
        (List.length (chunkPlan (len ten_bytes) (resolveWorkers (len ten_bytes) 3))).
      apply (proj1 (nth_error_Some _ i)). rewrite H. discriminate. }
    destruct i as [| [| [| i]]]; [| | | lia]; vm_compute in H;
      injection H as <- <-; cbn [all_but_second Nat.eqb negb].
    + exists 0%nat. split; [vm_compute; congruence |]. split; [lia |]. solve_served.
    + intros j Hj. assert (Hj4 : (j < 4)%nat) by (unfold maxRetries in Hj; lia).
      destruct j as [| [| [| [| j]]]]; [solve_refused .. | lia].
    + exists 0%nat. split; [vm_compute; congruence |]. split; [lia |]. solve_served.
  - split; [exact H1 |]. exists c. splits; auto.
    + exact (Hpt 1%nat (3, 5) 4 eq_refl ltac:(unfold covers; simpl; lia)).
    + exact (Hpt 2%nat (6, 9) 7 eq_refl ltac:(unfold covers; simpl; lia)).
Defined.

(** ** The goroutines run together *)

(** Run on its own, a goroutine does what [chunkTask] does. *)
Section Alone.
Variables (env : Env) (url output : string) (start end_ : Z).

Let result (r : error + unit) : option error :=
  match r with inl e => Some e | inr _ => None end.

Lemma runAlone_copySteps werr (return_ : option error -> Proc) (reads : list ReadResult) :
  forall k off w,
    runAlone (copySteps werr output k off reads return_) w =
    runAlone (return_ (result (fst (copyLoop werr output k off reads w))))
        (snd (copyLoop werr output k off reads w)).
Proof.
  induction reads as [| [buf err] rest IH]; intros k off w; [reflexivity |].
  cbn [copySteps copyLoop]. destruct (0 <? len buf).
  - unfold perform. cbn [runAlone]. munfold. simpl.
    destruct (werr k) as [e |]; simpl; [reflexivity |].
    destruct (fs w output); simpl.
    + destruct err as [e |]; [destruct (is_EOF e); reflexivity | apply IH].
    + destruct err as [e |]; [destruct (is_EOF e); reflexivity | apply IH].
  - munfold. simpl.
    destruct err as [e |]; [destruct (is_EOF e); reflexivity | apply IH].
Qed.

Lemma runAlone_partSteps (pe : PartEnv) (return_ : option error -> Proc) (w : World) :
  runAlone (partSteps env pe url output start end_ return_) w =
  runAlone (return_ (result (fst (downloadPart env pe url output start end_ w))))
      (snd (downloadPart env pe url output start end_ w)).
Proof.
  unfold partSteps, downloadPart, perform. cbn [runAlone]. munfold. simpl.
  destruct (http_NewRequest env url); simpl; [reflexivity |].
  destruct (pe_Do pe url (rangeHeader start end_)) as [e | resp]; simpl; [reflexivity |].
  destruct (negb (StatusCode resp =? StatusPartialContent)); simpl; [reflexivity |].
  destruct (fs w output); simpl; [| reflexivity].
  destruct (pe_OpenFile pe); simpl; [reflexivity |].
  destruct (start <? 0); simpl; [reflexivity |].
  destruct (pe_Seek pe); simpl; [reflexivity |].
  apply runAlone_copySteps.
Qed.

Lemma runAlone_retrySteps (pe : nat -> PartEnv) (fuel : nat) :
  forall r w, r <= maxRetries -> budget r = fuel ->
    runAlone (retrySteps fuel env pe url output start end_ r) w =
    retryLoop env pe url output start end_ r w.
Proof.
  induction fuel as [| fuel IH]; intros r w Hr Hb.
  - unfold budget, maxRetries in *. lia.
  - cbn [retrySteps]. rewrite runAlone_partSteps, retryLoop_step.
    destruct (downloadPart env (pe (Z.to_nat r)) url output start end_ w)
      as [[err | []] w1]; cbn [fst snd result]; [| reflexivity].
    destruct (Z.gtb_spec (r + 1) maxRetries) as [Hgt | Hle]; [reflexivity |].
    unfold perform. cbn [runAlone]. rewrite IH.
    + reflexivity.
    + lia.
    + unfold budget, maxRetries in *. lia.
Qed.

Lemma runAlone_goroutine (pe : nat -> PartEnv) (w : World) :
  runAlone (goroutine env pe url output start end_) w =
  snd (chunkTask env pe url output start end_ w).
Proof.
  unfold goroutine, chunkTask. cbn [snd].
  apply runAlone_retrySteps; [unfold maxRetries; lia | reflexivity].
Qed.
End Alone.

(** The run in launch order is one of the interleavings. *)
Lemma runAlone_interleaving (p : Proc) :
  forall ps1 ps2 w w2,
    Interleaving (ps1 ++ Halt :: ps2) (runAlone p w) w2 ->
    Interleaving (ps1 ++ p :: ps2) w w2.
Proof.
  induction p as [| act next IH]; intros ps1 ps2 w w2 H; [exact H |].
  apply IL_step. apply IH. exact H.
Qed.

Lemma launch_order_interleaving env url output plan :
  forall i halted w,
    Forall (fun p => p = Halt) halted ->
    Interleaving (halted ++ launch env url output i plan) w
      (snd (runTasks env url output i plan w)).
Proof.
  induction plan as [| [s e] rest IH]; intros i halted w Hh.
  - cbn. rewrite app_nil_r. now apply IL_wait.
  - cbn [launch runTasks]. apply runAlone_interleaving. rewrite runAlone_goroutine.
    unfold bind, chunkTask. cbn [snd].
    change (halted ++ Halt :: launch env url output (S i) rest)
      with (halted ++ [Halt] ++ launch env url output (S i) rest).
    rewrite app_assoc. apply IH.
    apply Forall_app. split; [exact Hh | repeat constructor].
Qed.

Lemma launch_nth env url output plan :
  forall i j s e,
    nth_error plan j = Some (s, e) ->
    nth_error (launch env url output i plan) j =
      Some (goroutine env (part_env env (i + j)) url output s e).
Proof.
  induction plan as [| [s0 e0] rest IH]; intros i j s e Hj; [now destruct j |].
  destruct j as [| j]; cbn [launch nth_error] in *.
  - injection Hj as -> ->. now rewrite Nat.add_0_r.
  - rewrite (IH (S i) j s e Hj).
    replace (S i + j)%nat with (i + S j)%nat by lia. reflexivity.
Qed.

Lemma launch_length env url output plan :
  forall i, List.length (launch env url output i plan) = List.length plan.
Proof.
  induction plan as [| [s e] rest IH]; intros i; cbn; [reflexivity |].
  now rewrite IH.
Qed.

Lemma Write_ok (path : string) (off : Z) (buf : list byte) (w : World)
    (c : list byte) :
  fs w path = Some c ->
  Write None path off buf w =
    (inr tt, mkWorld (fs_set (fs w) path (write_at c off buf)) (bar w)
               (log w ++ [EvWrite path off buf])).
Proof. intros Hf. unfold Write. munfold. simpl. now rewrite Hf. Qed.

(** What one goroutine writes. *)
Section Filling.
Variables (env : Env) (url output : string) (start end_ : Z) (target : list byte).
Hypothesis Hreq : http_NewRequest env url = None.

Let range := rangeHeader start end_.

(** A call that leaves the files alone. *)
Lemma Fills_quiet (done : nat) (act : World -> World) (next : World -> Proc) :
  (done <= List.length target)%nat ->
  (forall w, fs (act w) = fs w) ->
  (forall w c, fs w output = Some c -> 0 <= start ->
     Fills output start target done (next w)) ->
  Fills output start target done (Call act next).
Proof.
  intros Hd Hact Hnext. apply Fills_call with (done' := fun _ => done).
  - intros w c Hf Hs Hl. split; [lia |]. rewrite Hact, Nat.sub_diag, firstn_O.
    split; [| reflexivity].
    rewrite write_at_nil; [exact Hf |]. unfold len in *. lia.
  - intros w c Hf Hs Hl. exact (Hnext w c Hf Hs).
Qed.

Lemma copySteps_fills (werr : nat -> option error)
    (return_ : option error -> Proc) :
  (forall k, werr k = None) ->
  Fills output start target (List.length target) (return_ None) ->
  forall reads k done,
    (done <= List.length target)%nat ->
    delivered reads = skipn done target ->
    ends_in_EOF reads = true ->
    Fills output start target done
      (copySteps werr output k (start + Z.of_nat done) reads return_).
Proof.
  intros Hwerr Hret.
  assert (Hfull : forall done, (done <= List.length target)%nat ->
            skipn done target = [] -> done = List.length target).
  { intros done Hd Hs. apply (f_equal (@List.length byte)) in Hs.
    rewrite length_skipn in Hs. simpl in Hs. lia. }
  induction reads as [| [buf err] rest IH]; intros k done Hd Hdel Heof.
  - cbn in *. rewrite (Hfull done Hd (eq_sym Hdel)). exact Hret.
  - cbn [copySteps].
    assert (Hafter : forall k', (done + List.length buf <= List.length target)%nat ->
              skipn (done + List.length buf) target =
                match err with Some _ => [] | None => delivered rest end ->
              Fills output start target (done + List.length buf)
                match err with
                | Some e => if is_EOF e then return_ None else return_ (Some e)
                | None => copySteps werr output k' (start + Z.of_nat done + len buf)
                            rest return_
                end).
    { intros k' Hd' Hsk. destruct err as [e |].
      - unfold ends_in_EOF in Heof. cbn in Heof. rewrite Heof.
        rewrite (Hfull _ Hd' Hsk). exact Hret.
      - replace (start + Z.of_nat done + len buf)
          with (start + Z.of_nat (done + List.length buf)) by (unfold len; lia).
        apply IH; [exact Hd' | now rewrite Hsk |].
        unfold ends_in_EOF in *. cbn in Heof. exact Heof. }
    assert (Hsplit : skipn done target =
              buf ++ match err with Some _ => [] | None => delivered rest end).
    { rewrite <- Hdel. cbn. destruct err; [now rewrite app_nil_r | reflexivity]. }
    assert (Hlen : (done + List.length buf <= List.length target)%nat).
    { apply (f_equal (@List.length byte)) in Hsplit.
      rewrite length_skipn, length_app in Hsplit. lia. }
    assert (Hsk : skipn (done + List.length buf) target =
              match err with Some _ => [] | None => delivered rest end).
    { rewrite Nat.add_comm, <- skipn_skipn, Hsplit.
      rewrite skipn_app, skipn_all, Nat.sub_diag. reflexivity. }
    destruct (Z.ltb_spec 0 (len buf)) as [Hn | Hn].
    + unfold perform.
      apply Fills_call with (done' := fun _ => (done + List.length buf)%nat).
      * intros w c Hf Hs Hl. split; [lia |].
        replace (done + List.length buf - done)%nat with (List.length buf) by lia.
        rewrite Hsplit, firstn_app, firstn_all, Nat.sub_diag, firstn_O, app_nil_r.
        rewrite Hwerr, (Write_ok _ _ _ _ _ Hf). cbn [snd fs].
        split; [apply fs_set_same |]. intros p Hp. now apply fs_set_other.
      * intros w c Hf Hs Hl. rewrite Hwerr, (Write_ok _ _ _ _ _ Hf). cbn [fst].
        unfold perform. apply Fills_quiet; [exact Hlen | reflexivity |].
        intros w' c' _ _. apply Hafter; assumption.
    + assert (buf = []) as ->.
      { destruct buf; [reflexivity |]. unfold len in Hn. simpl in Hn. lia. }
      cbn [List.length] in *. rewrite Nat.add_0_r in *.
      change (len []) with 0 in *. rewrite Z.add_0_r in *.
      apply Hafter; assumption.
Qed.

Lemma partSteps_refused (pe : PartEnv) (return_ : option error -> Proc)
    (done : nat) :
  refused pe url range ->
  (done <= List.length target)%nat ->
  (forall err, Fills output start target done (return_ (Some err))) ->
  Fills output start target done (partSteps env pe url output start end_ return_).
Proof.
  intros Href Hd Hret. unfold partSteps, perform. fold range.
  apply Fills_quiet; [exact Hd | |].
  { intros w. munfold. simpl. now destruct (http_NewRequest env url). }
  intros w c Hf Hs. munfold. simpl. rewrite Hreq. simpl.
  apply Fills_quiet; [exact Hd | |].
  { intros w'. simpl. now destruct (pe_Do pe url range). }
  intros w' c' Hf' _. simpl. unfold refused in Href.
  destruct (pe_Do pe url range) as [e | resp]; simpl; [apply Hret |].
  destruct (Z.eqb_spec (StatusCode resp) StatusPartialContent); [contradiction |].
  apply Hret.
Qed.

Lemma partSteps_served (pe : PartEnv) (return_ : option error -> Proc)
    (data : list byte) :
  served pe url data start end_ ->
  target = slice data start end_ ->
  Fills output start target (List.length target) (return_ None) ->
  Fills output start target 0 (partSteps env pe url output start end_ return_).
Proof.
  intros (resp & Hdo & Hst & Heof & Hdel & Hopen & Hseek & Hwr) Ht Hret.
  unfold partSteps, perform. fold range. fold range in Hdo.
  apply Fills_quiet; [lia | |].
  { intros w. munfold. simpl. now destruct (http_NewRequest env url). }
  intros w c Hf Hs. munfold. simpl. rewrite Hreq. simpl.
  apply Fills_quiet; [lia | |].
  { intros w'. simpl. now destruct (pe_Do pe url range). }
  intros w1 c1 Hf1 _. simpl. rewrite Hdo. simpl. rewrite Hst. simpl.
  apply Fills_quiet; [lia | |].
  { intros w'. simpl. now destruct (fs w' output); [destruct (pe_OpenFile pe) |]. }
  intros w2 c2 Hf2 _. simpl. rewrite Hf2. simpl. rewrite Hopen. simpl.
  apply Fills_quiet; [lia | |].
  { intros w'. simpl. now destruct (start <? 0); [| destruct (pe_Seek pe)]. }
  intros w3 c3 Hf3 _. simpl.
  destruct (Z.ltb_spec start 0); [lia |]. rewrite Hseek. simpl.
  replace start with (start + Z.of_nat 0) at 2 by lia.
  apply copySteps_fills; [exact Hwr | exact Hret | lia | | exact Heof].
  rewrite Hdel, Ht. reflexivity.
Qed.

(** The goroutine of a chunk that recovers fills its range; the one of a
    chunk that is exhausted writes nothing. *)
Lemma retrySteps_recovers (pe : nat -> PartEnv) (data : list byte) (k : nat) :
  Z.of_nat k <= maxRetries ->
  served (pe k) url data start end_ ->
  target = slice data start end_ ->
  forall (d r : nat), (r + d = k)%nat ->
  (forall j, (r <= j < k)%nat -> refused (pe j) url range) ->
  Fills output start target 0
    (retrySteps (budget (Z.of_nat r)) env pe url output start end_ (Z.of_nat r)).
Proof.
  intros Hk Hsv Ht. induction d as [| d IH]; intros r Hrd Href.
  - assert (r = k) as -> by lia.
    assert (Hb : budget (Z.of_nat k) = S (Nat.pred (budget (Z.of_nat k))))
      by (unfold budget, maxRetries in *; lia).
    rewrite Hb. cbn [retrySteps]. rewrite Nat2Z.id.
    apply partSteps_served with (data := data); [exact Hsv | exact Ht |].
    apply Fills_halt.
  - assert (Hb : budget (Z.of_nat r) = S (budget (Z.of_nat (S r))))
      by (unfold budget, maxRetries in *; lia).
    rewrite Hb. cbn [retrySteps]. rewrite Nat2Z.id.
    apply partSteps_refused; [apply Href; lia | lia |].
    intros err.
    destruct (Z.gtb_spec (Z.of_nat r + 1) maxRetries) as [Hgt | Hle]; [lia |].
    unfold perform. apply Fills_quiet; [lia | reflexivity |].
    intros w c _ _. apply Fills_quiet; [lia | reflexivity |].
    intros w' c' _ _.
    replace (Z.of_nat r + 1) with (Z.of_nat (S r)) by lia.
    apply IH; [lia |]. intros j Hj. apply Href. lia.
Qed.

Lemma retrySteps_exhausted (pe : nat -> PartEnv) :
  target = [] ->
  forall (d r : nat), Z.of_nat (r + d) = maxRetries ->
  (forall j, (r <= j)%nat -> Z.of_nat j <= maxRetries -> refused (pe j) url range) ->
  Fills output start target 0
    (retrySteps (budget (Z.of_nat r)) env pe url output start end_ (Z.of_nat r)).
Proof.
  intros Ht. induction d as [| d IH]; intros r Hrd Href.
  - assert (Hb : budget (Z.of_nat r) = 1%nat)
      by (unfold budget, maxRetries in *; lia).
    rewrite Hb. cbn [retrySteps]. rewrite Nat2Z.id.
    apply partSteps_refused; [apply Href; lia | lia |].
    intros err.
    destruct (Z.gtb_spec (Z.of_nat r + 1) maxRetries) as [Hgt | Hle]; [| lia].
    unfold perform. apply Fills_quiet; [lia | reflexivity |].
    intros w c _ _. rewrite Ht. apply (Fills_halt output start []).
  - assert (Hb : budget (Z.of_nat r) = S (budget (Z.of_nat (S r))))
      by (unfold budget, maxRetries in *; lia).
    rewrite Hb. cbn [retrySteps]. rewrite Nat2Z.id.
    apply partSteps_refused; [apply Href; lia | lia |].
    intros err.
    destruct (Z.gtb_spec (Z.of_nat r + 1) maxRetries) as [Hgt | Hle]; [lia |].
    unfold perform. apply Fills_quiet; [lia | reflexivity |].
    intros w c _ _. apply Fills_quiet; [lia | reflexivity |].
    intros w' c' _ _.
    replace (Z.of_nat r + 1) with (Z.of_nat (S r)) by lia.
    apply IH; [lia |]. intros j Hj1 Hj2. apply Href; lia.
Qed.
End Filling.

(** All goroutines together: what any interleaving leaves in the file. *)
Section Pool.
Variables (env : Env) (url output : string) (data : list byte)
          (size workers : Z) (ok : nat -> bool) (w0 : World).
Hypothesis Hsize : 0 <= size <= GoInt.max_int.
Hypothesis Hworkers : 1 <= workers <= GoInt.max_int.
Hypothesis Hdata : len data = size.
Hypothesis Hreq : http_NewRequest env url = None.

Let plan := chunkPlan size workers.

Hypothesis Hok : forall i s e, nth_error plan i = Some (s, e) ->
  if ok i then exists k, recovers (part_env env i) url data s e k
  else exhausted (part_env env i) url s e.

(** The bytes the goroutine of chunk [i] has to write. *)
Let target (i : nat) (r : Z * Z) : list byte :=
  if ok i then slice data (fst r) (snd r) else [].

(** The goroutines and the file while they run: goroutine [i] has written
    the first [done] bytes of its range and will fill the rest. *)
Let PoolInv (ps : list Proc) (w : World) : Prop :=
  List.length ps = List.length plan /\
  (forall p, p <> output -> fs w p = fs w0 p) /\
  exists c,
    fs w output = Some c /\ len c = size /\
    forall i r, nth_error plan i = Some r ->
      exists p done,
        nth_error ps i = Some p /\
        Fills output (fst r) (target i r) done p /\
        forall off, covers r off ->
          nth_error c (Z.to_nat off) =
            if off <? fst r + Z.of_nat done
            then nth_error data (Z.to_nat off) else Some zero.

Lemma range_bounds (i : nat) (s e : Z) :
  nth_error plan i = Some (s, e) -> 0 <= s /\ s <= e + 1 /\ e + 1 <= size.
Proof. apply (plan_range_bounds size workers Hsize Hworkers). Qed.

Lemma target_length (i : nat) (s e : Z) :
  nth_error plan i = Some (s, e) ->
  len (target i (s, e)) = if ok i then e - s + 1 else 0.
Proof.
  intros Hi. destruct (range_bounds i s e Hi) as (H0 & H1 & H2).
  unfold target. cbn [fst snd]. destruct (ok i); [| reflexivity].
  apply slice_length; lia.
Qed.

Lemma launch_fills (i : nat) (s e : Z) :
  nth_error plan i = Some (s, e) ->
  Fills output s (target i (s, e)) 0
    (goroutine env (part_env env i) url output s e).
Proof.
  intros Hi. pose proof (Hok i s e Hi) as Hoki.
  unfold target, goroutine. cbn [fst snd]. destruct (ok i).
  - destruct Hoki as (k & Hk & Href & Hsv).
    apply (retrySteps_recovers env url output s e _ Hreq (part_env env i) data k
             Hk Hsv eq_refl k 0%nat eq_refl).
    intros j Hj. apply Href. lia.
  - apply (retrySteps_exhausted env url output s e _ Hreq (part_env env i) eq_refl
             (Z.to_nat maxRetries) 0%nat eq_refl).
    intros j _ Hj. apply Hoki. exact Hj.
Qed.

Lemma pool_start (w : World) :
  (forall p, p <> output -> fs w p = fs w0 p) ->
  fs w output = Some (repeat zero (Z.to_nat size)) ->
  PoolInv (launch env url output 0 plan) w.
Proof.
  intros Hoth Hf. split; [apply launch_length |]. split; [exact Hoth |].
  exists (repeat zero (Z.to_nat size)).
  split; [exact Hf |]. split; [unfold len; rewrite repeat_length; lia |].
  intros i [s e] Hi. exists (goroutine env (part_env env i) url output s e), 0%nat.
  split; [exact (launch_nth env url output plan 0 i s e Hi) |].
  split; [exact (launch_fills i s e Hi) |].
  intros off Hc. cbn [fst]. unfold covers in Hc. cbn [fst snd] in Hc.
  destruct (Z.ltb_spec off (s + Z.of_nat 0)); [lia |].
  destruct (range_bounds i s e Hi) as (H0 & H1 & H2).
  apply nth_error_repeat. lia.
Qed.

Lemma pool_step (ps1 ps2 : list Proc) (act : World -> World)
    (next : World -> Proc) (w : World) :
  PoolInv (ps1 ++ Call act next :: ps2) w ->
  PoolInv (ps1 ++ next w :: ps2) (act w).
Proof.
  intros (Hlen & Hoth & c & Hf & Hc & Hrows).
  set (j := List.length ps1).
  assert (Hj : (j < List.length plan)%nat)
    by (rewrite <- Hlen, length_app; cbn; lia).
  destruct (nth_error plan j) as [[s e] |] eqn:Hpj;
    [| apply nth_error_None in Hpj; lia].
  destruct (Hrows j (s, e) Hpj) as (p & done & Hp & Hfill & Hbytes).
  rewrite nth_error_app2, Nat.sub_diag in Hp by (unfold j; lia).
  cbn in Hp. injection Hp as <-. cbn [fst snd] in *.
  destruct (range_bounds j s e Hpj) as (Hs0 & Hs1 & Hs2).
  pose proof (target_length j s e Hpj) as Htl.
  inversion Hfill as [| done0 act0 next0 done' Hact Hnext Ed [Ea En]].
  subst done0 act0 next0.
  assert (Hfit : s + len (target j (s, e)) <= len c)
    by (rewrite Htl; destruct (ok j); lia).
  destruct (Hact w c Hf Hs0 Hfit) as (Hd & Hw & Hoth').
  specialize (Hnext w c Hf Hs0 Hfit).
  set (piece := firstn (done' w - done) (skipn done (target j (s, e)))) in *.
  assert (Hpl : List.length piece = (done' w - done)%nat).
  { unfold piece. rewrite firstn_length_le; [reflexivity |].
    rewrite length_skipn. lia. }
  assert (Hdl : Z.of_nat (done' w) <= len (target j (s, e)))
    by (unfold len; lia).
  destruct (write_at_within c (s + Z.of_nat done) piece ltac:(lia)
              ltac:(unfold len in *; rewrite Hpl; lia)) as (Wl & Wn).
  split; [rewrite <- Hlen, !length_app; reflexivity |].
  split; [intros q Hq; rewrite Hoth' by exact Hq; now apply Hoth |].
  exists (write_at c (s + Z.of_nat done) piece).
  split; [exact Hw |]. split; [lia |].
  intros i r Hi.
  destruct (Nat.eq_dec i j) as [-> | Hne].
  - rewrite Hpj in Hi. injection Hi as <-. cbn [fst snd].
    exists (next w), (done' w).
    split; [rewrite nth_error_app2, Nat.sub_diag by (unfold j; lia); reflexivity |].
    split; [exact Hnext |].
    intros off Hcov. unfold covers in Hcov. cbn [fst snd] in Hcov.
    rewrite Wn. rewrite Hpl.
    destruct (Nat.leb_spec (Z.to_nat (s + Z.of_nat done)) (Z.to_nat off)) as [Hle | Hlt];
      cbn [andb].
    + destruct (Nat.ltb_spec (Z.to_nat off)
                  (Z.to_nat (s + Z.of_nat done) + (done' w - done))) as [Hin | Hout].
      * (* inside the piece just written *)
        destruct (Z.ltb_spec off (s + Z.of_nat (done' w))); [| lia].
        unfold piece. rewrite nth_error_firstn.
        destruct (Nat.ltb_spec (Z.to_nat off - Z.to_nat (s + Z.of_nat done))
                    (done' w - done)); [| lia].
        rewrite nth_error_skipn.
        destruct (ok j) eqn:Hokj.
        -- unfold target. rewrite Hokj. cbn [fst snd].
           rewrite slice_nth by lia. f_equal. lia.
        -- unfold target in Hdl. rewrite Hokj in Hdl. unfold len in Hdl.
           simpl in Hdl. lia.
      * (* past it: still zero *)
        destruct (Z.ltb_spec off (s + Z.of_nat (done' w))); [lia |].
        rewrite (Hbytes off ltac:(unfold covers; cbn; lia)).
        destruct (Z.ltb_spec off (s + Z.of_nat done)); [lia | reflexivity].
    + (* before it: written earlier *)
      destruct (Z.ltb_spec off (s + Z.of_nat (done' w))); [| lia].
      rewrite (Hbytes off ltac:(unfold covers; cbn; lia)).
      destruct (Z.ltb_spec off (s + Z.of_nat done)); [reflexivity | lia].
  - destruct (Hrows i r Hi) as (p & dn & Hp & Hfi & Hbi).
    exists p, dn.
    split.
    { destruct (Nat.lt_ge_cases i j) as [Hlt | Hge].
      - rewrite nth_error_app1 in * by (fold j; lia). exact Hp.
      - rewrite nth_error_app2 in * by (fold j; lia). fold j in Hp |- *.
        destruct (i - j)%nat as [| m] eqn:Hm; [lia |]. exact Hp. }
    split; [exact Hfi |].
    intros off Hcov. rewrite Wn, Hpl.
    destruct (plan_covers_inv size workers Hsize Hworkers i r off Hi Hcov)
      as [Hoff Ei].
    destruct (Nat.leb_spec (Z.to_nat (s + Z.of_nat done)) (Z.to_nat off)) as [Hle | Hlt];
      cbn [andb]; [| apply Hbi; exact Hcov].
    destruct (Nat.ltb_spec (Z.to_nat off)
                (Z.to_nat (s + Z.of_nat done) + (done' w - done))) as [Hin | Hout];
      [| apply Hbi; exact Hcov].
    exfalso.
    assert (Hcj : covers (s, e) off).
    { unfold covers. cbn [fst snd]. rewrite Htl in Hdl.
      destruct (ok j); lia. }
    destruct (plan_covers_inv size workers Hsize Hworkers j (s, e) off Hpj Hcj)
      as [_ Ej].
    lia.
Qed.

Lemma pool_end (ps : list Proc) (w : World) :
  PoolInv ps w -> Forall (fun p => p = Halt) ps ->
  (forall p, p <> output -> fs w p = fs w0 p) /\
  exists c,
    fs w output = Some c /\ len c = size /\
    forall i r off, nth_error plan i = Some r -> covers r off ->
      nth_error c (Z.to_nat off) =
        if ok i then nth_error data (Z.to_nat off) else Some zero.
Proof.
  intros (Hlen & Hoth & c & Hf & Hc & Hrows) Hall.
  split; [exact Hoth |]. exists c. split; [exact Hf |]. split; [exact Hc |].
  intros i [s e] off Hi Hcov.
  destruct (Hrows i (s, e) Hi) as (p & done & Hp & Hfill & Hbytes).
  rewrite Forall_forall in Hall.
  rewrite (Hall p (nth_error_In _ _ Hp)) in Hfill.
  pose proof (target_length i s e Hi) as Htl.
  rewrite (Hbytes off Hcov). cbn [fst].
  inversion Hfill as [Hdone |]. unfold len in Htl.
  unfold covers in Hcov. cbn [fst snd] in Hcov.
  destruct (ok i).
  - destruct (Z.ltb_spec off (s + Z.of_nat (List.length (target i (s, e)))));
      [reflexivity | lia].
  - destruct (Z.ltb_spec off (s + Z.of_nat (List.length (target i (s, e)))));
      [lia | reflexivity].
Qed.

Lemma interleaving_assembles (ps : list Proc) (w w2 : World) :
  Interleaving ps w w2 -> PoolInv ps w ->
  (forall p, p <> output -> fs w2 p = fs w0 p) /\
  exists c,
    fs w2 output = Some c /\ len c = size /\
    forall i r off, nth_error plan i = Some r -> covers r off ->
      nth_error c (Z.to_nat off) =
        if ok i then nth_error data (Z.to_nat off) else Some zero.
Proof.
  induction 1 as [ps w Hall | ps1 act next ps2 w w2 Hrun IH]; intros Hinv.
  - exact (pool_end ps w Hinv Hall).
  - apply IH. apply pool_step. exact Hinv.
Qed.
End Pool.

(** X3.  When every chunk of the plan is either served exactly the bytes
    of its range, at once or after refused attempts, or refused at each
    of its attempts, the way the goroutines are interleaved does not
    matter.  Starting from the pre-sized destination, let the goroutines
    of the plan run together, any one of them making its next library
    call at each moment, until all have ended: the destination then holds
    the same bytes as after the run in launch order, and no other file is
    changed.  The run in launch order is itself one of the interleavings. *)
Theorem task_order_does_not_matter (env : Env) (url output : string)
    (data : list byte) (workers : Z) (ok : nat -> bool) (w w2 : World) :
  len data <= GoInt.max_int ->
  1 <= workers <= GoInt.max_int ->
  http_NewRequest env url = None ->
  (forall i s e,
     nth_error (chunkPlan (len data) workers) i = Some (s, e) ->
     if ok i then exists k, recovers (part_env env i) url data s e k
     else exhausted (part_env env i) url s e) ->
  fs w output = Some (repeat zero (Z.to_nat (len data))) ->
  Interleaving (launch env url output 0 (chunkPlan (len data) workers)) w w2 ->
  fs w2 output
    = fs (snd (runTasks env url output 0 (chunkPlan (len data) workers) w)) output /\
  (forall p, p <> output -> fs w2 p = fs w p) /\
  Interleaving (launch env url output 0 (chunkPlan (len data) workers)) w
    (snd (runTasks env url output 0 (chunkPlan (len data) workers) w)).
Proof.
  intros Hfit Hworkers Hreq Hok Hf Hrun.
  assert (Hsz : 0 <= len data <= GoInt.max_int) by (unfold len in *; lia).
  destruct (interleaving_assembles output data (len data) workers ok w
              Hsz Hworkers eq_refl _ w w2 Hrun
              (pool_start env url output data (len data) workers ok w
                 Hsz Hworkers Hreq Hok w ltac:(reflexivity) Hf))
    as (A2 & c1 & Hc1 & HA1).
  destruct (runTasksIn_assembles env url output data (len data) workers ok w
              Hsz Hworkers eq_refl Hreq Hok
              (seq 0 (List.length (chunkPlan (len data) workers))) w
              ltac:(intros i Hi; apply in_seq; lia)
              ltac:(reflexivity) Hf)
    as (_ & _ & c2 & Hc2 & HA2).
  rewrite (runTasks_in_launch_order env url output
             (chunkPlan (len data) workers) (chunkPlan (len data) workers) 0 w eq_refl).
  splits.
  - rewrite Hc1, Hc2. f_equal.
    exact (Assembled_unique data (len data) workers ok Hsz Hworkers c1 c2 HA1 HA2).
  - exact A2.
  - rewrite <- (runTasks_in_launch_order env url output
             (chunkPlan (len data) workers) (chunkPlan (len data) workers) 0 w eq_refl).
    exact (launch_order_interleaving env url output _ 0%nat [] w (Forall_nil _)).
Qed.

(** The next call of the first or of the second of two goroutines. *)
Ltac step_first :=
  lazymatch goal with
  | |- Interleaving [?p; ?q] ?w ?w2 =>
      let p' := eval hnf in p in
      lazymatch p' with
      | Call ?a ?n =>
          change (Interleaving ([] ++ Call a n :: [q]) w w2);
          apply IL_step; cbn [app];
          lazymatch goal with
          | |- Interleaving _ ?w1 _ =>
              let w1' := eval vm_compute in w1 in change w1 with w1'
          end
      end
  end.

Ltac step_second :=
  lazymatch goal with
  | |- Interleaving [?p; ?q] ?w ?w2 =>
      let q' := eval hnf in q in
      lazymatch q' with
      | Call ?a ?n =>
          change (Interleaving ([p] ++ Call a n :: []) w w2);
          apply IL_step; cbn [app];
          lazymatch goal with
          | |- Interleaving _ ?w1 _ =>
              let w1' := eval vm_compute in w1 in change w1 with w1'
          end
      end
  end.

Lemma task_order_does_not_matter_witness :
  let env := env_serving ten_bytes 2 flaky_second in
  exists w2,
    Interleaving (launch env "u" "out" 0 (chunkPlan (len ten_bytes) 2)) w_presized w2 /\
    log w2 =
      [EvNewRequest "GET" "u"; EvNewRequest "GET" "u";
       EvDo "u" "bytes=5-9"; EvDo "u" "bytes=0-4";
       EvPrint (MsgRetrying 5 9 1); EvOpenFile "out";
       EvSleep retryBackoff; EvSeek "out" 0;
       EvNewRequest "GET" "u"; EvWrite "out" 0 [x61; x62; x63; x64; x65];
       EvDo "u" "bytes=5-9"; EvBarAdd 5;
       EvPrint (MsgRetrying 5 9 2); EvSleep retryBackoff;
       EvNewRequest "GET" "u"; EvDo "u" "bytes=5-9";
       EvOpenFile "out"; EvSeek "out" 5;
       EvWrite "out" 5 [x66; x67; x68; x69; x6a]; EvBarAdd 5] /\
    fs w2 "out" =
      fs (snd (runTasks env "u" "out" 0 (chunkPlan (len ten_bytes) 2) w_presized)) "out".
Proof.
  intros env.
  assert (Hrun : exists w2,
    Interleaving (launch env "u" "out" 0 (chunkPlan (len ten_bytes) 2)) w_presized w2 /\
    log w2 =
      [EvNewRequest "GET" "u"; EvNewRequest "GET" "u";
       EvDo "u" "bytes=5-9"; EvDo "u" "bytes=0-4";
       EvPrint (MsgRetrying 5 9 1); EvOpenFile "out";
       EvSleep retryBackoff; EvSeek "out" 0;
       EvNewRequest "GET" "u"; EvWrite "out" 0 [x61; x62; x63; x64; x65];
       EvDo "u" "bytes=5-9"; EvBarAdd 5;
       EvPrint (MsgRetrying 5 9 2); EvSleep retryBackoff;
       EvNewRequest "GET" "u"; EvDo "u" "bytes=5-9";
       EvOpenFile "out"; EvSeek "out" 5;
       EvWrite "out" 5 [x66; x67; x68; x69; x6a]; EvBarAdd 5]).
  { eexists. split.
    - change (launch env "u" "out" 0 (chunkPlan (len ten_bytes) 2))
        with [goroutine env (part_env env 0) "u" "out" 0 4;
              goroutine env (part_env env 1) "u" "out" 5 9].
      step_first. step_second. step_second. step_first.
      step_second. step_first. step_second. step_first.
      step_second. step_first. step_second. step_first.
      step_second. step_second. step_second. step_second.
      step_second. step_second. step_second. step_second.
      apply IL_wait. repeat constructor.
    - reflexivity. }
  destruct Hrun as (w2 & Hrun & Hlog).
  exists w2. split; [exact Hrun |]. split; [exact Hlog |].
  destruct (task_order_does_not_matter env "u" "out" ten_bytes 2 (fun _ => true)
              w_presized w2) as (H & _); auto.
  - vm_compute. congruence.
  - unfold GoInt.max_int. lia.
  - intros i s e H.
    assert (Hi : (i < 2)%nat).
    { change 2%nat with (List.length (chunkPlan (len ten_bytes) 2)).
      apply (proj1 (nth_error_Some _ i)). rewrite H. discriminate. }
    destruct i as [| [| i]]; [| | lia]; vm_compute in H; injection H as <- <-.
    + exists 0%nat. split; [vm_compute; congruence |]. split; [lia |]. solve_served.
    + exists 2%nat. split; [vm_compute; congruence |]. split.
      * intros j Hj. destruct j as [| [| j]]; [solve_refused | solve_refused | lia].
      * solve_served.
Defined.

(** X4.  The exact cost of the retry loop.  A chunk that is refused [k]
    times, [k <= maxRetries], and then served takes [k + 1] calls of
    [downloadPart] and [k] sleeps, prints no failure message and leaves
    its bytes at offset [start].  A chunk that is refused at every attempt
    takes [maxRetries + 1] calls and [maxRetries] sleeps, ends with the
    failure message and leaves the files as they were. *)
Theorem retry_attempts_exact (env : Env) (pe : nat -> PartEnv)
    (url output : string) (data : list byte) (start end_ : Z)
    (w : World) (c : list byte) :
  http_NewRequest env url = None ->
  fs w output = Some c ->
  0 <= start <= len c ->
  let w' := snd (chunkTask env pe url output start end_ w) in
  (forall k, recovers pe url data start end_ k ->
     fs w' output = Some (write_at c start (slice data start end_)) /\
     exists evs,
       log w' = log w ++ evs /\
       attempts evs = Z.of_nat k + 1 /\
       sleeps evs = Z.of_nat k /\
       (forall err, ~ In (EvPrint (MsgPartFailed start end_ maxRetries err)) evs)) /\
  (exhausted pe url start end_ ->
     fs w' = fs w /\
     exists evs err,
       log w' = log w ++ evs ++ [EvPrint (MsgPartFailed start end_ maxRetries err)] /\
       attempts evs = maxRetries + 1 /\
       sleeps evs = maxRetries).
Proof.
  intros Hreq Hf Hs w'. split.
  - intros k (Hk & Href & Hsv).
    destruct (retryLoop_recovers env pe url output data start end_ Hreq k Hk Hsv
                k 0%nat eq_refl ltac:(intros; apply Href; lia) w c Hf Hs)
      as (R2 & _ & evs & Hl & A & B & F).
    split; [exact R2 |]. exists evs. auto.
  - intros Hex.
    destruct (retryLoop_exhausted env pe url output start end_ Hreq
                (Z.to_nat maxRetries) 0%nat eq_refl
                ltac:(intros; apply Hex; assumption) w)
      as (R & evs & err & Hl & A & B).
    split; [exact R |]. exists evs, err. splits; auto.
Qed.

Lemma retry_attempts_exact_witness :
  recovers pe_flaky "u" five_bytes 2 4 2 /\
  exists evs,
    log (snd (chunkTask env_second_chunk_down pe_flaky "u" "out" 2 4 w_presized))
      = log w_presized ++ evs /\
    attempts evs = 3 /\ sleeps evs = 2.
Proof.
  assert (H : recovers pe_flaky "u" five_bytes 2 4 2).
  { split; [vm_compute; congruence |]. split.
    - intros j Hj. destruct j as [| [| j]]; [solve_refused | solve_refused | lia].
    - solve_served. }
  split; [exact H |].
  destruct (retry_attempts_exact env_second_chunk_down pe_flaky "u" "out" five_bytes
              2 4 w_presized (repeat zero 10) eq_refl eq_refl
              ltac:(vm_compute; split; congruence)) as (Hrec & _).
  destruct (Hrec 2%nat H) as (_ & evs & Hl & A & B & _).
  exists evs. auto.
Defined.

(** ** What a fetch never does *)

Lemma write_at_grows (c : list byte) (off : Z) (d : list byte) :
  0 <= off <= len c ->
  len c <= len (write_at c off d) /\
  forall i, (i < Z.to_nat off)%nat ->
    nth_error (write_at c off d) i = nth_error c i.
Proof.
  intros H. rewrite write_at_inside by exact H. unfold len in *.
  assert (Hn : List.length (firstn (Z.to_nat off) c) = Z.to_nat off)
    by (apply firstn_length_le; lia).
  split.
  - rewrite !length_app, Hn, length_skipn. lia.
  - intros i Hi. rewrite nth_error_app1 by lia. rewrite nth_error_firstn.
    destruct (Nat.ltb_spec i (Z.to_nat off)); [reflexivity | lia].
Qed.

Lemma copyLoop_others (werr : nat -> option error) (path : string)
    (reads : list ReadResult) :
  forall k off w p, p <> path ->
    fs (snd (copyLoop werr path k off reads w)) p = fs w p.
Proof.
  induction reads as [| [buf err] rest IH]; intros k off w p Hp; [reflexivity |].
  cbn [copyLoop]. destruct (0 <? len buf).
  - munfold. simpl. destruct (werr k); [reflexivity |]. simpl.
    destruct (fs w path); simpl.
    + destruct err as [e |]; [destruct (is_EOF e); simpl; now rewrite fs_set_other |].
      rewrite IH by exact Hp. simpl. now rewrite fs_set_other.
    + destruct err as [e |]; [destruct (is_EOF e); reflexivity |].
      now rewrite IH by exact Hp.
  - munfold. simpl. destruct err as [e |]; [destruct (is_EOF e); reflexivity |].
    now rewrite IH by exact Hp.
Qed.

Lemma copyLoop_keeps (werr : nat -> option error) (path : string) (start : Z)
    (reads : list ReadResult) :
  forall k off w c,
    fs w path = Some c -> 0 <= start <= off -> off <= len c ->
    exists c',
      fs (snd (copyLoop werr path k off reads w)) path = Some c' /\
      len c <= len c' /\
      (forall i, (i < Z.to_nat start)%nat -> nth_error c' i = nth_error c i) /\
      (forall p, p <> path ->
         fs (snd (copyLoop werr path k off reads w)) p = fs w p).
Proof.
  induction reads as [| [buf err] rest IH]; intros k off w c Hf Hs Ho.
  - exists c. simpl. splits; auto. lia.
  - cbn [copyLoop]. destruct (Z.ltb_spec 0 (len buf)) as [Hn | Hn].
    + munfold. simpl. destruct (werr k) as [e |]; simpl.
      * exists c. splits; auto. lia.
      * rewrite Hf. simpl.
        destruct (write_at_grows c off buf ltac:(lia)) as (G1 & G2).
        pose proof (write_at_length c off buf ltac:(lia)) as G3.
        destruct err as [e |].
        -- exists (write_at c off buf).
           destruct (is_EOF e); simpl; rewrite fs_set_same;
             (splits; [reflexivity | exact G1 | intros i Hi; apply G2; lia
                      | intros p Hp; now rewrite fs_set_other]).
        -- match goal with |- context [copyLoop _ _ _ _ _ ?w1] =>
             destruct (IH (S k) (off + len buf) w1 (write_at c off buf))
               as (c' & R1 & R2 & R3 & R4) end.
           { simpl. apply fs_set_same. }
           { unfold len in *. lia. }
           { exact G3. }
           exists c'. splits; [exact R1 | lia | |].
           ++ intros i Hi. rewrite R3 by exact Hi. apply G2. lia.
           ++ intros p Hp. rewrite R4 by exact Hp. simpl. now rewrite fs_set_other.
    + munfold. simpl. destruct err as [e |].
      * exists c. destruct (is_EOF e); simpl; splits; auto; lia.
      * assert (len buf = 0) as -> by (unfold len in *; lia).
        rewrite Z.add_0_r. apply IH; auto.
Qed.

(** X5.  What one call of [downloadPart] never does, whatever the server
    answers and whatever fails: it changes no file but the destination; it
    does not create the destination (a missing one is an error); and in an
    existing destination at least [start] bytes long it never makes the
    file shorter and never changes a byte before [start]. *)
Theorem downloadPart_keeps_what_precedes (env : Env) (pe : PartEnv)
    (url output : string) (start end_ : Z) (w : World) :
  let r := downloadPart env pe url output start end_ w in
  (forall p, p <> output -> fs (snd r) p = fs w p) /\
  (fs w output = None -> fs (snd r) output = None /\ fst r <> inr tt) /\
  (forall c, fs w output = Some c -> start <= len c ->
     exists c',
       fs (snd r) output = Some c' /\
       len c <= len c' /\
       forall i, Z.of_nat i < start -> nth_error c' i = nth_error c i).
Proof.
  cbn zeta. unfold downloadPart. munfold. simpl.
  destruct (http_NewRequest env url); simpl.
  { splits; auto.
    - intros H. split; [exact H | discriminate].
    - intros c Hc _. exists c. splits; auto. lia. }
  destruct (pe_Do pe url (rangeHeader start end_)) as [e | resp]; simpl.
  { splits; auto.
    - intros H. split; [exact H | discriminate].
    - intros c Hc _. exists c. splits; auto. lia. }
  destruct (negb (StatusCode resp =? StatusPartialContent)); simpl.
  { splits; auto.
    - intros H. split; [exact H | discriminate].
    - intros c Hc _. exists c. splits; auto. lia. }
  destruct (fs w output) as [c0 |] eqn:Hf; simpl.
  2:{ splits; auto.
      - intros _. split; [exact Hf | discriminate].
      - discriminate. }
  destruct (pe_OpenFile pe); simpl.
  { splits; auto; [discriminate |].
    intros c [= <-] _. exists c0. splits; auto. lia. }
  destruct (Z.ltb_spec start 0); simpl.
  { splits; auto; [discriminate |].
    intros c [= <-] _. exists c0. splits; auto. lia. }
  destruct (pe_Seek pe); simpl.
  { splits; auto; [discriminate |].
    intros c [= <-] _. exists c0. splits; auto. lia. }
  splits.
  - intros p Hp. now rewrite copyLoop_others by exact Hp.
  - discriminate.
  - intros c [= <-] Hle.
    match goal with |- context [copyLoop ?we ?pa ?k ?o ?rd ?w1] =>
      destruct (copyLoop_keeps we pa start rd k o w1 c0 Hf ltac:(lia) Hle)
        as (c' & R1 & R2 & R3 & _) end.
    exists c'. splits; auto. intros i Hi. apply R3. lia.
Qed.

Lemma downloadPart_keeps_what_precedes_witness :
  4 <= len (repeat zero 10) /\
  exists c',
    fs (snd (downloadPart env_second_chunk_down pe_truncated "u" "out" 4 9 w_presized))
       "out" = Some c' /\
    len (repeat zero 10) <= len c'.
Proof.
  assert (H : 4 <= len (repeat zero 10)) by (vm_compute; congruence).
  split; [exact H |].
  destruct (proj2 (proj2 (downloadPart_keeps_what_precedes env_second_chunk_down
              pe_truncated "u" "out" 4 9 w_presized)) (repeat zero 10) eq_refl H)
    as (c' & H1 & H2 & _).
  exists c'. auto.
Defined.

(** ** The sizes of the chunks *)

(** X6.  The sizes of the chunks.  Every chunk but the last is
    [size / workers] bytes long; the last one takes the remainder on top,
    [size mod workers] bytes, which is at most [workers - 1]. *)
Theorem chunk_sizes (size workers : Z) (i : nat) (s e : Z) :
  0 <= size <= GoInt.max_int ->
  1 <= workers <= GoInt.max_int ->
  nth_error (chunkPlan size workers) i = Some (s, e) ->
  e - s + 1 =
    (if Z.of_nat i =? workers - 1
     then size / workers + size mod workers
     else size / workers) /\
  0 <= size mod workers <= workers - 1.
Proof.
  intros Hsize Hworkers Hn.
  apply (plan_nth size workers Hsize Hworkers) in Hn as [Hi [= -> ->]].
  pose proof (Z.div_mod size workers ltac:(lia)) as Hdm.
  pose proof (Z.mod_pos_bound size workers ltac:(lia)) as Hm.
  split; [| lia].
  destruct (Z.eqb_spec (Z.of_nat i) (workers - 1)) as [-> | Hne]; nia.
Qed.

Lemma chunk_sizes_witness :
  nth_error (chunkPlan 10 3) 2 = Some (6, 9) /\
  9 - 6 + 1 = 10 / 3 + 10 mod 3.
Proof.
  assert (H : nth_error (chunkPlan 10 3) 2 = Some (6, 9)) by reflexivity.
  split; [exact H |].
  exact (proj1 (chunk_sizes 10 3 2 6 9
                  ltac:(unfold GoInt.max_int; lia)
                  ltac:(unfold GoInt.max_int; lia) H)).
Defined.

(** X7.  The divisor of [partSize := size / workers] is never zero: the
    worker count is at least 1 for every size and every override (and at
    most 16 without a positive override), so the division cannot panic and
    the plan has at least one chunk. *)
Theorem planner_never_divides_by_zero (size n : Z) :
  n <= GoInt.max_int ->
  1 <= resolveWorkers size n <= GoInt.max_int /\
  (n <= 0 -> resolveWorkers size n <= 16) /\
  (1 <= List.length (chunkPlan size (resolveWorkers size n)))%nat.
Proof.
  intros Hn. pose proof (resolveWorkers_pos size n Hn) as Hw.
  splits; [lia | lia | |].
  - intros Hle. rewrite resolveWorkers_nonpositive by exact Hle.
    apply calculateWorkers_pos.
  - rewrite chunkPlan_length. lia.
Qed.

Lemma planner_never_divides_by_zero_witness :
  -7 <= GoInt.max_int /\ 1 <= resolveWorkers 0 (-7).
Proof.
  assert (H : -7 <= GoInt.max_int) by (unfold GoInt.max_int; lia).
  split; [exact H |].
  exact (proj1 (proj1 (planner_never_divides_by_zero 0 (-7) H))).
Defined.

(** ** The file name taken from the URL *)

Lemma Split_nonempty (s : string) (sep : ascii) : Split s sep <> [].
Proof.
  destruct s as [| c rest]; simpl; [discriminate |].
  destruct (Ascii.eqb c sep); [discriminate |].
  destruct (Split rest sep); discriminate.
Qed.

Lemma Join_Split (s : string) (sep : ascii) : Join (Split s sep) sep = s.
Proof.
  induction s as [| c rest IH]; [reflexivity |]. simpl.
  destruct (Ascii.eqb_spec c sep) as [-> | Hne].
  - pose proof (Split_nonempty rest sep).
    simpl. destruct (Split rest sep) as [| p ps]; [contradiction |].
    simpl in *. now rewrite IH.
  - pose proof (Split_nonempty rest sep).
    destruct (Split rest sep) as [| p ps]; [contradiction |].
    destruct ps as [| p' ps]; simpl in *; now rewrite <- IH.
Qed.

Lemma Split_parts_clean (s : string) (sep : ascii) :
  Forall (fun p => contains sep p = false) (Split s sep).
Proof.
  induction s as [| c rest IH]; simpl; [repeat constructor |].
  destruct (Ascii.eqb_spec c sep) as [-> | Hne].
  - constructor; [reflexivity | exact IH].
  - destruct (Split rest sep) as [| p ps]; [repeat constructor; simpl |].
    + destruct (Ascii.eqb_spec c sep); [contradiction | reflexivity].
    + inversion IH as [| ? ? Hp Hps]; subst. constructor; [| exact Hps].
      simpl. destruct (Ascii.eqb_spec c sep); [contradiction | exact Hp].
Qed.

Lemma append_assoc (a b c : string) :
  ((a ++ b) ++ c = a ++ (b ++ c))%string.
Proof. induction a as [| x a IH]; [reflexivity |]. simpl. now rewrite IH. Qed.

Lemma Join_last (parts : list string) (sep : ascii) :
  parts <> [] ->
  exists prefix,
    Join parts sep = (prefix ++ last parts "")%string /\
    (prefix = "" \/ exists p, prefix = (p ++ String sep "")%string).
Proof.
  induction parts as [| p ps IH]; [contradiction |]. intros _.
  destruct ps as [| p' ps].
  - exists "". simpl. auto.
  - destruct (IH ltac:(discriminate)) as (prefix & Hj & Hp).
    exists (p ++ String sep prefix)%string.
    change (last (p :: p' :: ps) "") with (last (p' :: ps) "").
    change (Join (p :: p' :: ps) sep)
      with (p ++ String sep (Join (p' :: ps) sep))%string.
    rewrite Hj. split.
    + now rewrite append_assoc.
    + right. destruct Hp as [-> | (q & ->)].
      * exists p. reflexivity.
      * exists (p ++ String sep q)%string. now rewrite append_assoc.
Qed.

Lemma contains_append (c : ascii) (a b : string) :
  contains c (a ++ b) = contains c a || contains c b.
Proof.
  induction a as [| x a IH]; [reflexivity |]. simpl. now rewrite IH, orb_assoc.
Qed.

(** X8.  The default file name.  [strings.Split(url, "/")] is never
    empty, so the index [len(urlParts)-1] is in range; the name taken is
    the part of the URL after its last slash: it holds no slash, the URL
    is a prefix followed by it where the prefix is empty or ends in a
    slash, and a URL without any slash is its own file name. *)
Theorem defaultFileName_is_last_segment (url : string) :
  let name := defaultFileName url in
  Split url "/" <> [] /\
  contains "/" name = false /\
  (exists prefix,
     url = (prefix ++ name)%string /\
     (prefix = "" \/ exists p, prefix = (p ++ "/")%string)) /\
  (contains "/" url = false -> name = url).
Proof.
  cbn zeta. unfold defaultFileName.
  pose proof (Split_nonempty url "/") as Hne.
  pose proof (Split_parts_clean url "/") as Hcl.
  destruct (Join_last (Split url "/") "/" Hne) as (prefix & Hj & Hp).
  rewrite Join_Split in Hj.
  assert (Hname : contains "/" (last (Split url "/") "") = false).
  { rewrite Forall_forall in Hcl. apply Hcl.
    destruct (exists_last Hne) as (l & a & ->). rewrite last_last.
    apply in_or_app. right. left. reflexivity. }
  splits; auto.
  - exists prefix. auto.
  - intros Hu. destruct Hp as [-> | (p & ->)]; [exact (eq_sym Hj) |].
    rewrite Hj, !contains_append in Hu. simpl in Hu.
    rewrite orb_true_r in Hu. discriminate.
Qed.

Lemma defaultFileName_is_last_segment_witness :
  contains "/" "archive.zip" = false /\
  defaultFileName "archive.zip" = "archive.zip".
Proof.
  assert (H : contains "/" "archive.zip" = false) by reflexivity.
  split; [exact H |].
  exact (proj2 (proj2 (proj2 (defaultFileName_is_last_segment "archive.zip"))) H).
Defined.

(** ** The dispatch of the command line *)

(** X9.  The dispatch of [main].  An argument vector of fewer than three
    entries ends with the usage line and status 1, and a command other
    than [download] with the unknown-command lines and status 1, in both
    cases without a request or a file call.  For [prog download url ...]
    a flag parse that ends the process gives its status, and otherwise,
    for a non-empty output value, [downloadFile] is run on the path
    [Clean(output + "\" + name)] with the name taken from the URL.  The
    usage line of [downloadCmd] itself is never printed by [main]. *)
Theorem main_dispatch (cli : Cli) (env : Env) (os_Args : list string)
    (w : World) :
  ((List.length os_Args < 3)%nat ->
     main cli env os_Args w = (1, [MsgUsage], w)) /\
  ((3 <= List.length os_Args)%nat -> nth 1 os_Args "" <> "download" ->
     main cli env os_Args w = (1, [MsgUnknownCommand (nth 1 os_Args "")], w)) /\
  (forall prog url rest, os_Args = prog :: "download" :: url :: rest ->
     (forall status, flag_Parse cli (defaultFileName url) rest = inl status ->
        main cli env os_Args w = (status, [], w)) /\
     (forall output workers,
        flag_Parse cli (defaultFileName url) rest = inr (output, workers) ->
        output <> "" ->
        let path := filepath_Clean cli (output ++ "\" ++ defaultFileName url)%string in
        main cli env os_Args w =
          (fst (downloadCmd env url path workers w), [],
           snd (downloadCmd env url path workers w)))) /\
  ~ In MsgUsageDownload (snd (fst (main cli env os_Args w))).
Proof.
  splits.
  - intros H. unfold main. destruct (Nat.ltb_spec (List.length os_Args) 3); [reflexivity | lia].
  - intros H Hc. unfold main.
    destruct (Nat.ltb_spec (List.length os_Args) 3); [lia |].
    destruct (String.eqb_spec (nth 1 os_Args "") "download"); [contradiction | reflexivity].
  - intros prog url rest ->. unfold main. cbn [List.length Nat.ltb Nat.leb nth skipn].
    change (String.eqb "download" "download") with true. cbn iota.
    unfold downloadCmdArgs. split.
    + intros status ->. reflexivity.
    + intros output workers -> Hout. cbn zeta.
      destruct (String.eqb_spec output ""); [contradiction |].
      now destruct (downloadCmd env url _ workers w).
  - unfold main. destruct (Nat.ltb_spec (List.length os_Args) 3) as [Hl | Hl].
    { simpl. intros [H | []]. discriminate. }
    destruct (String.eqb (nth 1 os_Args "") "download").
    2:{ simpl. intros [H | []]. discriminate. }
    destruct os_Args as [| a [| b [| url rest]]]; simpl in Hl; try lia.
    cbn [skipn]. unfold downloadCmdArgs.
    destruct (flag_Parse cli (defaultFileName url) rest) as [status | [output workers]].
    + simpl. tauto.
    + cbn zeta. destruct (downloadCmd env url _ workers w). simpl. tauto.
Qed.

Lemma main_dispatch_witness :
  (List.length ["sdm"; "download"] < 3)%nat /\
  main cli_defaults env_not_found ["sdm"; "download"] w0 = (1, [MsgUsage], w0).
Proof.
  assert (H : (List.length ["sdm"; "download"] < 3)%nat) by (simpl; lia).
  split; [exact H |].
  exact (proj1 (main_dispatch cli_defaults env_not_found ["sdm"; "download"] w0) H).
Defined.

(** ** The combined probe *)

Lemma combined_probe_steps env url w :
  CombinedProbe.probe env url w =
  match http_NewRequest env url with
  | Some e => (inl e, logged w [EvNewRequest "GET" url])
  | None =>
      let w1 := logged w [EvNewRequest "GET" url; EvDo url "bytes=0-0"] in
      match verify_Do env url "bytes=0-0" with
      | inl e => (inl e, w1)
      | inr resp => (inr resp, w1)
      end
  end.
Proof.
  unfold CombinedProbe.probe. munfold. simpl.
  destruct (http_NewRequest env url); [reflexivity |]. simpl.
  unfold logged. simpl. rewrite <- app_assoc. simpl.
  destruct (verify_Do env url "bytes=0-0"); reflexivity.
Qed.

(** X10.  The combined probe of part_002.  When the probe request
    [bytes=0-0] gets an answer, any status other than 206, error statuses
    included, leads to the single-stream fallback; status 206 with a
    Content-Range of exactly two fields around one slash, the second of
    which [strconv.Atoi] reads as [size], leads to the ranged transfer of
    main.go for that size. *)
Theorem combined_probe_decision (env : Env) (url output : string) (n : Z)
    (w : World) (resp : Response) :
  http_NewRequest env url = None ->
  verify_Do env url "bytes=0-0" = inr resp ->
  let w1 := logged w [EvNewRequest "GET" url; EvDo url "bytes=0-0"] in
  (StatusCode resp <> StatusPartialContent ->
     CombinedProbe.downloadFile env url output n w =
       CombinedProbe.wrap
         (singleDownload env url output (logged w1 [EvPrint MsgNoRanges]))) /\
  (StatusCode resp = StatusPartialContent ->
     forall unit total size,
       Split (Header_Get (Header resp) "Content-Range") "/" = [unit; total] ->
       Atoi total = inr size ->
       CombinedProbe.downloadFile env url output n w =
         CombinedProbe.wrap (rangedTransfer env url output size n w1)).
Proof.
  intros Hreq Hdo w1. unfold CombinedProbe.downloadFile.
  rewrite combined_probe_steps, Hreq. cbn zeta. rewrite Hdo. fold w1. split.
  - intros Hs. destruct (Z.eqb_spec (StatusCode resp) StatusPartialContent);
      [contradiction | reflexivity].
  - intros Hs unit total size Hsp Ha. rewrite Hs.
    cbn [negb Z.eqb StatusPartialContent Pos.eqb].
    destruct (String.eqb_spec (Header_Get (Header resp) "Content-Range") "") as [He | He].
    { rewrite He in Hsp. discriminate. }
    rewrite Hsp. cbn [List.length Nat.eqb negb nth]. now rewrite Ha.
Qed.

Lemma combined_probe_decision_witness :
  Split "bytes 0-0/10" "/" = ["bytes 0-0"; "10"] /\
  CombinedProbe.downloadFile env_combined "u" "out" 2 w0 =
    CombinedProbe.wrap
      (rangedTransfer env_combined "u" "out" 10 2
         (logged w0 [EvNewRequest "GET" "u"; EvDo "u" "bytes=0-0"])).
Proof.
  assert (H : Split "bytes 0-0/10" "/" = ["bytes 0-0"; "10"]) by reflexivity.
  split; [exact H |].
  exact (proj2 (combined_probe_decision env_combined "u" "out" 2 w0
                  (mkResponse 206 [("Content-Range", "bytes 0-0/10")] 1 [])
                  eq_refl eq_refl)
           eq_refl "bytes 0-0" "10" 10 H eq_refl).
Defined.

(** X11.  The combined probe of part_002 fails before it touches a file.
    When the probe request cannot be made or sent, or is answered 206 with
    a Content-Range that is missing, has not exactly two fields, or whose
    total is not a number, [downloadFile] returns an error, the files are
    as they were, and the trace holds no file call and no fallback GET. *)
Theorem combined_probe_failure_touches_no_file (env : Env)
    (url output : string) (n : Z) (w : World) :
  CombinedProbe.Fails env url ->
  let r := CombinedProbe.downloadFile env url output n w in
  exists failure evs,
    fst r = inl failure /\
    fs (snd r) = fs w /\
    log (snd r) = log w ++ evs /\
    existsb touches_file evs = false /\
    existsb (fun e => match e with EvGet _ => true | _ => false end) evs = false.
Proof.
  intros Hf. cbn zeta. unfold CombinedProbe.downloadFile.
  rewrite combined_probe_steps.
  destruct (http_NewRequest env url) as [e0 |] eqn:Hreq.
  { exists (CombinedProbe.Err e0), [EvNewRequest "GET" url]. splits; reflexivity. }
  cbn zeta.
  destruct Hf as [(e & He) | [(e & He) | (resp & Hdo & Hs & Hcr)]].
  - congruence.
  - rewrite He. exists (CombinedProbe.Err e), [EvNewRequest "GET" url; EvDo url "bytes=0-0"].
    splits; reflexivity.
  - rewrite Hdo, Hs. cbn [negb Z.eqb StatusPartialContent Pos.eqb].
    cbn zeta in Hcr.
    destruct (String.eqb_spec (Header_Get (Header resp) "Content-Range") "") as [He | He].
    { exists CombinedProbe.MissingContentRange,
        [EvNewRequest "GET" url; EvDo url "bytes=0-0"]. splits; reflexivity. }
    destruct (Nat.eqb_spec (List.length (Split (Header_Get (Header resp) "Content-Range") "/")) 2)
      as [Hl | Hl]; cbn [negb].
    2:{ exists CombinedProbe.InvalidContentRange,
          [EvNewRequest "GET" url; EvDo url "bytes=0-0"]. splits; reflexivity. }
    destruct Hcr as [Hc | [Hc | (e & Hc)]]; [contradiction | contradiction |].
    rewrite Hc. exists (CombinedProbe.Err (InvalidContentLength e)),
      [EvNewRequest "GET" url; EvDo url "bytes=0-0"]. splits; reflexivity.
Qed.

Lemma combined_probe_failure_touches_no_file_witness :
  CombinedProbe.Fails env_unknown_total "u" /\
  fst (CombinedProbe.downloadFile env_unknown_total "u" "out" 0 w0)
    = inl (CombinedProbe.Err (InvalidContentLength ErrSyntax)).
Proof.
  assert (H : CombinedProbe.Fails env_unknown_total "u").
  { right. right.
    exists (mkResponse 206 [("Content-Range", "bytes 0-0/*")] 1 []).
    split; [reflexivity |]. split; [reflexivity |].
    right. right. exists ErrSyntax. reflexivity. }
  split; [exact H |].
  destruct (combined_probe_failure_touches_no_file env_unknown_total "u" "out" 0 w0 H)
    as (f & evs & H1 & _).
  rewrite H1. f_equal. vm_compute in H1. congruence.
Defined.

(** ** The first iteration *)

Lemma first_iteration_steps env url output workers w resp size :
  HeadOK env url resp size ->
  os_Create env output = None ->
  0 <= size ->
  file_Truncate env size = None ->
  exists w1,
    FirstIteration.downloadFile env url output workers w =
      runTasks env url output 0 (chunkPlan size workers) w1 /\
    fs w1 output = Some (repeat zero (Z.to_nat size)) /\
    (forall p, p <> output -> fs w1 p = fs w p).
Proof.
  intros (Hh & Hs & Ha) Hc Hsz Ht. unfold FirstIteration.downloadFile. munfold. simpl.
  rewrite Hh. simpl. rewrite Hs. cbn [negb Z.eqb StatusOK Pos.eqb]. rewrite Ha. simpl.
  rewrite Hc. simpl. destruct (Z.ltb_spec size 0); [lia |]. rewrite Ht. simpl.
  rewrite fs_set_same. simpl.
  eexists. split; [apply bind_ret_tt |]. simpl. split.
  - rewrite fs_set_same. unfold resize. rewrite firstn_nil. simpl.
    now rewrite Nat.sub_0_r.
  - intros p Hp. now rewrite !fs_set_other.
Qed.

(** X12.  The first iteration has neither capability check nor fallback.
    Against a server that turns down every ranged request, its
    [downloadFile] plans eight chunks, returns [nil] and leaves a
    destination of [size] zero bytes; [main] prints the success line and
    the exit status is 0. *)
Theorem first_iteration_succeeds_without_ranges (parse : FirstIteration.Parse)
    (env : Env) (prog url : string) (rest : list string) (output : string)
    (w : World) (resp : Response) (size : Z) :
  parse (last (Split url "/") "") rest = inr output ->
  HeadOK env url resp size ->
  0 <= size <= GoInt.max_int ->
  http_NewRequest env url = None ->
  os_Create env output = None ->
  file_Truncate env size = None ->
  (forall i s e,
     nth_error (chunkPlan size FirstIteration.numWorkers) i = Some (s, e) ->
     exhausted (part_env env i) url s e) ->
  let r := FirstIteration.downloadFile env url output FirstIteration.numWorkers w in
  let m := FirstIteration.main parse env (prog :: "download" :: url :: rest) w in
  List.length (chunkPlan size FirstIteration.numWorkers) = 8%nat /\
  fst r = inr tt /\
  fs (snd r) output = Some (repeat zero (Z.to_nat size)) /\
  fst (fst m) = 0 /\
  log (snd m) = log (snd r) ++ [EvPrint MsgCompleted].
Proof.
  intros Hparse Hhead Hsize Hreq Hcr Htr Hex r m.
  assert (Hw8 : 1 <= FirstIteration.numWorkers <= GoInt.max_int)
    by (unfold FirstIteration.numWorkers, GoInt.max_int; lia).
  assert (Hlenz : len (repeat zero (Z.to_nat size)) = size)
    by (unfold len; rewrite repeat_length; lia).
  assert (Hr : fst r = inr tt /\
               fs (snd r) output = Some (repeat zero (Z.to_nat size))).
  { unfold r.
    destruct (first_iteration_steps env url output FirstIteration.numWorkers w
                resp size Hhead Hcr ltac:(lia) Htr) as (w1 & -> & Hf & Hoth).
    rewrite (runTasks_in_launch_order env url output
               (chunkPlan size FirstIteration.numWorkers)
               (chunkPlan size FirstIteration.numWorkers) 0 w1 eq_refl).
    destruct (runTasksIn_assembles env url output (repeat zero (Z.to_nat size)) size
                FirstIteration.numWorkers (fun _ => false) w Hsize Hw8 Hlenz Hreq Hex
                (seq 0 (List.length (chunkPlan size FirstIteration.numWorkers))) w1
                ltac:(intros i Hi; apply in_seq; lia) Hoth Hf)
      as (R1 & _ & c & Hc & Hlen & Hpt).
    split; [exact R1 |]. rewrite Hc. f_equal.
    apply (Assembled_unique (repeat zero (Z.to_nat size)) size
             FirstIteration.numWorkers (fun _ => false) Hsize Hw8).
    - split; [exact Hlen | exact Hpt].
    - split; [exact Hlenz |]. intros i rg off Hi Hcov.
      destruct (plan_covers_inv size FirstIteration.numWorkers Hsize Hw8 i rg off Hi Hcov)
        as [Hoff _].
      apply nth_error_repeat. lia. }
  destruct Hr as (R1 & R2).
  split; [rewrite chunkPlan_length; reflexivity |].
  split; [exact R1 |]. split; [exact R2 |].
  unfold m, FirstIteration.main. cbn [List.length Nat.ltb Nat.leb nth skipn].
  change (String.eqb "download" "download") with true. cbn iota zeta.
  rewrite Hparse. fold r.
  destruct r as [[err | []] w2]; [discriminate |]. split; reflexivity.
Qed.

Lemma first_iteration_succeeds_without_ranges_witness :
  let m := FirstIteration.main (fun name _ => inr name) env_ignores_range
             ["sdm"; "download"; "http://h/f"] w0 in
  HeadOK env_ignores_range "http://h/f"
    (mkResponse 200 [("Content-Length", "3")] 3 []) 3 /\
  fst (fst m) = 0 /\
  fs (snd (FirstIteration.downloadFile env_ignores_range "http://h/f" "f"
             FirstIteration.numWorkers w0)) "f" = Some (repeat zero 3).
Proof.
  intros m.
  assert (H : HeadOK env_ignores_range "http://h/f"
                (mkResponse 200 [("Content-Length", "3")] 3 []) 3)
    by (repeat split; reflexivity).
  split; [exact H |].
  destruct (first_iteration_succeeds_without_ranges (fun name _ => inr name)
              env_ignores_range "sdm" "http://h/f" [] "f" w0
              (mkResponse 200 [("Content-Length", "3")] 3 []) 3
              eq_refl H ltac:(unfold GoInt.max_int; lia) eq_refl eq_refl eq_refl)
    as (_ & _ & H3 & H4 & _).
  - intros i s e Hi j Hj. unfold refused. vm_compute. congruence.
  - split; [exact H4 | exact H3].
Defined.

(** X13.  The exit status of the first iteration.  With at least three
    arguments [main] never calls [os.Exit(1)]: an unknown command prints
    its lines and the status is 0, and a download whose [downloadFile]
    returns an error prints the failure line and the status is 0 as well;
    a status other than 0 can only come from the flag parse. *)
Theorem first_iteration_exit_status (parse : FirstIteration.Parse) (env : Env)
    (os_Args : list string) (w : World) :
  (3 <= List.length os_Args)%nat ->
  let m := FirstIteration.main parse env os_Args w in
  let url := nth 2 os_Args "" in
  (nth 1 os_Args "" <> "download" ->
     m = (0, [MsgUnknownCommand (nth 1 os_Args "")], w)) /\
  (nth 1 os_Args "" = "download" ->
     forall output,
       parse (last (Split url "/") "") (skipn 3 os_Args) = inr output ->
       fst (fst m) = 0 /\
       forall err,
         fst (FirstIteration.downloadFile env url output FirstIteration.numWorkers w)
           = inl err ->
         log (snd m) =
           log (snd (FirstIteration.downloadFile env url output
                       FirstIteration.numWorkers w))
           ++ [EvPrint (MsgDownloadFailed err)]) /\
  (fst (fst m) = 0 \/
   parse (last (Split url "/") "") (skipn 3 os_Args) = inl (fst (fst m))).
Proof.
  intros Hlen m url. unfold m, FirstIteration.main. fold url.
  destruct (Nat.ltb_spec (List.length os_Args) 3); [lia |]. cbn zeta.
  destruct (String.eqb_spec (nth 1 os_Args "") "download") as [Hc | Hc].
  - splits; [contradiction | |].
    + intros _ output ->.
      destruct (FirstIteration.downloadFile env url output FirstIteration.numWorkers w)
        as [[e | []] w1]; (split; [reflexivity |]); intros err [= <-]. reflexivity.
    + destruct (parse (last (Split url "/") "") (skipn 3 os_Args)) as [status | output];
        [right; reflexivity |].
      left.
      now destruct (FirstIteration.downloadFile env url output FirstIteration.numWorkers w)
        as [[e | []] w1].
  - splits; [reflexivity | contradiction | left; reflexivity].
Qed.

Lemma first_iteration_exit_status_witness :
  (3 <= List.length ["sdm"; "download"; "http://h/f"])%nat /\
  fst (fst (FirstIteration.main (fun name _ => inr name) env_not_found
              ["sdm"; "download"; "http://h/f"] w0)) = 0 /\
  fst (FirstIteration.downloadFile env_not_found "http://h/f" "f"
         FirstIteration.numWorkers w0) = inl (StatusError 404).
Proof.
  assert (H : (3 <= List.length ["sdm"; "download"; "http://h/f"])%nat)
    by (simpl; lia).
  split; [exact H |].
  split; [| reflexivity].
  exact (proj1 (proj1 (proj2 (first_iteration_exit_status (fun name _ => inr name)
           env_not_found ["sdm"; "download"; "http://h/f"] w0 H))
           eq_refl "f" eq_refl)).
Defined.
